(** * Shipment JSON parser: a shallow embedding of [json_parser.py]

    The development follows [src/nova_act_automation/json_parser.py],
    class [JsonParser]: the alias table [_get_field_mappings], the
    flattener [_flatten_json], the alias resolver [_find_value_by_keys],
    the value normaliser [_normalize_value] with [_normalize_date] and
    [_normalize_address], the pipeline [parse_json_data] and the validator
    [validate_parsed_data].  The first part embeds the program, the second
    gives the vocabulary of the specification, the third proves the
    properties.

    Modelling conventions.
    - Python values that travel through the parser (what [json.load]
      returns, and what the parser builds) are the inductive [json].
      A Python [int] is a [Z]; a Python [float] is carried by its [repr]
      (the parser only ever stringifies the numbers of a document).
    - A Python [dict] is an association list in insertion order whose keys
      are pairwise distinct; writing an existing key replaces the value in
      place, writing a fresh key appends ([dict_set]).
    - Python [str] is [string]; the development covers ASCII text, on which
      [str.lower], [str.strip], [\d] and [\s] are the functions below.
    - The library functions the parser calls ([re.search], [str(...)],
      [datetime.strptime], [strftime]) are embedded along with it, for the
      patterns and formats the parser uses.
    - The wall clock ([datetime.now()]) and the conversion [float(...)] are
      inputs of the functions that use them. *)

From Stdlib Require Import Bool Ascii String List ZArith Lia.
Import ListNotations.

Local Open Scope string_scope.
Local Open Scope Z_scope.

(* ------------------------------------------------------------------ *)
(** ** Characters and strings *)

Module Str.

Definition code (c : ascii) : N := N_of_ascii c.

Definition between (lo hi : N) (c : ascii) : bool :=
  ((lo <=? code c) && (code c <=? hi))%N.

(** [\d] and [str.isdigit] on ASCII. *)
Definition is_digit (c : ascii) : bool := between 48 57 c.

(** [str.isspace] on ASCII: TAB, LF, VT, FF, CR, FS, GS, RS, US, space. *)
Definition is_space (c : ascii) : bool :=
  between 9 13 c || between 28 32 c.

(** One character of [str.lower]. *)
Definition lower_char (c : ascii) : ascii :=
  if between 65 90 c then ascii_of_N (code c + 32) else c.

Fixpoint lower (s : string) : string :=
  match s with
  | EmptyString => EmptyString
  | String c s' => String (lower_char c) (lower s')
  end.

Fixpoint lstrip (s : string) : string :=
  match s with
  | EmptyString => EmptyString
  | String c s' => if is_space c then lstrip s' else s
  end.

Fixpoint rstrip (s : string) : string :=
  match s with
  | EmptyString => EmptyString
  | String c s' =>
      match rstrip s' with
      | EmptyString => if is_space c then EmptyString else String c EmptyString
      | r => String c r
      end
  end.

(** [s.strip()] *)
Definition strip (s : string) : string := rstrip (lstrip s).

Fixpoint starts_with (p s : string) : bool :=
  match p, s with
  | EmptyString, _ => true
  | String a p', String b s' => Ascii.eqb a b && starts_with p' s'
  | String _ _, EmptyString => false
  end.

(** [p in s] for two strings: [p] occurs in [s] as a contiguous block. *)
Fixpoint contains (p s : string) : bool :=
  starts_with p s ||
  match s with
  | EmptyString => false
  | String _ s' => contains p s'
  end.

(** [s.replace(a, b)] for single characters. *)
Fixpoint replace_char (a b : ascii) (s : string) : string :=
  match s with
  | EmptyString => EmptyString
  | String c s' =>
      String (if Ascii.eqb c a then b else c) (replace_char a b s')
  end.

(** [s.split(sep)] for a single-character separator. *)
Fixpoint split (sep : ascii) (s : string) : list string :=
  match s with
  | EmptyString => [EmptyString]
  | String c s' =>
      if Ascii.eqb c sep then EmptyString :: split sep s'
      else match split sep s' with
           | [] => [String c EmptyString]
           | h :: t => String c h :: t
           end
  end.

(** [sep.join(parts)] *)
Fixpoint join (sep : string) (parts : list string) : string :=
  match parts with
  | [] => EmptyString
  | [p] => p
  | p :: rest => p ++ sep ++ join sep rest
  end.

Definition is_empty (s : string) : bool :=
  match s with EmptyString => true | _ => false end.

Definition digit_char (n : N) : ascii := ascii_of_N (48 + n).

(** Decimal digits of a natural number, most significant first; the
    fuel bounds the number of digits. *)
Fixpoint digits_fuel (fuel : nat) (n : N) (acc : string) : string :=
  match fuel with
  | O => acc
  | S f =>
      let acc' := String (digit_char (n mod 10)) acc in
      if (n <? 10)%N then acc' else digits_fuel f (n / 10)%N acc'
  end.

Definition of_N (n : N) : string :=
  digits_fuel (S (N.to_nat (N.log2 n))) n EmptyString.

(** [str(z)] for a Python [int]. *)
Definition of_Z (z : Z) : string :=
  match z with
  | Z0 => "0"
  | Zpos p => of_N (Npos p)
  | Zneg p => String "-" (of_N (Npos p))
  end.

(** Left [zfill]: pad with zeros to [width] characters. *)
Fixpoint zeros (n : nat) : string :=
  match n with O => EmptyString | S k => String "0" (zeros k) end.

Definition zfill (width : nat) (s : string) : string :=
  zeros (width - String.length s) ++ s.

End Str.

(* ------------------------------------------------------------------ *)
(** ** Python values and dictionaries *)

#[local] Set Warnings "-register-all".
Inductive json : Type :=
| JNull
| JBool (b : bool)
| JInt (z : Z)
| JFloat (repr : string)
| JStr (s : string)
| JArr (items : list json)
| JObj (entries : list (string * json)).

(** A [dict] with string keys: entries in insertion order. *)
Definition dict (V : Type) : Type := list (string * V).

Section Dict.
Context {V : Type}.

(** [key in d] *)
Fixpoint dict_mem (key : string) (d : dict V) : bool :=
  match d with
  | [] => false
  | (k, _) :: rest => String.eqb key k || dict_mem key rest
  end.

(** [d[key]] when the key is present. *)
Fixpoint dict_get (key : string) (d : dict V) : option V :=
  match d with
  | [] => None
  | (k, v) :: rest => if String.eqb key k then Some v else dict_get key rest
  end.

(** [d[key] = v] *)
Fixpoint dict_set (key : string) (v : V) (d : dict V) : dict V :=
  match d with
  | [] => [(key, v)]
  | (k, w) :: rest =>
      if String.eqb key k then (k, v) :: rest
      else (k, w) :: dict_set key v rest
  end.

(** [dict(items)]: later pairs overwrite earlier ones. *)
Definition dict_of_items (items : list (string * V)) : dict V :=
  fold_left (fun d kv => dict_set (fst kv) (snd kv) d) items [].

(** [list(d.keys())] *)
Definition dict_keys (d : dict V) : list string := map fst d.

End Dict.

(* ------------------------------------------------------------------ *)
(** ** The alias table: [_get_field_mappings] *)

Definition _get_field_mappings : dict (list string) :=
  [ ("shipper_name",
      ["shipper_name"; "shipper"; "sender_name"; "sender"; "from_name"; "from";
       "origin_name"; "origin_company"; "shipping_company"; "company_name"]);
    ("shipper_address",
      ["shipper_address"; "shipper_addr"; "sender_address"; "sender_addr";
       "from_address"; "from_addr"; "origin_address"; "origin_addr";
       "pickup_address"]);
    ("recipient_name",
      ["recipient_name"; "recipient"; "receiver_name"; "receiver"; "to_name";
       "to"; "destination_name"; "dest_name"; "customer_name";
       "consignee_name"; "consignee"]);
    ("recipient_address",
      ["recipient_address"; "recipient_addr"; "receiver_address";
       "receiver_addr"; "to_address"; "to_addr"; "destination_address";
       "dest_address"; "delivery_address"]);
    ("package_weight",
      ["package_weight"; "weight"; "pkg_weight"; "total_weight";
       "gross_weight"; "shipment_weight"; "parcel_weight"; "item_weight"]);
    ("package_dimensions",
      ["package_dimensions"; "dimensions"; "pkg_dimensions"; "size";
       "measurements"; "length_width_height"; "lwh"; "box_size"]);
    ("tracking_number",
      ["tracking_number"; "tracking_no"; "tracking_id"; "track_number";
       "reference_number"; "reference_no"; "shipment_id"; "order_number";
       "order_id"; "awb_number"]);
    ("shipping_date",
      ["shipping_date"; "ship_date"; "pickup_date"; "dispatch_date";
       "send_date"; "departure_date"; "collection_date"; "scheduled_date"]);
    ("special_instructions",
      ["special_instructions"; "instructions"; "notes"; "comments"; "remarks";
       "delivery_instructions"; "handling_instructions"; "special_notes";
       "description"]) ].

(* ------------------------------------------------------------------ *)
(** ** The flattener: [_flatten_json] *)

(** [f"{parent_key}{separator}{key}" if parent_key else key] *)
Definition new_key (parent_key separator key : string) : string :=
  if Str.is_empty parent_key then key else parent_key ++ separator ++ key.

(** The body of [_flatten_json].  [flatten_items] is the list [items]
    filled by the loop over [data.items()]; the function returns
    [dict(items)].  A value that is not a [dict] leaves [items] empty. *)
Fixpoint _flatten_json (data : json) (parent_key separator : string)
  {struct data} : dict json :=
  match data with
  | JObj entries =>
      dict_of_items
        ((fix loop (es : list (string * json)) : list (string * json) :=
            match es with
            | [] => []
            | (key, value) :: rest =>
                let nk := new_key parent_key separator key in
                ((match value with
                  | JObj _ => _flatten_json value nk separator
                  | JArr (first :: _) =>
                      match first with
                      | JObj _ => _flatten_json first nk separator
                      | _ => [(nk, value)]
                      end
                  | _ => [(nk, value)]
                  end) ++ loop rest)%list
            end) entries)
  | _ => []
  end.

(** The call [self._flatten_json(data)] with the default arguments. *)
Definition flatten (data : json) : dict json := _flatten_json data "" ".".

(* ------------------------------------------------------------------ *)
(** ** Control flow: a [for] loop whose body may [return] *)

(** [for_return xs body] runs [body] on the elements of [xs] in order;
    [Some r] is a [return r] inside the loop, [None] is falling out of the
    loop. *)
Fixpoint for_return {A R : Type} (xs : list A) (body : A -> option R)
  : option R :=
  match xs with
  | [] => None
  | x :: rest =>
      match body x with
      | Some r => Some r
      | None => for_return rest body
      end
  end.

(* ------------------------------------------------------------------ *)
(** ** The alias resolver: [_find_value_by_keys] *)

(** [{k.lower(): v for k, v in data.items()}] *)
Definition data_lower (data : dict json) : dict json :=
  dict_of_items (map (fun kv => (Str.lower (fst kv), snd kv)) data).

(** The test of the partial-match loop:
    [key.lower() in data_key.lower() or data_key.lower() in key.lower()] *)
Definition partial_match (key data_key : string) : bool :=
  Str.contains (Str.lower key) (Str.lower data_key)
  || Str.contains (Str.lower data_key) (Str.lower key).

(** The three loops of [_find_value_by_keys], each with its early return. *)
Definition exact_loop (data : dict json) (possible_keys : list string)
  : option json :=
  for_return possible_keys (fun key => dict_get key data).

Definition lower_loop (data : dict json) (possible_keys : list string)
  : option json :=
  let dl := data_lower data in
  for_return possible_keys (fun key => dict_get (Str.lower key) dl).

Definition partial_loop (data : dict json) (possible_keys : list string)
  : option json :=
  for_return possible_keys (fun key =>
    for_return data (fun item =>
      if partial_match key (fst item) then Some (snd item) else None)).

(** The function returns a Python value; [None] is [JNull], both when a
    matched key holds [None] and when nothing matches. *)
Definition _find_value_by_keys (data : dict json) (possible_keys : list string)
  : json :=
  match exact_loop data possible_keys with
  | Some v => v
  | None =>
      match lower_loop data possible_keys with
      | Some v => v
      | None =>
          match partial_loop data possible_keys with
          | Some v => v
          | None => JNull
          end
      end
  end.

(* ------------------------------------------------------------------ *)
(** ** [str(value)] *)

Module PyStr.

Definition hex_digit (n : N) : ascii :=
  if (n <? 10)%N then ascii_of_N (48 + n) else ascii_of_N (87 + n).

(** One character inside the quotes of [repr(s)]. *)
Definition escape_char (quote c : ascii) : string :=
  if Ascii.eqb c quote || Ascii.eqb c "\"
  then String "\" (String c EmptyString)
  else if Ascii.eqb c "009" then "\t"
  else if Ascii.eqb c "010" then "\n"
  else if Ascii.eqb c "013" then "\r"
  else if Str.between 32 126 c then String c EmptyString
  else String "\" (String "x"
         (String (hex_digit (Str.code c / 16))
            (String (hex_digit (Str.code c mod 16)) EmptyString))).

Fixpoint escape (quote : ascii) (s : string) : string :=
  match s with
  | EmptyString => EmptyString
  | String c s' => escape_char quote c ++ escape quote s'
  end.

Fixpoint has_char (c : ascii) (s : string) : bool :=
  match s with
  | EmptyString => false
  | String a s' => Ascii.eqb a c || has_char c s'
  end.

(** [repr(s)] for a string: single quotes unless the text has a single
    quote and no double quote. *)
Definition repr_str (s : string) : string :=
  let quote : ascii :=
    if has_char "'" s && negb (has_char "034" s) then "034"%char
    else "'"%char in
  String quote (escape quote s) ++ String quote EmptyString.

Fixpoint repr (v : json) : string :=
  match v with
  | JNull => "None"
  | JBool true => "True"
  | JBool false => "False"
  | JInt z => Str.of_Z z
  | JFloat r => r
  | JStr s => repr_str s
  | JArr items => "[" ++ Str.join ", " (map repr items) ++ "]"
  | JObj entries =>
      "{" ++ Str.join ", "
               (map (fun kv => repr_str (fst kv) ++ ": " ++ repr (snd kv))
                  entries) ++ "}"
  end.

(** [str(v)]: the text itself for a string, [repr] otherwise. *)
Definition str (v : json) : string :=
  match v with
  | JStr s => s
  | _ => repr v
  end.

End PyStr.


(* ------------------------------------------------------------------ *)
(** ** Regular expressions with Python's backtracking order *)

Module Re.

(** The fragment of [re] syntax the parser and [_strptime] use.
    [Rep p lo hi] is a greedy repetition of one character class:
    [p{lo,hi}], with [hi = None] for no upper bound. *)
Inductive t : Type :=
| Eps
| Chr (p : ascii -> bool)
| Seq (a b : t)
| Alt (a b : t)
| Rep (p : ascii -> bool) (lo : nat) (hi : option nat)
| Group (name : ascii) (a : t).

(** Captured groups, most recent first. *)
Definition captures : Type := list (ascii * string).

(** The first [n] characters of [s]. *)
Fixpoint take (n : nat) (s : string) : string :=
  match n, s with
  | S k, String c s' => String c (take k s')
  | _, _ => EmptyString
  end.

(** The remainders of [s] after a greedy repetition of a character of
    class [p], longest first: [n] characters are already consumed. *)
Fixpoint rep_rests (p : ascii -> bool) (lo : nat) (hi : option nat)
    (n : nat) (s : string) : list string :=
  let here := if (lo <=? n)%nat then [s] else [] in
  let full := match hi with Some h => (h <=? n)%nat | None => false end in
  match s with
  | String c s' =>
      if p c && negb full
      then (rep_rests p lo hi (S n) s' ++ here)%list
      else here
  | EmptyString => here
  end.

(** All the ways [r] matches a prefix of [s], in the order a backtracking
    matcher tries them; each comes with the groups and the rest of [s]. *)
Fixpoint run (r : t) (s : string) (caps : captures)
  : list (captures * string) :=
  match r with
  | Eps => [(caps, s)]
  | Chr p =>
      match s with
      | String c s' => if p c then [(caps, s')] else []
      | EmptyString => []
      end
  | Seq a b =>
      flat_map (fun m => run b (snd m) (fst m)) (run a s caps)
  | Alt a b => (run a s caps ++ run b s caps)%list
  | Rep p lo hi => map (fun rest => (caps, rest)) (rep_rests p lo hi 0 s)
  | Group name a =>
      map (fun m =>
             ((name, take (String.length s - String.length (snd m)) s)
                :: fst m, snd m))
        (run a s caps)
  end.

(** [re.match]: the first match, if any. *)
Definition match_ (r : t) (s : string) : option (captures * string) :=
  match run r s [] with
  | [] => None
  | m :: _ => Some m
  end.

(** [m.group(name)], [None] when the group is absent. *)
Fixpoint group (name : ascii) (caps : captures) : option string :=
  match caps with
  | [] => None
  | (n, txt) :: rest => if Ascii.eqb n name then Some txt else group name rest
  end.

(** Character classes. *)
Definition digit : t := Chr Str.is_digit.
Definition range (lo hi : ascii) : t :=
  Chr (Str.between (Str.code lo) (Str.code hi)).
Definition lit (c : ascii) : t := Chr (Ascii.eqb c).
(** A literal under [re.IGNORECASE]. *)
Definition lit_i (c : ascii) : t :=
  Chr (fun x => Ascii.eqb (Str.lower_char x) (Str.lower_char c)).

Fixpoint alts (rs : list t) : t :=
  match rs with
  | [] => Chr (fun _ => false)
  | [r] => r
  | r :: rest => Alt r (alts rest)
  end.

End Re.

(* ------------------------------------------------------------------ *)
(** ** The weight pattern *)

(** The longest run of digits at the head of [s], and what follows. *)
Fixpoint span_digits (s : string) : string * string :=
  match s with
  | String c s' =>
      if Str.is_digit c
      then let (ds, rest) := span_digits s' in (String c ds, rest)
      else (EmptyString, s)
  | EmptyString => (EmptyString, EmptyString)
  end.

(** The pattern [\d+\.?\d*] tried at the head of [s]: every quantifier is
    greedy and nothing follows the pattern, so the first match takes all the
    digits, then a point if one is there, then all the digits after it. *)
Definition weight_match_here (s : string) : option string :=
  match span_digits s with
  | (EmptyString, _) => None
  | (ds, String "." rest) => Some (ds ++ "." ++ fst (span_digits rest))
  | (ds, _) => Some ds
  end.

(** [re.search] for the pattern [\d+\.?\d*] and [match.group(1)]: the match at the
    leftmost position that has one. *)
Fixpoint weight_search (s : string) : option string :=
  match weight_match_here s with
  | Some m => Some m
  | None =>
      match s with
      | EmptyString => None
      | String _ s' => weight_search s'
      end
  end.

(* ------------------------------------------------------------------ *)
(** ** [datetime]: [strptime], [strftime], [isoformat], comparison *)

Module Datetime.

Record t : Type := mk
  { year : Z; month : Z; day : Z;
    hour : Z; minute : Z; second : Z; microsecond : Z }.

Definition is_leap (y : Z) : bool :=
  (y mod 4 =? 0) && (negb (y mod 100 =? 0) || (y mod 400 =? 0)).

Definition days_in_month (y m : Z) : Z :=
  if m =? 2 then (if is_leap y then 29 else 28)
  else if (m =? 4) || (m =? 6) || (m =? 9) || (m =? 11) then 30
  else 31.

(** The range checks of the [datetime] constructor; it raises
    [ValueError] when one fails. *)
Definition valid (dt : t) : bool :=
  (1 <=? year dt) && (year dt <=? 9999)
  && (1 <=? month dt) && (month dt <=? 12)
  && (1 <=? day dt) && (day dt <=? days_in_month (year dt) (month dt))
  && (0 <=? hour dt) && (hour dt <=? 23)
  && (0 <=? minute dt) && (minute dt <=? 59)
  && (0 <=? second dt) && (second dt <=? 59)
  && (0 <=? microsecond dt) && (microsecond dt <=? 999999).

(** The regular expressions of [_strptime.TimeRE] for the directives
    that occur in the parser's formats. *)
Definition directive_re (d : ascii) : option Re.t :=
  let seq2 a b := Re.Seq a b in
  let body :=
    match d with
    | "d"%char => Some (Re.alts
        [ seq2 (Re.lit "3") (Re.range "0" "1");
          seq2 (Re.range "1" "2") Re.digit;
          seq2 (Re.lit "0") (Re.range "1" "9");
          Re.range "1" "9";
          seq2 (Re.lit " ") (Re.range "1" "9") ])
    | "f"%char => Some (Re.Rep Str.is_digit 1 (Some 6%nat))
    | "H"%char => Some (Re.alts
        [ seq2 (Re.lit "2") (Re.range "0" "3");
          seq2 (Re.range "0" "1") Re.digit;
          Re.digit ])
    | "m"%char => Some (Re.alts
        [ seq2 (Re.lit "1") (Re.range "0" "2");
          seq2 (Re.lit "0") (Re.range "1" "9");
          Re.range "1" "9" ])
    | "M"%char => Some (Re.alts
        [ seq2 (Re.range "0" "5") Re.digit; Re.digit ])
    | "S"%char => Some (Re.alts
        [ seq2 (Re.lit "6") (Re.range "0" "1");
          seq2 (Re.range "0" "5") Re.digit;
          Re.digit ])
    | "Y"%char => Some
        (seq2 Re.digit (seq2 Re.digit (seq2 Re.digit Re.digit)))
    | _ => None
    end in
  option_map (Re.Group d) body.

(** [TimeRE.pattern]: a directive becomes its group, a run of white
    space becomes [\s+], any other character stands for itself (compiled
    with [re.IGNORECASE]).  [None] is the [ValueError] of a bad
    directive. *)
Fixpoint pattern (in_space : bool) (format : string) : option Re.t :=
  match format with
  | EmptyString => Some Re.Eps
  | String "%" (String d rest) =>
      match directive_re d, pattern false rest with
      | Some r, Some k => Some (Re.Seq r k)
      | _, _ => None
      end
  | String c rest =>
      if Str.is_space c then
        if in_space then pattern true rest
        else option_map (Re.Seq (Re.Rep Str.is_space 1 None))
               (pattern true rest)
      else option_map (Re.Seq (Re.lit_i c)) (pattern false rest)
  end.

(** [int(text)] on a captured group: decimal digits, leading blanks
    skipped. *)
Definition int_of (text : string) : Z :=
  (fix go (s : string) (acc : Z) : Z :=
     match s with
     | EmptyString => acc
     | String c s' =>
         if Str.is_digit c
         then go s' (10 * acc + Z.of_N (Str.code c - 48))
         else go s' acc
     end) text 0.

Definition group_int (d : ascii) (default : Z) (caps : Re.captures) : Z :=
  match Re.group d caps with
  | Some txt => int_of txt
  | None => default
  end.

(** [datetime.strptime(data_string, format)]; [None] is [ValueError]:
    the pattern does not match, unconverted data remains, or the fields
    are not a date and time. *)
Definition strptime (data_string format : string) : option t :=
  match pattern false format with
  | None => None
  | Some re =>
      match Re.match_ re data_string with
      | None => None
      | Some (caps, rest) =>
          if negb (Str.is_empty rest) then None
          else
            let fraction :=
              match Re.group "f" caps with
              | Some s => int_of (s ++ Str.zeros (6 - String.length s))
              | None => 0
              end in
            let dt := mk (group_int "Y" 1900 caps) (group_int "m" 1 caps)
                        (group_int "d" 1 caps) (group_int "H" 0 caps)
                        (group_int "M" 0 caps) (group_int "S" 0 caps)
                        fraction in
            if valid dt then Some dt else None
      end
  end.

Definition pad (width : nat) (z : Z) : string :=
  Str.zfill width (Str.of_Z z).

(** [dt.strftime('%Y-%m-%d')].  The directives are handed to the C
    library, which writes [%Y] as the year in decimal without padding
    (glibc, under Python 3.11): a year below 1000 comes out with fewer
    than four digits, [datetime(999, 1, 15)] as [999-01-15].  [%m] and
    [%d] are two digits, zero padded. *)
Definition strftime_ymd (dt : t) : string :=
  Str.of_Z (year dt) ++ "-" ++ pad 2 (month dt) ++ "-" ++ pad 2 (day dt).

(** [dt.date().isoformat()]: the library's own formatting, with a
    four-digit year whatever the year. *)
Definition iso_date (dt : t) : string :=
  pad 4 (year dt) ++ "-" ++ pad 2 (month dt) ++ "-" ++ pad 2 (day dt).

(** [dt.isoformat()] *)
Definition isoformat (dt : t) : string :=
  iso_date dt ++ "T" ++ pad 2 (hour dt) ++ ":" ++ pad 2 (minute dt)
    ++ ":" ++ pad 2 (second dt)
    ++ (if microsecond dt =? 0 then "" else "." ++ pad 6 (microsecond dt)).

Fixpoint lex_ltb (a b : list Z) : bool :=
  match a, b with
  | x :: a', y :: b' => (x <? y) || ((x =? y) && lex_ltb a' b')
  | _, _ => false
  end.

Definition fields (dt : t) : list Z :=
  [year dt; month dt; day dt; hour dt; minute dt; second dt; microsecond dt].

(** [a < b] on naive datetimes. *)
Definition ltb (a b : t) : bool := lex_ltb (fields a) (fields b).

End Datetime.


(* ------------------------------------------------------------------ *)
(** ** The value normaliser *)

Definition newline : ascii := "010"%char.

(** The list [formats] of [_normalize_date]. *)
Definition formats : list string :=
  [ "%Y-%m-%d"; "%m/%d/%Y"; "%d/%m/%Y"; "%Y/%m/%d";
    "%Y-%m-%d %H:%M:%S"; "%m/%d/%Y %H:%M:%S";
    "%Y-%m-%dT%H:%M:%S"; "%Y-%m-%dT%H:%M:%S.%f" ].

(** The loop of [_normalize_date] over a list of formats: [try] the
    format, [return] on success, [continue] on [ValueError]. *)
Definition try_formats (fmts : list string) (date_str : string)
  : option string :=
  for_return fmts (fun fmt =>
    match Datetime.strptime date_str fmt with
    | Some dt => Some (Datetime.strftime_ymd dt)
    | None => None
    end).

Definition _normalize_date (date_str : string) : string :=
  match try_formats formats date_str with
  | Some r => r
  | None => date_str
  end.

Definition _normalize_address (address_str : string) : string :=
  let address_str :=
    Str.replace_char ";" newline (Str.replace_char "|" newline address_str) in
  let lines :=
    map Str.strip
      (filter (fun line => negb (Str.is_empty (Str.strip line)))
         (Str.split newline address_str)) in
  Str.join (String newline EmptyString) lines.

Definition _normalize_value (field_name : string) (value : json) : string :=
  match value with
  | JNull => ""
  | _ =>
      let str_value := Str.strip (PyStr.str value) in
      if String.eqb field_name "package_weight" then
        match weight_search str_value with
        | Some m => m
        | None => str_value
        end
      else if String.eqb field_name "shipping_date" then
        _normalize_date str_value
      else if String.eqb field_name "shipper_address"
              || String.eqb field_name "recipient_address" then
        _normalize_address str_value
      else str_value
  end.

(* ------------------------------------------------------------------ *)
(** ** The parse pipeline: [parse_json_data] *)

(** [value is not None] *)
Definition is_not_none (v : json) : bool :=
  match v with JNull => false | _ => true end.

(** The loop over [self.field_mappings.items()]: one step writes
    [standardized_data[standard_field]] when a value was found. *)
Definition map_field (flattened_data : dict json)
    (standardized_data : dict json) (entry : string * list string)
  : dict json :=
  let (standard_field, possible_keys) := entry in
  let value := _find_value_by_keys flattened_data possible_keys in
  if is_not_none value
  then dict_set standard_field
         (JStr (_normalize_value standard_field value)) standardized_data
  else standardized_data.

Definition map_fields (flattened_data : dict json) : dict json :=
  fold_left (map_field flattened_data) _get_field_mappings [].

(** [k.startswith('_')] *)
Definition is_private (k : string) : bool := Str.starts_with "_" k.

(** [parse_json_data]; [now] is the value of [datetime.now()]. *)
Definition parse_json_data (now : Datetime.t) (data : json) : dict json :=
  let flattened_data := flatten data in
  let standardized_data := map_fields flattened_data in
  dict_set "_metadata"
    (JObj
       [ ("parsed_at", JStr (Datetime.isoformat now));
         ("original_keys", JArr (map JStr (dict_keys flattened_data)));
         ("found_mappings",
           JObj (filter (fun kv => negb (is_private (fst kv)))
                   standardized_data)) ])
    standardized_data.

(* ------------------------------------------------------------------ *)
(** ** The validator: [validate_parsed_data] *)

Record report : Type := mk_report
  { is_valid : bool;
    missing_required : list string;
    found_fields : list string;
    warnings : list string }.

Inductive exn : Type := ValueError | TypeError | OverflowError.

Inductive outcome (A : Type) : Type :=
| Returned (a : A)
| Raised (e : exn).
Arguments Returned {A} a.
Arguments Raised {A} e.

(** The conversion [float(...)] and the two comparisons the validator
    makes on its result. *)
Record float_ops : Type := mk_float_ops
  { float_t : Type;
    float_of_str : string -> option float_t;   (* [None]: ValueError *)
    float_of_int : Z -> option float_t;        (* [None]: OverflowError *)
    float_le_0 : float_t -> bool;              (* [x <= 0] *)
    float_gt_1000 : float_t -> bool }.         (* [x > 1000] *)

(** [float(v)] on a Python value. *)
Definition py_float (F : float_ops) (v : json) : outcome (float_t F) :=
  let of_opt (e : exn) (o : option (float_t F)) :=
    match o with Some x => Returned x | None => Raised e end in
  match v with
  | JStr s => of_opt ValueError (float_of_str F s)
  | JFloat r => of_opt ValueError (float_of_str F r)
  | JInt z => of_opt OverflowError (float_of_int F z)
  | JBool b => of_opt OverflowError (float_of_int F (if b then 1 else 0))
  | JNull | JArr _ | JObj _ => Raised TypeError
  end.

(** Truth value of a Python value, as [not data[field]] tests it. *)
Definition truthy (v : json) : bool :=
  match v with
  | JNull => false
  | JBool b => b
  | JInt z => negb (z =? 0)
  | JFloat r => negb (String.eqb r "0.0" || String.eqb r "-0.0")
  | JStr s => negb (Str.is_empty s)
  | JArr items => match items with [] => false | _ => true end
  | JObj entries => match entries with [] => false | _ => true end
  end.

(** [field in data and data[field]] *)
Definition present (data : dict json) (field : string) : bool :=
  match dict_get field data with
  | Some v => truthy v
  | None => false
  end.

Definition required_fields : list string :=
  ["shipper_name"; "recipient_name"; "package_weight"; "shipping_date"].

Definition add_warning (w : string) (r : report) : report :=
  mk_report (is_valid r) (missing_required r) (found_fields r)
    (warnings r ++ [w])%list.

(** One step of the loop over [required_fields]. *)
Definition check_required (data : dict json) (r : report) (field : string)
  : report :=
  if negb (present data field)
  then mk_report false (missing_required r ++ [field])%list
         (found_fields r) (warnings r)
  else r.

(** One step of the loop over [self.field_mappings.keys()]. *)
Definition check_found (data : dict json) (r : report) (field : string)
  : report :=
  if present data field
  then mk_report (is_valid r) (missing_required r)
         (found_fields r ++ [field])%list (warnings r)
  else r.

(** The [try] block about the weight; [ValueError] and [TypeError] are
    caught, any other exception leaves the function. *)
Definition weight_warnings (F : float_ops) (data : dict json) (r : report)
  : outcome report :=
  match dict_get "package_weight" data with
  | None => Returned r
  | Some v =>
      match py_float F v with
      | Returned weight =>
          if float_le_0 F weight
          then Returned
                 (add_warning "Package weight should be greater than 0" r)
          else if float_gt_1000 F weight
          then Returned (add_warning "Package weight seems unusually high" r)
          else Returned r
      | Raised ValueError | Raised TypeError =>
          Returned (add_warning "Package weight is not a valid number" r)
      | Raised e => Raised e
      end
  end.

(** The [try] block about the date; only [ValueError] is caught, and
    [strptime] raises [TypeError] on an argument that is not a string. *)
Definition date_warnings (now : Datetime.t) (data : dict json) (r : report)
  : outcome report :=
  match dict_get "shipping_date" data with
  | None => Returned r
  | Some (JStr s) =>
      match Datetime.strptime s "%Y-%m-%d" with
      | Some ship_date =>
          if Datetime.ltb ship_date now
          then Returned (add_warning "Shipping date is in the past" r)
          else Returned r
      | None => Returned (add_warning "Shipping date format is invalid" r)
      end
  | Some _ => Raised TypeError
  end.

Definition validate_parsed_data (F : float_ops) (now : Datetime.t)
    (data : dict json) : outcome report :=
  let validation_report := mk_report true [] [] [] in
  let validation_report :=
    fold_left (check_required data) required_fields validation_report in
  let validation_report :=
    fold_left (check_found data) (dict_keys _get_field_mappings)
      validation_report in
  match weight_warnings F data validation_report with
  | Raised e => Raised e
  | Returned validation_report => date_warnings now data validation_report
  end.


(* ------------------------------------------------------------------ *)
(** * The callers of the parser: file checks and the form workflow *)

(** ** The outside world *)

(** The answer of a call on the outside world (file system, [json.load],
    the browser agent): a value, or an exception with its text. *)
Inductive answer (A : Type) : Type :=
| Ans (a : A)
| Exc (text : string).
Arguments Ans {A} a.
Arguments Exc {A} text.

(** What the code asks about a [Path]: [str(p)], [p.suffix], [p.exists()],
    [p.is_file()], [p.stat().st_size], [os.access(p, os.R_OK)],
    [p.resolve()], and [json.load] on the opened file. *)
Record path : Type := mk_path
  { path_str : string;
    suffix : string;
    path_exists : answer bool;
    is_file : answer bool;
    st_size : answer Z;
    access_r : answer bool;
    resolved : answer string;
    load_json : answer json }.

(* ------------------------------------------------------------------ *)
(** ** [file_utils.py] *)

Module FileUtils.

Definition bind {A B : Type} (m : answer A) (k : A -> answer B) : answer B :=
  match m with
  | Ans a => k a
  | Exc e => Exc e
  end.

Notation "x <- m ;; k" := (bind m (fun x => k))
  (at level 61, m at next level, right associativity).

(** [try: ... except Exception as e: return handler(e)] *)
Definition try_except {A : Type} (body : answer A) (handler : string -> A)
  : A :=
  match body with
  | Ans a => a
  | Exc e => handler e
  end.

(** Supported file types and their maximum sizes (in bytes). *)
Definition SUPPORTED_TYPES : dict Z :=
  [ (".json", 1024 * 1024);
    (".pdf", 10 * 1024 * 1024);
    (".csv", 2 * 1024 * 1024);
    (".xml", 1024 * 1024);
    (".txt", 1024 * 1024) ].

Definition validate_file (file_path : path) : bool * string :=
  try_except
    (found <- path_exists file_path ;;
     if negb found
     then Ans (false, "File not found: " ++ path_str file_path)
     else
     regular <- is_file file_path ;;
     if negb regular
     then Ans (false, "Path is not a file: " ++ path_str file_path)
     else
     let extension := Str.lower (suffix file_path) in
     match dict_get extension SUPPORTED_TYPES with
     | None =>
         let supported := Str.join ", " (dict_keys SUPPORTED_TYPES) in
         Ans (false, "Unsupported file type: " ++ extension
                     ++ ". Supported: " ++ supported)
     | Some max_size =>
         file_size <- st_size file_path ;;
         if max_size <? file_size
         then Ans (false, "File too large: " ++ Str.of_Z file_size
                          ++ " bytes (max " ++ Str.of_Z max_size
                          ++ " bytes for " ++ extension ++ ")")
         else
         readable <- access_r file_path ;;
         if negb readable
         then Ans (false, "File is not readable: " ++ path_str file_path)
         else Ans (true, "File is valid")
     end)
    (fun e => (false, "Error validating file: " ++ e)).

End FileUtils.

(* ------------------------------------------------------------------ *)
(** ** [main.py] *)

Module NovaActAutomation.

(** The exceptions that leave the workflow's methods. *)
Inductive failure : Type :=
| NotFound (msg : string)     (* FileNotFoundError raised by the method *)
| Invalid (msg : string)      (* ValueError raised by the method *)
| Escaped (e : exn)           (* an exception of the validator *)
| Foreign (text : string).    (* an exception of the outside world *)

(** A method that acts on the browser: the state of the browser is
    threaded through; the method returns or raises. *)
Definition io (W A : Type) : Type := W -> W * (A + failure).

Definition ret {W A : Type} (a : A) : io W A := fun w => (w, inl a).

Definition raise {W A : Type} (e : failure) : io W A := fun w => (w, inr e).

Definition and_then {W A B : Type} (m : io W A) (k : io W B) : io W B :=
  fun w =>
    match m w with
    | (w', inl _) => k w'
    | (w', inr e) => (w', inr e)
    end.

Notation "m ;; k" := (and_then m k) (at level 61, right associativity).

(** [try: m except Exception: pass] (the handler only logs) *)
Definition try_pass {W : Type} (m : io W unit) : io W unit :=
  fun w => (fst (m w), inl tt).

(** The browser agent: [nova.act(prompt)], the file chooser
    [nova.page.locator(...).set_input_files(path)], and [time.sleep]
    during which the page goes on running. *)
Record agent (W : Type) : Type := mk_agent
  { act : string -> W -> W * answer unit;
    set_input_files : string -> W -> W * answer unit;
    sleep : Z -> W -> W }.
Arguments act {W} a prompt w.
Arguments set_input_files {W} a file w.
Arguments sleep {W} a seconds w.

(** A call on the agent inside a method. *)
Definition call {W A : Type} (c : W -> W * answer A) : io W A :=
  fun w =>
    match c w with
    | (w', Ans a) => (w', inl a)
    | (w', Exc e) => (w', inr (Foreign e))
    end.

(** [_load_shipment_data]; [parse_json_file] checks the file again,
    opens it and hands the loaded value to [parse_json_data]; both
    handlers log and raise again.  [now] and [now'] are the two readings of
    the clock, by the parser and by the validator. *)
Definition parse_json_file (now : Datetime.t) (file_path : path)
  : dict json + failure :=
  match path_exists file_path with
  | Exc e => inr (Foreign e)
  | Ans false => inr (NotFound ("JSON file not found: " ++ path_str file_path))
  | Ans true =>
      match load_json file_path with
      | Exc e => inr (Foreign e)
      | Ans raw_data => inl (parse_json_data now raw_data)
      end
  end.

Definition _load_shipment_data (F : float_ops) (now now' : Datetime.t)
    (data_file : path) : dict json + failure :=
  match path_exists data_file with
  | Exc e => inr (Foreign e)
  | Ans false => inr (NotFound ("Data file not found: " ++ path_str data_file))
  | Ans true =>
      match parse_json_file now data_file with
      | inr e => inr e
      | inl parsed_data =>
          match validate_parsed_data F now' parsed_data with
          | Raised e => inr (Escaped e)
          | Returned validation_report => inl parsed_data
          end
      end
  end.

(** One statement of [fill_shipment_form]:
    [if data.get(field): nova.act(f"Enter '{data[field]}<rest>")]. *)
Definition enter {W : Type} (nova : agent W) (data : dict json)
    (field rest : string) : io W unit :=
  match dict_get field data with
  | Some v =>
      if truthy v then call (act nova ("Enter '" ++ PyStr.str v ++ rest))
      else ret tt
  | None => ret tt
  end.

Definition fill_shipment_form {W : Type} (nova : agent W)
    (data : dict json) : io W unit :=
  enter nova data "shipper_name" "' in the shipper name field" ;;
  enter nova data "shipper_address" "' in the shipper address field" ;;
  enter nova data "recipient_name" "' in the recipient name field" ;;
  enter nova data "recipient_address" "' in the recipient address field" ;;
  enter nova data "package_weight" "' in the package weight field" ;;
  enter nova data "package_dimensions" "' in the package dimensions field" ;;
  enter nova data "tracking_number" "' in the tracking number field" ;;
  enter nova data "shipping_date" "' in the shipping date field" ;;
  enter nova data "special_instructions"
    "' in the special instructions field" ;;
  ret tt.

(** The value of [validate_file]'s pair, for [not ...]: a tuple is a
    sequence, true unless it is empty. *)
Definition tuple (r : bool * string) : json :=
  JArr [JBool (fst r); JStr (snd r)].

Definition upload_json_and_autofill {W : Type} (nova : agent W)
    (upload_file : path) : io W unit :=
  match path_exists upload_file with
  | Exc e => raise (Foreign e)
  | Ans false =>
      raise (NotFound ("Upload file not found: " ++ path_str upload_file))
  | Ans true =>
      if negb (truthy (tuple (FileUtils.validate_file upload_file)))
      then raise (Invalid ("File validation failed: "
                           ++ path_str upload_file))
      else
        match resolved upload_file with
        | Exc e => raise (Foreign e)
        | Ans absolute_path =>
            call (act nova "Locate the file upload input field on the form") ;;
            call (set_input_files nova absolute_path) ;;
            (fun w => (sleep nova 5 w, inl tt)) ;;
            try_pass
              (call (act nova "Check if any form fields have been populated or if the file upload field shows a filename"))
        end
  end.

End NovaActAutomation.
(* ================================================================== *)
(** * Specification vocabulary *)

(* ------------------------------------------------------------------ *)
(** ** Flattened documents *)

(** Null, Boolean, Number or String. *)
Definition is_scalar (v : json) : bool :=
  match v with
  | JArr _ | JObj _ => false
  | _ => true
  end.

(** What the flattener stores: a scalar, or an array that is empty or whose
    first element is not an object. *)
Definition is_leaf (v : json) : bool :=
  match v with
  | JObj _ => false
  | JArr (JObj _ :: _) => false
  | _ => true
  end.

Definition leaves_only (d : dict json) : Prop :=
  Forall (fun kv => is_leaf (snd kv) = true) d.


(* ------------------------------------------------------------------ *)
(** ** Alias resolution *)

(** A well-formed [dict]: the keys are pairwise distinct. *)
Definition wf_dict {V : Type} (d : dict V) : Prop := NoDup (dict_keys d).

(** [p] occurs in [s]. *)
Definition substring (p s : string) : Prop :=
  exists before after, s = before ++ p ++ after.

(** Equality of two keys up to case. *)
Definition same_key_ci (a k : string) : Prop := Str.lower k = Str.lower a.

(** The alias is contained in the document key, or the document key in
    the alias, both up to case. *)
Definition substring_either (a k : string) : Prop :=
  substring (Str.lower a) (Str.lower k)
  \/ substring (Str.lower k) (Str.lower a).

(** Pass 1 finds nothing for any alias of the list. *)
Definition no_exact_hit (data : dict json) (aliases : list string) : Prop :=
  forall a, In a aliases -> ~ In a (dict_keys data).

(** Pass 2 finds nothing for any alias of the list. *)
Definition no_ci_hit (data : dict json) (aliases : list string) : Prop :=
  forall a k, In a aliases -> In k (dict_keys data) -> ~ same_key_ci a k.

(** Pass 3 finds nothing for any alias of the list. *)
Definition no_substring_hit (data : dict json) (aliases : list string)
  : Prop :=
  forall a k, In a aliases -> In k (dict_keys data) -> ~ substring_either a k.

(* ------------------------------------------------------------------ *)
(** ** Canonical records *)

(** The nine canonical field names, in table order. *)
Definition canonical_fields : list string := dict_keys _get_field_mappings.

(** The alias list of a canonical field. *)
Definition aliases_of (field : string) : list string :=
  match dict_get field _get_field_mappings with
  | Some aliases => aliases
  | None => []
  end.

(** What alias resolution returns for a field of a document. *)
Definition resolve (data : json) (field : string) : json :=
  _find_value_by_keys (flatten data) (aliases_of field).

(** The wall clock of the examples. *)
Definition example_now : Datetime.t := Datetime.mk 2024 1 10 9 30 0 0.

(* ------------------------------------------------------------------ *)
(** ** Example documents *)

(** Two keys that differ only by case. *)
Definition two_case_doc : dict json :=
  [("Weight", JStr "1 kg"); ("WEIGHT", JStr "2 kg")].

(** A field whose key holds [None]. *)
Definition null_name_doc : json :=
  JObj [("shipper_name", JNull); ("weight", JInt 3)].

(** A list of scalars under a key. *)
Definition tags_doc : json :=
  JObj [("tags", JArr [JStr "fragile"; JStr "glass"])].

(** A top-level list of objects. *)
Definition top_level_list : json :=
  JArr [JObj [("shipper_name", JStr "ABC Corp")]].

(* ------------------------------------------------------------------ *)
(** ** Numeric tokens *)

(** Every character of [s] satisfies [p]. *)
Fixpoint all_chars (p : ascii -> bool) (s : string) : bool :=
  match s with
  | EmptyString => true
  | String c s' => p c && all_chars p s'
  end.

(** [s] is empty or its first character fails [p]. *)
Definition not_headed_by (p : ascii -> bool) (s : string) : bool :=
  match s with
  | EmptyString => true
  | String c _ => negb (p c)
  end.

Definition is_point (c : ascii) : bool := Ascii.eqb c ".".

Definition is_zero (c : ascii) : bool := Ascii.eqb c "0".

Definition no_digit (s : string) : bool :=
  all_chars (fun c => negb (Str.is_digit c)) s.

(** The token pattern in the words of the specification: optional digits,
    an optional decimal point, optional digits, read greedily at the head
    of [s]. *)
Definition spec_token_here (s : string) : string :=
  let (ds, rest) := span_digits s in
  match rest with
  | String "." rest' => ds ++ "." ++ fst (span_digits rest')
  | _ => ds
  end.

(** The first token of that pattern found in [s]. *)
Fixpoint spec_first_token (s : string) : option string :=
  match spec_token_here s with
  | EmptyString =>
      match s with
      | EmptyString => None
      | String _ s' => spec_first_token s'
      end
  | t => Some t
  end.

(** The nested sample document of [get_sample_json_formats]. *)
Definition nested_doc : json :=
  JObj [("shipment", JObj
    [ ("sender", JObj [ ("name", JStr "ABC Corp");
                        ("address", JStr "123 Main St | New York, NY 10001") ]);
      ("receiver", JObj [ ("name", JStr "XYZ Ltd");
                          ("address",
                            JStr "456 Oak Ave | Los Angeles, CA 90001") ]);
      ("package", JObj [ ("weight", JStr "25.3 lbs");
                         ("dimensions", JStr "12x8x6 inches");
                         ("reference", JStr "REF123456") ]);
      ("schedule", JObj [ ("pickup_date", JStr "2024-01-20");
                          ("notes", JStr "Fragile - handle with care") ]) ])].

(** Documents of the examples. *)
Definition weight_doc : json := JObj [("weight", JStr "25.3 lbs")].
Definition dispatch_doc : json := JObj [("dispatch_date", JStr "01/25/2024")].

(* ------------------------------------------------------------------ *)
(** ** Dates *)

(** The shape YYYY-MM-DD: ten characters, digits but for the two dashes. *)
Definition is_ymd (s : string) : bool :=
  match s with
  | String y1 (String y2 (String y3 (String y4 (String a
      (String m1 (String m2 (String b
        (String d1 (String d2 EmptyString))))))))) =>
      forallb Str.is_digit [y1; y2; y3; y4; m1; m2; d1; d2]
      && Ascii.eqb a "-" && Ascii.eqb b "-"
  | _ => false
  end.

(** Exactly [n] characters, all digits. *)
Definition digits_n (n : nat) (s : string) : bool :=
  (String.length s =? n)%nat && all_chars Str.is_digit s.

(** A calendar date: midnight of a valid day. *)
Definition date (y m d : Z) : Datetime.t := Datetime.mk y m d 0 0 0 0.

(** The integers [lo], [lo + 1], ..., [lo + n - 1]. *)
Fixpoint Z_range_from (n : nat) (lo : Z) : list Z :=
  match n with
  | O => []
  | S k => lo :: Z_range_from k (lo + 1)
  end.

Definition Z_range (lo n : Z) : list Z := Z_range_from (Z.to_nat n) lo.

(** The expression of the format [%Y-%m-%d] after its year group. *)
Definition ymd_tail : Re.t :=
  match Datetime.pattern false "-%m-%d" with
  | Some r => r
  | None => Re.Eps
  end.

(** The year group. *)
Definition year_group : Re.t :=
  Re.Group "Y"
    (Re.Seq Re.digit (Re.Seq Re.digit (Re.Seq Re.digit Re.digit))).

(* ------------------------------------------------------------------ *)
(** ** Validation *)

(** A canonical record: every canonical field it has holds a string. *)
Definition canonical_record (data : dict json) : Prop :=
  forall field v,
    In field canonical_fields -> dict_get field data = Some v ->
    exists s, v = JStr s.

(** The record has the field, with a value that is not empty. *)
Definition has_value (data : dict json) (field : string) : Prop :=
  exists s, dict_get field data = Some (JStr s) /\ s <> "".

(** An instance of [float_ops] for the examples: plain decimal literals
    (sign, digits, point, digits) read exactly as [mantissa / 10^scale].
    The other spellings [float] accepts are outside this instance. *)
Module DecimalFloat.

Definition t : Type := (Z * nat)%type.

Definition unsigned (s : string) : option t :=
  let (ds, rest) := span_digits s in
  match rest with
  | EmptyString =>
      if Str.is_empty ds then None else Some (Datetime.int_of ds, O)
  | String "." rest' =>
      let (fs, rest'') := span_digits rest' in
      if Str.is_empty rest'' && negb (Str.is_empty (ds ++ fs))
      then Some (Datetime.int_of (ds ++ fs), String.length fs)
      else None
  | _ => None
  end.

Definition of_str (s : string) : option t :=
  match Str.strip s with
  | String "-" s' =>
      option_map (fun x => (- fst x, snd x)) (unsigned s')
  | String "+" s' => unsigned s'
  | s' => unsigned s'
  end.

Definition ops : float_ops :=
  mk_float_ops t of_str (fun z => Some (z, O))
    (fun x => fst x <=? 0)
    (fun x => 1000 * 10 ^ Z.of_nat (snd x) <? fst x).

End DecimalFloat.

(** The three lists a warning step leaves alone. *)
Definition same_findings (r r' : report) : Prop :=
  is_valid r' = is_valid r
  /\ missing_required r' = missing_required r
  /\ found_fields r' = found_fields r.

(** A record of the examples. *)
Definition undated_record : dict json :=
  [ ("shipper_name", JStr "ABC Corp"); ("recipient_name", JStr "");
    ("package_weight", JStr "heavy"); ("tracking_number", JStr "REF1") ].

(* ------------------------------------------------------------------ *)
(** ** Canonical values *)

(** No white space at either end. *)
Definition trimmed (s : string) : Prop := Str.strip s = s.

(** A bare numeric token: digits, or digits, a point and digits. *)
Definition canonical_weight (s : string) : Prop :=
  exists ds fs,
    ds <> "" /\ all_chars Str.is_digit ds = true
    /\ all_chars Str.is_digit fs = true
    /\ (s = ds \/ s = ds ++ "." ++ fs).

(** A date in the shape YYYY-MM-DD whose year does not begin with 0. *)
Definition canonical_date (s : string) : Prop :=
  is_ymd s && not_headed_by is_zero s = true.

Definition is_separator (c : ascii) : bool :=
  Ascii.eqb c newline || Ascii.eqb c "|" || Ascii.eqb c ";".

(** One line of an address: not empty, trimmed, free of separators. *)
Definition address_line (l : string) : Prop :=
  l <> "" /\ trimmed l /\ all_chars (fun c => negb (is_separator c)) l = true.

(** Address lines joined by line breaks. *)
Definition canonical_address (s : string) : Prop :=
  exists lines,
    Forall address_line lines
    /\ s = Str.join (String newline EmptyString) lines.

(** The canonical form of the value of a field. *)
Definition canonical_value (field s : string) : Prop :=
  if String.eqb field "package_weight" then canonical_weight s
  else if String.eqb field "shipping_date" then canonical_date s
  else if String.eqb field "shipper_address"
          || String.eqb field "recipient_address" then canonical_address s
  else trimmed s.

(** In canonical form: one of the shapes above, or any value the normaliser
    of the field produces. *)
Definition in_canonical_form (field s : string) : Prop :=
  canonical_value field s \/ exists raw, s = _normalize_value field raw.

(** A flat document made of the nine canonical fields, in canonical form. *)
Definition canonical_doc : dict json :=
  [ ("shipper_name", JStr "Global Shipping Solutions Inc.");
    ("shipper_address",
      JStr ("1234 Industrial Blvd" ++ String newline "Seattle, WA 98101"));
    ("recipient_name", JStr "Pacific Coast Logistics");
    ("recipient_address",
      JStr ("567 Harbor View Drive"
              ++ String newline "San Francisco, CA 94111"));
    ("package_weight", JStr "45.5");
    ("package_dimensions", JStr "24x18x12");
    ("tracking_number", JStr "GS2024010001");
    ("shipping_date", JStr "2024-01-15");
    ("special_instructions", JStr "Handle with care - fragile electronics") ].

(** A flat document: every value is a string. *)
Definition flat_strings (entries : dict json) : Prop :=
  forall k v, In (k, v) entries -> exists s, v = JStr s.

(* ------------------------------------------------------------------ *)
(** ** Strings of the shape YYYY-MM-DD *)

Definition digit_chars : list ascii :=
  ["0"; "1"; "2"; "3"; "4"; "5"; "6"; "7"; "8"; "9"]%char.

(** A property of four digits holds for all of them. *)
Definition forall4 (p : ascii -> ascii -> ascii -> ascii -> bool) : bool :=
  forallb (fun a => forallb (fun b => forallb (fun c =>
    forallb (fun d => p a b c d) digit_chars) digit_chars) digit_chars)
    digit_chars.

Definition str2 (a b : ascii) : string := String a (String b EmptyString).

Definition str4 (a b c d : ascii) : string :=
  String a (String b (String c (String d EmptyString))).

(** The text after the year: a dash, two digits, a dash, two digits. *)
Definition md_tail (a b c d : ascii) : string :=
  String "-" (str2 a b ++ String "-" (str2 c d)).

(** What follows the year group in the formats that begin with [%Y]. *)
Definition tail_of (format_tail : string) : Re.t :=
  match Datetime.pattern false format_tail with
  | Some r => r
  | None => Re.Eps
  end.

Definition is_nil {A : Type} (l : list A) : bool :=
  match l with [] => true | _ => false end.

(** On such a text the formats with a time part, and the one with
    slashes, do not match at all. *)
Definition check_no_match (a b c d : ascii) : bool :=
  forallb (fun ft => is_nil (Re.run (tail_of ft) (md_tail a b c d) []))
    ["/%m/%d"; "-%m-%d %H:%M:%S"; "-%m-%dT%H:%M:%S"; "-%m-%dT%H:%M:%S.%f"].

(** On such a text the first match of [-%m-%d], when it exists and reaches
    the end, reads the two pairs of digits as they stand. *)
Definition check_md (a b c d : ascii) : bool :=
  match Re.run ymd_tail (md_tail a b c d) [] with
  | [] => true
  | (caps, EmptyString) :: _ =>
      match caps with
      | [(n1, t1); (n2, t2)] =>
          Ascii.eqb n1 "d" && Ascii.eqb n2 "m"
          && String.eqb t1 (str2 c d) && String.eqb t2 (str2 a b)
          && String.eqb (Datetime.pad 2 (Datetime.int_of t1)) t1
          && String.eqb (Datetime.pad 2 (Datetime.int_of t2)) t2
      | _ => false
      end
  | (_, String _ _) :: _ => true
  end.

(** Four digits are the padded form of the year they denote. *)
Definition check_year (a b c d : ascii) : bool :=
  String.eqb (Datetime.pad 4 (Datetime.int_of (str4 a b c d))) (str4 a b c d).

(** Four digits that do not begin with 0 are the decimal text of the year
    they denote. *)
Definition check_lead (a b c d : ascii) : bool :=
  is_zero a
  || String.eqb (Str.of_Z (Datetime.int_of (str4 a b c d))) (str4 a b c d).

(** The decimal text of a year below 1000: one to three digits. *)
Definition short_year (s : string) : bool :=
  negb (Str.is_empty s) && (String.length s <=? 3)%nat
  && all_chars Str.is_digit s.

(** A text that is not empty and does not begin with 0. *)
Definition leads (s : string) : bool :=
  negb (Str.is_empty s) && not_headed_by is_zero s.

(** The document [canonical_doc] with a shipping date in the year 999. *)
Definition early_doc : dict json :=
  dict_set "shipping_date" (JStr "0999-01-15") canonical_doc.


(* ================================================================== *)
(** * Further vocabulary *)

(* ------------------------------------------------------------------ *)
(** ** The depth-first listing of a document *)

(** The leaves of a value with their dotted paths, in traversal order and
    with repetitions: an object contributes the leaves of its entries, a
    list that starts with an object contributes the leaves of that first
    element, any other value is a leaf. *)
Fixpoint leaf_paths (data : json) (parent_key separator : string)
  {struct data} : list (string * json) :=
  match data with
  | JObj entries =>
      (fix loop (es : list (string * json)) : list (string * json) :=
         match es with
         | [] => []
         | (key, value) :: rest =>
             let nk := new_key parent_key separator key in
             ((match value with
               | JObj _ => leaf_paths value nk separator
               | JArr (first :: _) =>
                   match first with
                   | JObj _ => leaf_paths first nk separator
                   | _ => [(nk, value)]
                   end
               | _ => [(nk, value)]
               end) ++ loop rest)%list
         end) entries
  | _ => []
  end.

(** Writing the pairs of [items] into [d], one after the other. *)
Definition write_all {V : Type} (d : dict V) (items : list (string * V))
  : dict V :=
  fold_left (fun d kv => dict_set (fst kv) (snd kv) d) items d.

(** What one entry of an object contributes to the list [items] of
    [_flatten_json]. *)
Definition flatten_entry (parent_key separator : string)
    (entry : string * json) : list (string * json) :=
  let nk := new_key parent_key separator (fst entry) in
  match snd entry with
  | JObj _ => _flatten_json (snd entry) nk separator
  | JArr (first :: _) =>
      match first with
      | JObj _ => _flatten_json first nk separator
      | _ => [(nk, snd entry)]
      end
  | _ => [(nk, snd entry)]
  end.

(** What one entry contributes to the depth-first listing. *)
Definition leaf_entry (parent_key separator : string)
    (entry : string * json) : list (string * json) :=
  let nk := new_key parent_key separator (fst entry) in
  match snd entry with
  | JObj _ => leaf_paths (snd entry) nk separator
  | JArr (first :: _) =>
      match first with
      | JObj _ => leaf_paths first nk separator
      | _ => [(nk, snd entry)]
      end
  | _ => [(nk, snd entry)]
  end.

(** A document in which one dotted path occurs twice. *)
Definition collision_doc : json :=
  JObj [("a", JObj [("b", JInt 1)]); ("c", JInt 0); ("a.b", JInt 2)].

(* ------------------------------------------------------------------ *)
(** ** The alias table *)

Fixpoint nodup_strings (l : list string) : bool :=
  match l with
  | [] => true
  | x :: rest =>
      negb (existsb (String.eqb x) rest) && nodup_strings rest
  end.

(** The checks on one row of the table: the aliases start with the field
    name, are pairwise distinct and are in lower case. *)
Definition row_ok (row : string * list string) : bool :=
  match snd row with
  | [] => false
  | first :: _ => String.eqb first (fst row)
  end
  && nodup_strings (snd row)
  && forallb (fun a => String.eqb (Str.lower a) a) (snd row).

(** All the aliases of the table, field after field. *)
Definition all_aliases : list string := flat_map snd _get_field_mappings.

(* ------------------------------------------------------------------ *)
(** ** Reading a canonical date back *)

(** The text after the year of a canonical date matches [ymd_tail] first
    as a two-digit month and a two-digit day, and these read back as the
    numbers they were written from. *)
Definition tail_check (m d : Z) : bool :=
  match Re.run ymd_tail
          ("-" ++ Datetime.pad 2 m ++ "-" ++ Datetime.pad 2 d) [] with
  | ([(n1, t1); (n2, t2)], EmptyString) :: _ =>
      Ascii.eqb n1 "d" && String.eqb t1 (Datetime.pad 2 d)
      && Ascii.eqb n2 "m" && String.eqb t2 (Datetime.pad 2 m)
      && (Datetime.int_of t1 =? d) && (Datetime.int_of t2 =? m)
  | _ => false
  end.

(** The date of a datetime, at midnight. *)
Definition date_of (dt : Datetime.t) : Datetime.t :=
  date (Datetime.year dt) (Datetime.month dt) (Datetime.day dt).

(* ------------------------------------------------------------------ *)
(** ** Warnings *)

(** The warning about the weight of a record, if any. *)
Definition weight_warning (F : float_ops) (data : dict json) : list string :=
  match dict_get "package_weight" data with
  | Some (JStr s) =>
      match float_of_str F s with
      | Some x =>
          if float_le_0 F x then ["Package weight should be greater than 0"]
          else if float_gt_1000 F x
          then ["Package weight seems unusually high"]
          else []
      | None => ["Package weight is not a valid number"]
      end
  | _ => []
  end.

(** The warning about the date of a record, if any. *)
Definition date_warning (now : Datetime.t) (data : dict json) : list string :=
  match dict_get "shipping_date" data with
  | Some (JStr s) =>
      match Datetime.strptime s "%Y-%m-%d" with
      | Some ship_date =>
          if Datetime.ltb ship_date now
          then ["Shipping date is in the past"] else []
      | None => ["Shipping date format is invalid"]
      end
  | _ => []
  end.

(** The values of the examples that are not canonical records. *)
Definition numeric_date_record : dict json :=
  [ ("shipper_name", JStr "ABC Corp"); ("shipping_date", JInt 20240115) ].

(* ------------------------------------------------------------------ *)
(** ** The fields of a record *)

(** The canonical fields of the record of a document: the fields whose
    resolution is not [None], in table order, with their normalised
    values. *)
Definition record_fields (data : json) : dict json :=
  map (fun f => (f, JStr (_normalize_value f (resolve data f))))
    (filter (fun f => is_not_none (resolve data f)) canonical_fields).

(** The field resolves to a value that normalises to a text that is not
    empty. *)
Definition filledb (data : json) (field : string) : bool :=
  is_not_none (resolve data field)
  && negb (Str.is_empty (_normalize_value field (resolve data field))).

(** The same for the entries of any table. *)
Definition entries_of (flattened : dict json) (table : dict (list string))
  : dict json :=
  map (fun e => (fst e, JStr (_normalize_value (fst e)
                                (_find_value_by_keys flattened (snd e)))))
    (filter (fun e => is_not_none (_find_value_by_keys flattened (snd e)))
       table).

(** An object that holds nothing but empty objects. *)
Definition hollow_doc : json := JObj [("shipment", JObj [("sender", JObj [])])].

(** A record dated on the day of [example_now]. *)
Definition today_record : dict json :=
  [ ("shipper_name", JStr "ABC Corp"); ("shipping_date", JStr "2024-01-10") ].

(* ------------------------------------------------------------------ *)
(** ** The form workflow *)

(** The prompt that types the value of a canonical field of a document into
    the form: the normalised value between quotes, and the name of the
    field with its underscores read as spaces. *)
Definition form_prompt (data : json) (field : string) : string :=
  "Enter '" ++ _normalize_value field (resolve data field) ++ "' in the "
  ++ Str.replace_char "_" " " field ++ " field".

(** The prompts of a list given to the agent one after the other, up to the
    first call that raises. *)
Fixpoint act_all {W : Type} (nova : NovaActAutomation.agent W)
    (prompts : list string) : NovaActAutomation.io W unit :=
  match prompts with
  | [] => NovaActAutomation.ret tt
  | p :: rest =>
      NovaActAutomation.and_then
        (NovaActAutomation.call (NovaActAutomation.act nova p))
        (act_all nova rest)
  end.

(** The statements of [fill_shipment_form] as a table: the field and the
    rest of its prompt. *)
Definition form_fields : list (string * string) :=
  [ ("shipper_name", "' in the shipper name field");
    ("shipper_address", "' in the shipper address field");
    ("recipient_name", "' in the recipient name field");
    ("recipient_address", "' in the recipient address field");
    ("package_weight", "' in the package weight field");
    ("package_dimensions", "' in the package dimensions field");
    ("tracking_number", "' in the tracking number field");
    ("shipping_date", "' in the shipping date field");
    ("special_instructions", "' in the special instructions field") ].

Fixpoint enter_all {W : Type} (nova : NovaActAutomation.agent W)
    (data : dict json) (table : list (string * string))
  : NovaActAutomation.io W unit :=
  match table with
  | [] => NovaActAutomation.ret tt
  | (field, rest) :: table' =>
      NovaActAutomation.and_then (NovaActAutomation.enter nova data field rest)
        (enter_all nova data table')
  end.

(** An agent that only records the prompts it is given; it never raises. *)
Definition recorder : NovaActAutomation.agent (list string) :=
  NovaActAutomation.mk_agent (list string)
    (fun prompt w => ((w ++ [prompt])%list, Ans tt))
    (fun file w => ((w ++ [file])%list, Ans tt))
    (fun _ w => w).

(** Example paths: a JSON file of exactly one mebibyte under an upper-case
    extension, and an executable of two bytes. *)
Definition big_json_path : path :=
  mk_path "data/SHIPMENT.JSON" ".JSON" (Ans true) (Ans true) (Ans 1048576)
    (Ans true) (Ans "/srv/data/SHIPMENT.JSON") (Ans weight_doc).

Definition exe_path : path :=
  mk_path "data/run.exe" ".exe" (Ans true) (Ans true) (Ans 2)
    (Ans true) (Ans "/srv/data/run.exe") (Exc "Expecting value").
(* ================================================================== *)
(** * Properties *)

(* ------------------------------------------------------------------ *)
(** ** Dictionaries *)

Section DictFacts.
Context {V : Type}.
Implicit Types (d : dict V) (k : string) (v : V).

Lemma dict_set_In d k v k' v' :
  In (k', v') (dict_set k v d) -> In (k', v') d \/ (k', v') = (k, v).
Proof.
  induction d as [|[k0 w] d IH]; simpl.
  - intros [H|[]]. right. now symmetry.
  - destruct (String.eqb k k0) eqn:E.
    + apply String.eqb_eq in E. subst k0.
      intros [H|H]; [right; now symmetry | left; now right].
    + intros [H|H]; [left; now left|].
      destruct (IH H) as [H'|H']; [left; now right | now right].
Qed.

Lemma fold_dict_set_In (items : list (string * V)) d k v :
  In (k, v) (fold_left (fun d kv => dict_set (fst kv) (snd kv) d) items d) ->
  In (k, v) d \/ In (k, v) items.
Proof.
  revert d. induction items as [|[k0 v0] items IH]; simpl; intros d H.
  - now left.
  - destruct (IH _ H) as [H'|H']; [|right; now right].
    destruct (dict_set_In _ _ _ _ _ H') as [H''|H'']; [now left|].
    right. left. now symmetry.
Qed.

Lemma dict_of_items_In (items : list (string * V)) k v :
  In (k, v) (dict_of_items items) -> In (k, v) items.
Proof.
  intros H. destruct (fold_dict_set_In _ _ _ _ H) as [[]|H']. exact H'.
Qed.

Lemma dict_get_mem k d :
  dict_mem k d = match dict_get k d with Some _ => true | None => false end.
Proof.
  induction d as [|[k0 w] d IH]; simpl; [reflexivity|].
  destruct (String.eqb k k0); simpl; [reflexivity | exact IH].
Qed.

Lemma dict_get_In k v d : dict_get k d = Some v -> In (k, v) d.
Proof.
  induction d as [|[k0 w] d IH]; simpl; [discriminate|].
  destruct (String.eqb k k0) eqn:E.
  - apply String.eqb_eq in E. subst. intros [= ->]. now left.
  - intros H. right. now apply IH.
Qed.

Lemma dict_get_None k d :
  dict_get k d = None <-> ~ In k (dict_keys d).
Proof.
  induction d as [|[k0 w] d IH]; simpl.
  - split; [intros _ [] | reflexivity].
  - destruct (String.eqb k k0) eqn:E.
    + apply String.eqb_eq in E. subst.
      split; [discriminate | intros H; exfalso; apply H; now left].
    + apply String.eqb_neq in E. rewrite IH. split.
      * intros H [H'|H']; [now apply E | now apply H].
      * intros H H'. apply H. now right.
Qed.

Lemma dict_get_set_same k v d : dict_get k (dict_set k v d) = Some v.
Proof.
  induction d as [|[k0 w] d IH]; simpl.
  - now rewrite String.eqb_refl.
  - destruct (String.eqb k k0) eqn:E; simpl; rewrite E; [reflexivity|exact IH].
Qed.

Lemma dict_get_set_other k k' v d :
  k <> k' -> dict_get k' (dict_set k v d) = dict_get k' d.
Proof.
  intros Hne. induction d as [|[k0 w] d IH]; simpl.
  - destruct (String.eqb k' k) eqn:E; [|reflexivity].
    apply String.eqb_eq in E. now subst.
  - destruct (String.eqb k k0) eqn:E; simpl.
    + apply String.eqb_eq in E. subst k0.
      destruct (String.eqb k' k) eqn:E'; [|reflexivity].
      apply String.eqb_eq in E'. now subst.
    + now rewrite IH.
Qed.

End DictFacts.

(* ------------------------------------------------------------------ *)
(** ** Induction over Python values *)

Section JsonInd.
Variable P : json -> Prop.
Hypothesis HNull : P JNull.
Hypothesis HBool : forall b, P (JBool b).
Hypothesis HInt : forall z, P (JInt z).
Hypothesis HFloat : forall r, P (JFloat r).
Hypothesis HStr : forall s, P (JStr s).
Hypothesis HArr : forall items, Forall P items -> P (JArr items).
Hypothesis HObj :
  forall entries, Forall (fun kv => P (snd kv)) entries -> P (JObj entries).

Fixpoint json_nested_ind (v : json) : P v :=
  match v with
  | JNull => HNull
  | JBool b => HBool b
  | JInt z => HInt z
  | JFloat r => HFloat r
  | JStr s => HStr s
  | JArr items =>
      HArr items
        ((fix all (l : list json) : Forall P l :=
            match l with
            | [] => Forall_nil _
            | x :: l' => Forall_cons _ (json_nested_ind x) (all l')
            end) items)
  | JObj entries =>
      HObj entries
        ((fix all (l : list (string * json))
            : Forall (fun kv => P (snd kv)) l :=
            match l with
            | [] => Forall_nil _
            | kv :: l' => Forall_cons _ (json_nested_ind (snd kv)) (all l')
            end) entries)
  end.
End JsonInd.

(* ------------------------------------------------------------------ *)
(** ** The flattener *)

Lemma flatten_non_object data parent_key separator :
  (forall entries, data <> JObj entries) ->
  _flatten_json data parent_key separator = [].
Proof.
  destruct data; intros H; try reflexivity. now elim (H entries).
Qed.

Lemma flatten_leaves_strong data :
  (forall parent_key separator,
      leaves_only (_flatten_json data parent_key separator))
  /\ match data with
     | JArr (first :: _) =>
         forall parent_key separator,
           leaves_only (_flatten_json first parent_key separator)
     | _ => True
     end.
Proof.
  induction data using json_nested_ind;
    try (split; [intros; apply Forall_nil | exact I]).
  - (* array *)
    split; [intros; apply Forall_nil|].
    destruct items as [|first rest]; [exact I|].
    inversion H as [|? ? [Hfirst _] _]. exact Hfirst.
  - (* object *)
    split; [|exact I]. intros parent_key separator.
    apply Forall_forall. intros [k v] Hin. simpl in Hin.
    apply dict_of_items_In in Hin. revert Hin.
    induction entries as [|[key value] entries IH]; simpl; [intros []|].
    inversion H as [|? ? [Hv Hv'] Hrest]; subst. simpl in Hv, Hv'.
    intros Hin. apply in_app_or in Hin. destruct Hin as [Hin|Hin];
      [|exact (IH Hrest Hin)].
    clear IH Hrest H.
    pose proof (fun p s => proj1 (Forall_forall _ _) (Hv p s) (k, v)) as Hv1.
    destruct value as [| | | | |items|es]; simpl in Hin;
      try (destruct Hin as [[= <- <-]|[]]; reflexivity).
    + destruct items as [|first rest].
      * destruct Hin as [[= <- <-]|[]]; reflexivity.
      * pose proof (fun p s => proj1 (Forall_forall _ _) (Hv' p s) (k, v))
          as Hf.
        destruct first; simpl in Hin;
          try (destruct Hin as [[= <- <-]|[]]; reflexivity).
        exact (Hf _ _ Hin).
    + exact (Hv1 _ _ Hin).
Qed.

(* ------------------------------------------------------------------ *)
(** ** Loops with early return *)

Section ForReturn.
Context {A R : Type}.
Implicit Types (xs : list A) (body : A -> option R).

Lemma for_return_first xs body before x after r :
  xs = (before ++ x :: after)%list ->
  (forall y, In y before -> body y = None) ->
  body x = Some r ->
  for_return xs body = Some r.
Proof.
  intros -> Hnone Hx. induction before as [|y before IH]; simpl.
  - now rewrite Hx.
  - rewrite (Hnone y (or_introl eq_refl)). apply IH.
    intros z Hz. apply Hnone. now right.
Qed.

Lemma for_return_none xs body :
  (forall y, In y xs -> body y = None) -> for_return xs body = None.
Proof.
  induction xs as [|y xs IH]; simpl; intros H; [reflexivity|].
  rewrite (H y (or_introl eq_refl)). apply IH.
  intros z Hz. apply H. now right.
Qed.

Lemma for_return_some xs body r :
  for_return xs body = Some r ->
  exists before x after,
    xs = (before ++ x :: after)%list
    /\ (forall y, In y before -> body y = None)
    /\ body x = Some r.
Proof.
  induction xs as [|y xs IH]; simpl; [discriminate|].
  destruct (body y) as [r'|] eqn:E.
  - intros [= ->]. exists [], y, xs. repeat split; trivial. intros ? [].
  - intros H. destruct (IH H) as (before & x & after & -> & Hn & Hx).
    exists (y :: before), x, after. repeat split; trivial.
    intros z [<-|Hz]; [exact E | now apply Hn].
Qed.

End ForReturn.

(* ------------------------------------------------------------------ *)
(** ** Strings *)

Lemma starts_with_spec p s :
  Str.starts_with p s = true <-> exists after, s = p ++ after.
Proof.
  revert s. induction p as [|a p IH]; intros s; simpl.
  - split; [intros _; now exists s | reflexivity].
  - destruct s as [|b s].
    + split; [discriminate | intros [after H]; discriminate].
    + rewrite andb_true_iff, Ascii.eqb_eq, IH. split.
      * intros [-> [after ->]]. now exists after.
      * intros [after [= -> ->]]. split; [reflexivity | now exists after].
Qed.

Lemma contains_spec p s : Str.contains p s = true <-> substring p s.
Proof.
  unfold substring. induction s as [|c s IH].
  - simpl. rewrite orb_false_r, starts_with_spec. split.
    + intros [after ->]. now exists "", after.
    + intros (before & after & H). destruct before; [now exists after|].
      discriminate.
  - cbn [Str.contains]. rewrite orb_true_iff, starts_with_spec, IH. split.
    + intros [[after ->]|(before & after & ->)].
      * now exists "", after.
      * now exists (String c before), after.
    + intros (before & after & H). destruct before as [|b before].
      * left. now exists after.
      * right. injection H as -> ->. now exists before, after.
Qed.

Lemma partial_match_spec a k :
  partial_match a k = true <-> substring_either a k.
Proof.
  unfold partial_match, substring_either.
  now rewrite orb_true_iff, !contains_spec.
Qed.

(* ------------------------------------------------------------------ *)
(** ** Looking keys up *)

Section Lookup.
Context {V : Type}.
Implicit Types (d : dict V) (k : string) (v : V).

Lemma dict_get_wf d k v :
  wf_dict d -> (dict_get k d = Some v <-> In (k, v) d).
Proof.
  unfold wf_dict. intros Hwf. split; [apply dict_get_In|].
  induction d as [|[k0 w] d IH]; simpl; [intros []|].
  inversion Hwf as [|? ? Hnotin Hwf']; subst.
  destruct (String.eqb k k0) eqn:E.
  - apply String.eqb_eq in E. subst k0. intros [[= ->]|Hin]; [reflexivity|].
    exfalso. apply Hnotin. apply (in_map fst) in Hin. exact Hin.
  - apply String.eqb_neq in E. intros [[= -> ->]|Hin]; [now elim E|].
    now apply IH.
Qed.

Lemma dict_set_keys k v d :
  dict_keys (dict_set k v d)
  = if dict_mem k d then dict_keys d else (dict_keys d ++ [k])%list.
Proof.
  induction d as [|[k0 w] d IH]; simpl; [reflexivity|].
  destruct (String.eqb k k0) eqn:E; simpl; [reflexivity|].
  rewrite IH. now destruct (dict_mem k d).
Qed.

Lemma dict_set_wf k v d : wf_dict d -> wf_dict (dict_set k v d).
Proof.
  unfold wf_dict. intros Hwf. rewrite dict_set_keys.
  destruct (dict_mem k d) eqn:E; [exact Hwf|].
  rewrite dict_get_mem in E.
  destruct (dict_get k d) eqn:G; [discriminate|].
  apply dict_get_None in G.
  apply NoDup_rev in Hwf. rewrite <- (rev_involutive (_ ++ _)).
  apply NoDup_rev. rewrite rev_app_distr. simpl. constructor; [|exact Hwf].
  intros Hin. apply G. now apply in_rev.
Qed.

Lemma fold_dict_set_wf (items : list (string * V)) d :
  wf_dict d ->
  wf_dict (fold_left (fun d kv => dict_set (fst kv) (snd kv) d) items d).
Proof.
  revert d. induction items as [|kv items IH]; simpl; intros d Hwf;
    [exact Hwf|]. apply IH. now apply dict_set_wf.
Qed.

Lemma dict_of_items_wf (items : list (string * V)) :
  wf_dict (dict_of_items items).
Proof. apply fold_dict_set_wf. constructor. Qed.

(** Reading [dict(items)] at a key gives the value of the last pair with
    that key. *)
Lemma fold_dict_set_get_last (items : list (string * V)) d k before v after :
  items = (before ++ (k, v) :: after)%list ->
  (forall k', In k' (dict_keys after) -> k' <> k) ->
  dict_get k (fold_left (fun d kv => dict_set (fst kv) (snd kv) d) items d)
  = Some v.
Proof.
  intros -> Hafter. rewrite fold_left_app. simpl.
  assert (Hkeep : forall d1, dict_get k d1 = Some v ->
    dict_get k
      (fold_left (fun d kv => dict_set (fst kv) (snd kv) d) after d1)
    = Some v).
  { induction after as [|[k1 v1] after IH]; simpl; intros d1 Hd1;
      [exact Hd1|].
    apply IH.
    - intros k' Hk'. apply Hafter. now right.
    - rewrite dict_get_set_other; [exact Hd1|].
      apply Hafter. now left. }
  apply Hkeep, dict_get_set_same.
Qed.

Lemma fold_dict_set_get_none (items : list (string * V)) d k :
  (forall k', In k' (dict_keys items) -> k' <> k) ->
  dict_get k (fold_left (fun d kv => dict_set (fst kv) (snd kv) d) items d)
  = dict_get k d.
Proof.
  revert d. induction items as [|[k1 v1] items IH]; simpl; intros d H;
    [reflexivity|].
  rewrite IH by (intros k' Hk'; apply H; now right).
  apply dict_get_set_other. apply H. now left.
Qed.

End Lookup.

(** A flattened document is a well-formed dictionary. *)
Lemma flatten_wf data : wf_dict (flatten data).
Proof.
  unfold flatten. destruct data; try (constructor).
  cbn [_flatten_json]. apply dict_of_items_wf.
Qed.

(* ------------------------------------------------------------------ *)
(** ** The three passes of the resolver *)

Lemma exact_loop_hit data aliases before a after v :
  wf_dict data ->
  aliases = (before ++ a :: after)%list ->
  (forall a', In a' before -> ~ In a' (dict_keys data)) ->
  In (a, v) data ->
  exact_loop data aliases = Some v.
Proof.
  intros Hwf Hal Hbefore Hin. unfold exact_loop.
  apply (for_return_first _ _ before a after); trivial.
  - intros a' Ha'. now apply dict_get_None, Hbefore.
  - now apply dict_get_wf.
Qed.

Lemma exact_loop_miss data aliases :
  no_exact_hit data aliases -> exact_loop data aliases = None.
Proof.
  intros H. apply for_return_none. intros a Ha. now apply dict_get_None, H.
Qed.

Lemma lowered_keys (data : dict json) :
  dict_keys (map (fun kv => (Str.lower (fst kv), snd kv)) data)
  = map Str.lower (dict_keys data).
Proof. unfold dict_keys. rewrite !map_map. reflexivity. Qed.

(** The lowered table holds, under the lowered form of [a], the value of
    the last key of the document that equals [a] up to case. *)
Lemma data_lower_last data a before k v after :
  data = (before ++ (k, v) :: after)%list ->
  same_key_ci a k ->
  (forall k', In k' (dict_keys after) -> ~ same_key_ci a k') ->
  dict_get (Str.lower a) (data_lower data) = Some v.
Proof.
  intros -> Hk Hafter. unfold data_lower, dict_of_items.
  apply (fold_dict_set_get_last _ _ _
           (map (fun kv => (Str.lower (fst kv), snd kv)) before) v
           (map (fun kv => (Str.lower (fst kv), snd kv)) after)).
  - rewrite map_app. simpl. now rewrite Hk.
  - intros k' Hk'. rewrite lowered_keys in Hk'.
    apply in_map_iff in Hk'. destruct Hk' as (k0 & <- & Hk0).
    exact (Hafter k0 Hk0).
Qed.

Lemma data_lower_none data a :
  (forall k, In k (dict_keys data) -> ~ same_key_ci a k) ->
  dict_get (Str.lower a) (data_lower data) = None.
Proof.
  intros H. unfold data_lower, dict_of_items.
  rewrite fold_dict_set_get_none; [reflexivity|].
  intros k' Hk'. rewrite lowered_keys in Hk'.
  apply in_map_iff in Hk'. destruct Hk' as (k0 & <- & Hk0). exact (H k0 Hk0).
Qed.

Lemma lower_loop_hit data aliases before a after dbefore k v dafter :
  aliases = (before ++ a :: after)%list ->
  (forall a' k',
      In a' before -> In k' (dict_keys data) -> ~ same_key_ci a' k') ->
  data = (dbefore ++ (k, v) :: dafter)%list ->
  same_key_ci a k ->
  (forall k', In k' (dict_keys dafter) -> ~ same_key_ci a k') ->
  lower_loop data aliases = Some v.
Proof.
  intros Hal Hbefore Hdata Hk Hlast. unfold lower_loop.
  apply (for_return_first _ _ before a after); trivial.
  - intros a' Ha'. apply data_lower_none. intros k' Hk'.
    now apply Hbefore.
  - now apply (data_lower_last data a dbefore k v dafter).
Qed.

Lemma lower_loop_miss data aliases :
  no_ci_hit data aliases -> lower_loop data aliases = None.
Proof.
  intros H. apply for_return_none. intros a Ha.
  apply data_lower_none. intros k Hk. now apply H.
Qed.

Lemma partial_loop_hit data aliases before a after dbefore k v dafter :
  aliases = (before ++ a :: after)%list ->
  (forall a' k',
      In a' before -> In k' (dict_keys data) -> ~ substring_either a' k') ->
  data = (dbefore ++ (k, v) :: dafter)%list ->
  (forall k', In k' (dict_keys dbefore) -> ~ substring_either a k') ->
  substring_either a k ->
  partial_loop data aliases = Some v.
Proof.
  intros Hal Hbefore Hdata Hfirst Hk. unfold partial_loop.
  apply (for_return_first _ _ before a after); trivial.
  - intros a' Ha'. apply for_return_none. intros [k' v'] Hin. simpl.
    destruct (partial_match a' k') eqn:E; [|reflexivity].
    apply partial_match_spec in E. exfalso.
    apply (Hbefore a' k' Ha'); [|exact E].
    apply (in_map fst) in Hin. exact Hin.
  - apply (for_return_first _ _ dbefore (k, v) dafter); trivial.
    + intros [k' v'] Hin. simpl.
      destruct (partial_match a k') eqn:E; [|reflexivity].
      apply partial_match_spec in E. exfalso. apply (Hfirst k'); [|exact E].
      apply (in_map fst) in Hin. exact Hin.
    + simpl. apply partial_match_spec in Hk. now rewrite Hk.
Qed.

Lemma partial_loop_miss data aliases :
  no_substring_hit data aliases -> partial_loop data aliases = None.
Proof.
  intros H. apply for_return_none. intros a Ha.
  apply for_return_none. intros [k v] Hin. simpl.
  destruct (partial_match a k) eqn:E; [|reflexivity].
  apply partial_match_spec in E. exfalso. apply (H a k Ha); [|exact E].
  apply (in_map fst) in Hin. exact Hin.
Qed.

(** Checking the side conditions of the passes by computation. *)
Lemma no_exact_hit_check data aliases :
  forallb (fun a => negb (dict_mem a data)) aliases = true ->
  no_exact_hit data aliases.
Proof.
  intros H a Ha. rewrite forallb_forall in H. specialize (H a Ha).
  apply negb_true_iff in H. rewrite dict_get_mem in H.
  apply dict_get_None. now destruct (dict_get a data).
Qed.

Lemma no_ci_hit_check data aliases :
  forallb (fun a =>
             forallb (fun k => negb (String.eqb (Str.lower k) (Str.lower a)))
               (dict_keys data)) aliases = true ->
  no_ci_hit data aliases.
Proof.
  intros H a k Ha Hk. rewrite forallb_forall in H. specialize (H a Ha).
  rewrite forallb_forall in H. specialize (H k Hk).
  apply negb_true_iff, String.eqb_neq in H. exact H.
Qed.

Lemma no_substring_hit_check data aliases :
  forallb (fun a =>
             forallb (fun k => negb (partial_match a k)) (dict_keys data))
    aliases = true ->
  no_substring_hit data aliases.
Proof.
  intros H a k Ha Hk Hs. rewrite forallb_forall in H. specialize (H a Ha).
  rewrite forallb_forall in H. specialize (H k Hk).
  apply negb_true_iff in H. apply partial_match_spec in Hs. congruence.
Qed.

(** C1. Alias resolution runs three ordered passes and returns the value
    of the first hit.  Pass 1: the first alias, in table order, that is a
    key of the document.  Pass 2 (only when pass 1 finds nothing): the
    first alias, in table order, that equals a document key up to case.
    Pass 3 (only when passes 1 and 2 find nothing): the first alias, in
    table order, and for it the first document key, in insertion order,
    such that one contains the other up to case.  When no pass hits, the
    result is [None]. *)
Theorem find_value_three_passes (data : dict json) (aliases : list string) :
  wf_dict data ->
  (* pass 1 *)
  (forall before a after v,
      aliases = (before ++ a :: after)%list ->
      (forall a', In a' before -> ~ In a' (dict_keys data)) ->
      In (a, v) data ->
      _find_value_by_keys data aliases = v)
  /\ (* pass 2 *)
  (forall before a after dbefore k v dafter,
      no_exact_hit data aliases ->
      aliases = (before ++ a :: after)%list ->
      (forall a' k',
          In a' before -> In k' (dict_keys data) -> ~ same_key_ci a' k') ->
      data = (dbefore ++ (k, v) :: dafter)%list ->
      same_key_ci a k ->
      (forall k', In k' (dict_keys dafter) -> ~ same_key_ci a k') ->
      _find_value_by_keys data aliases = v)
  /\ (* pass 3 *)
  (forall before a after dbefore k v dafter,
      no_exact_hit data aliases ->
      no_ci_hit data aliases ->
      aliases = (before ++ a :: after)%list ->
      (forall a' k',
          In a' before -> In k' (dict_keys data) -> ~ substring_either a' k') ->
      data = (dbefore ++ (k, v) :: dafter)%list ->
      (forall k', In k' (dict_keys dbefore) -> ~ substring_either a k') ->
      substring_either a k ->
      _find_value_by_keys data aliases = v)
  /\ (* no hit *)
  (no_exact_hit data aliases ->
   no_ci_hit data aliases ->
   no_substring_hit data aliases ->
   _find_value_by_keys data aliases = JNull).
Proof.
  intros Hwf. unfold _find_value_by_keys. repeat split.
  - intros before a after v Hal Hbefore Hin.
    now rewrite (exact_loop_hit data aliases before a after v).
  - intros before a after dbefore k v dafter H1 Hal Hbefore Hdata Hk Hlast.
    rewrite (exact_loop_miss _ _ H1).
    now rewrite (lower_loop_hit data aliases before a after dbefore k v dafter).
  - intros before a after dbefore k v dafter H1 H2 Hal Hbefore Hdata Hfirst Hk.
    rewrite (exact_loop_miss _ _ H1), (lower_loop_miss _ _ H2).
    now rewrite
      (partial_loop_hit data aliases before a after dbefore k v dafter).
  - intros H1 H2 H3.
    now rewrite (exact_loop_miss _ _ H1), (lower_loop_miss _ _ H2),
      (partial_loop_miss _ _ H3).
Qed.

(* ------------------------------------------------------------------ *)
(** ** The parse pipeline *)

Lemma field_mappings_wf : wf_dict _get_field_mappings.
Proof.
  unfold wf_dict. apply (NoDup_count_occ' string_dec).
  intros f Hf. simpl in Hf.
  repeat (destruct Hf as [<-|Hf]; [reflexivity|]). destruct Hf.
Qed.

(** After the loop over a table with distinct field names, a field of the
    table holds its normalised value when resolution returned something
    other than [None], and is left as it was otherwise. *)
Lemma map_fields_get flattened table acc field aliases :
  wf_dict table ->
  In (field, aliases) table ->
  dict_get field (fold_left (map_field flattened) table acc)
  = if is_not_none (_find_value_by_keys flattened aliases)
    then Some (JStr (_normalize_value field
                       (_find_value_by_keys flattened aliases)))
    else dict_get field acc.
Proof.
  assert (Hother : forall table acc,
             ~ In field (dict_keys table) ->
             dict_get field (fold_left (map_field flattened) table acc)
             = dict_get field acc).
  { clear. induction table as [|[f al] table IH]; simpl; intros acc Hnot;
      [reflexivity|].
    rewrite IH by (intros H; apply Hnot; now right).
    destruct (is_not_none _); [|reflexivity].
    apply dict_get_set_other. intros ->. apply Hnot. now left. }
  revert acc. induction table as [|[f al] table IH]; intros acc Hwf Hin;
    [destruct Hin|].
  unfold wf_dict in Hwf. simpl in Hwf.
  inversion Hwf as [|? ? Hnotin Hwf']; subst.
  destruct Hin as [[= -> ->]|Hin].
  - simpl. rewrite Hother by exact Hnotin.
    destruct (is_not_none _); [|reflexivity]. apply dict_get_set_same.
  - assert (Hne : f <> field).
    { intros ->. apply Hnotin. apply (in_map fst) in Hin. exact Hin. }
    cbn [fold_left]. rewrite (IH _ Hwf' Hin).
    destruct (is_not_none (_find_value_by_keys flattened aliases));
      [reflexivity|].
    unfold map_field. destruct (is_not_none _); [|reflexivity].
    now apply dict_get_set_other.
Qed.

Lemma aliases_of_In field :
  In field canonical_fields ->
  In (field, aliases_of field) _get_field_mappings.
Proof.
  unfold aliases_of. intros H.
  destruct (dict_get field _get_field_mappings) as [al|] eqn:E.
  - now apply dict_get_In.
  - apply dict_get_None in E. now elim E.
Qed.

Lemma canonical_not_metadata field :
  In field canonical_fields -> "_metadata" <> field.
Proof.
  intros H E. subst field. cbv in H.
  repeat (destruct H as [H|H]; [discriminate|]). destruct H.
Qed.

(** The record of [parse_json_data] at a canonical field. *)
Lemma parse_get now data field :
  In field canonical_fields ->
  dict_get field (parse_json_data now data)
  = if is_not_none (resolve data field)
    then Some (JStr (_normalize_value field (resolve data field)))
    else None.
Proof.
  intros Hf. unfold parse_json_data.
  rewrite dict_get_set_other by now apply canonical_not_metadata.
  unfold map_fields, resolve.
  now rewrite (map_fields_get _ _ [] field (aliases_of field)
                 field_mappings_wf (aliases_of_In _ Hf)).
Qed.

Lemma find_value_three_passes_witness :
  _find_value_by_keys (flatten nested_doc) (aliases_of "shipper_name")
  = JStr "ABC Corp".
Proof.
  refine (proj1 (proj2 (proj2 (find_value_three_passes (flatten nested_doc)
            (aliases_of "shipper_name") _)))
            ["shipper_name"; "shipper"; "sender_name"] "sender"
            ["from_name"; "from"; "origin_name"; "origin_company";
             "shipping_company"; "company_name"]
            [] "shipment.sender.name" (JStr "ABC Corp")
            (tl (flatten nested_doc)) _ _ eq_refl _ eq_refl _ _).
  - apply flatten_wf.
  - apply no_exact_hit_check. reflexivity.
  - apply no_ci_hit_check. reflexivity.
  - apply (no_substring_hit_check (flatten nested_doc)
             ["shipper_name"; "shipper"; "sender_name"]).
    reflexivity.
  - intros k [].
  - apply partial_match_spec. reflexivity.
Defined.

Lemma aliases_head field :
  In field canonical_fields ->
  exists rest, aliases_of field = field :: rest.
Proof.
  intros H. cbv in H.
  repeat (destruct H as [<-|H]; [eexists; reflexivity|]). destruct H.
Qed.

(** A canonical field that is a key of the document resolves to its own
    value, by the exact pass. *)
Lemma resolve_own_key (data : dict json) field v :
  In field canonical_fields ->
  dict_get field data = Some v ->
  _find_value_by_keys data (aliases_of field) = v.
Proof.
  intros Hf Hget. destruct (aliases_head field Hf) as [rest ->].
  unfold _find_value_by_keys, exact_loop. cbn [for_return].
  now rewrite Hget.
Qed.

(** Closes goals over a finite list of concrete keys or aliases. *)
Ltac by_cases :=
  repeat match goal with
    | H : In _ (_ :: _) |- _ => destruct H as [H|H]
    | H : In _ [] |- _ => destruct H
    | H : _ \/ _ |- _ => destruct H as [H|H]
    | H : False |- _ => destruct H
    end;
  subst; try discriminate.

(** C10. In the case-insensitive pass, when several document keys have the
    lowered form of the alias, the value returned is the one of the last
    such key in insertion order: an earlier key [k1] with the same lowered
    form is overwritten in the lowered table. *)
Theorem ci_pass_returns_last_key
    (data : dict json) (aliases before after : list string) (a : string)
    (d1 d2 d3 : dict json) (k1 k2 : string) (v1 v2 : json) :
  no_exact_hit data aliases ->
  aliases = (before ++ a :: after)%list ->
  (forall a' k',
      In a' before -> In k' (dict_keys data) -> ~ same_key_ci a' k') ->
  data = (d1 ++ (k1, v1) :: d2 ++ (k2, v2) :: d3)%list ->
  same_key_ci a k1 ->
  same_key_ci a k2 ->
  (forall k', In k' (dict_keys d3) -> ~ same_key_ci a k') ->
  dict_get (Str.lower a) (data_lower data) = Some v2
  /\ _find_value_by_keys data aliases = v2.
Proof.
  intros H1 Hal Hbefore Hdata Hk1 Hk2 Hlast.
  assert (Hdata' : data = ((d1 ++ (k1, v1) :: d2) ++ (k2, v2) :: d3)%list)
    by (rewrite Hdata, <- app_assoc; reflexivity).
  split.
  - now apply (data_lower_last data a (d1 ++ (k1, v1) :: d2) k2 v2 d3).
  - unfold _find_value_by_keys. rewrite (exact_loop_miss _ _ H1).
    now rewrite (lower_loop_hit data aliases before a after
                   (d1 ++ (k1, v1) :: d2) k2 v2 d3).
Qed.

Lemma ci_pass_returns_last_key_witness :
  _find_value_by_keys two_case_doc (aliases_of "package_weight")
  = JStr "2 kg".
Proof.
  refine (proj2 (ci_pass_returns_last_key two_case_doc
            (aliases_of "package_weight") ["package_weight"]
            ["pkg_weight"; "total_weight"; "gross_weight"; "shipment_weight";
             "parcel_weight"; "item_weight"]
            "weight" [] [] [] "Weight" "WEIGHT" (JStr "1 kg") (JStr "2 kg")
            _ eq_refl _ eq_refl eq_refl eq_refl _)).
  - apply no_exact_hit_check. reflexivity.
  - apply (no_ci_hit_check two_case_doc ["package_weight"]). reflexivity.
  - intros k' [].
Defined.

(** C9. A top-level value that is not an object flattens to the empty
    mapping, so the record holds the [_metadata] entry alone, with an empty
    list of original keys and no field found. *)
Theorem parse_non_object (now : Datetime.t) (data : json) :
  (forall entries, data <> JObj entries) ->
  flatten data = []
  /\ parse_json_data now data
     = [("_metadata",
          JObj [ ("parsed_at", JStr (Datetime.isoformat now));
                 ("original_keys", JArr []);
                 ("found_mappings", JObj []) ])]
  /\ forall field,
       In field canonical_fields ->
       dict_get field (parse_json_data now data) = None.
Proof.
  intros Hno.
  assert (Hflat : flatten data = [])
    by (apply flatten_non_object; exact Hno).
  assert (Hparse : parse_json_data now data
     = [("_metadata",
          JObj [ ("parsed_at", JStr (Datetime.isoformat now));
                 ("original_keys", JArr []);
                 ("found_mappings", JObj []) ])]).
  { unfold parse_json_data. rewrite Hflat. reflexivity. }
  repeat split; trivial.
  intros field Hf. rewrite Hparse. simpl.
  destruct (String.eqb field "_metadata") eqn:E; [|reflexivity].
  apply String.eqb_eq in E. symmetry in E.
  now elim (canonical_not_metadata field Hf).
Qed.

Lemma parse_non_object_witness :
  parse_json_data example_now top_level_list
  = [("_metadata",
       JObj [ ("parsed_at", JStr "2024-01-10T09:30:00");
              ("original_keys", JArr []);
              ("found_mappings", JObj []) ])].
Proof.
  refine (proj1 (proj2 (parse_non_object example_now top_level_list _))).
  intros entries; discriminate.
Defined.

(** C2 as stated fails: an array of scalars is stored as an array. *)
Lemma flatten_stores_array :
  flatten tags_doc = [("tags", JArr [JStr "fragile"; JStr "glass"])]
  /\ ~ (forall data, Forall (fun kv => is_scalar (snd kv) = true)
                       (flatten data)).
Proof.
  split; [reflexivity|].
  intros H. specialize (H tags_doc). inversion H as [|? ? Hhead _].
  discriminate Hhead.
Qed.

(** C2, amended. Every value of the flattened document is a scalar, or an
    array that is empty or whose first element is not an object; an object
    is never a value, and neither is an array that starts with an
    object. *)
Theorem flatten_stores_leaves (data : json) :
  Forall (fun kv =>
            is_scalar (snd kv) = true
            \/ exists items,
                 snd kv = JArr items
                 /\ forall first rest entries,
                      items = first :: rest -> first <> JObj entries)
         (flatten data).
Proof.
  pose proof (proj1 (flatten_leaves_strong data) "" ".") as H.
  unfold leaves_only in H. fold (flatten data) in H.
  eapply Forall_impl; [|exact H].
  intros [k v] Hleaf. simpl in *.
  destruct v as [| | | | |items|es]; try (left; reflexivity);
    [|discriminate].
  right. exists items. split; [reflexivity|].
  intros first rest entries -> ->. discriminate.
Qed.

(** C3 as stated fails: a field whose key holds [None] is left out of the
    record. *)
Lemma null_field_is_omitted :
  In ("shipper_name", JNull) (flatten null_name_doc)
  /\ resolve null_name_doc "shipper_name" = JNull
  /\ dict_get "shipper_name" (parse_json_data example_now null_name_doc)
     = None
  /\ dict_get "shipper_name" (parse_json_data example_now null_name_doc)
     <> Some (JStr "").
Proof. repeat split; [now left | discriminate]. Qed.

(** C3, amended. Normalising [None] gives the empty string for every
    field, but the pipeline never does so: a canonical field whose alias
    resolution returns [None] is left out of the record, and resolution
    returns [None] when the key it matches holds [None], as when the field
    name itself is a key of the flattened document with the value
    [None]. *)
Theorem null_value_normalisation (now : Datetime.t) (data : json)
    (field : string) :
  In field canonical_fields ->
  _normalize_value field JNull = ""
  /\ (resolve data field = JNull ->
      dict_get field (parse_json_data now data) = None)
  /\ (dict_get field (flatten data) = Some JNull ->
      resolve data field = JNull
      /\ dict_get field (parse_json_data now data) = None).
Proof.
  intros Hf.
  assert (Hnull : resolve data field = JNull ->
                  dict_get field (parse_json_data now data) = None).
  { intros Hnull. rewrite (parse_get now data field Hf), Hnull.
    reflexivity. }
  split; [reflexivity|]. split; [exact Hnull|].
  intros Hget.
  assert (Hres : resolve data field = JNull)
    by (apply resolve_own_key; assumption).
  split; [exact Hres | exact (Hnull Hres)].
Qed.

Lemma null_value_normalisation_witness :
  _normalize_value "shipper_name" JNull = ""
  /\ dict_get "shipper_name" (parse_json_data example_now null_name_doc)
     = None.
Proof.
  destruct (null_value_normalisation example_now null_name_doc
              "shipper_name" ltac:(cbv; tauto)) as (Hn & _ & Hkey).
  split; [exact Hn|]. now apply Hkey.
Defined.

(* ------------------------------------------------------------------ *)
(** ** The weight pattern *)

Lemma append_assoc (a b c : string) : (a ++ b) ++ c = a ++ b ++ c.
Proof. induction a as [|x a IH]; simpl; [reflexivity | now rewrite IH]. Qed.

Lemma append_empty_r (a : string) : a ++ "" = a.
Proof. induction a as [|x a IH]; simpl; [reflexivity | now rewrite IH]. Qed.

Lemma span_digits_app ds rest :
  all_chars Str.is_digit ds = true ->
  not_headed_by Str.is_digit rest = true ->
  span_digits (ds ++ rest) = (ds, rest).
Proof.
  intros Hds Hrest. induction ds as [|c ds IH]; cbn [append span_digits].
  - destruct rest as [|r rest]; [reflexivity|]. cbn [not_headed_by] in Hrest.
    apply negb_true_iff in Hrest. cbn [span_digits]. now rewrite Hrest.
  - cbn [all_chars] in Hds. apply andb_true_iff in Hds.
    destruct Hds as [Hc Hds]. now rewrite Hc, (IH Hds).
Qed.

Lemma weight_match_no_digit c s :
  Str.is_digit c = false -> weight_match_here (String c s) = None.
Proof.
  intros H. unfold weight_match_here. cbn [span_digits]. now rewrite H.
Qed.

Lemma weight_search_skip before s :
  no_digit before = true ->
  weight_search (before ++ s) = weight_search s.
Proof.
  intros H. induction before as [|c before IH]; [reflexivity|].
  unfold no_digit in H. cbn [all_chars] in H.
  apply andb_true_iff in H. destruct H as [Hc H].
  apply negb_true_iff in Hc.
  change (weight_search (String c (before ++ s)) = weight_search s).
  cbn [weight_search]. rewrite (weight_match_no_digit _ _ Hc). now apply IH.
Qed.

Lemma weight_search_here s m :
  weight_match_here s = Some m -> weight_search s = Some m.
Proof. intros H. destruct s; cbn [weight_search]; now rewrite H. Qed.

Lemma weight_search_none s : no_digit s = true -> weight_search s = None.
Proof.
  intros H. rewrite <- (append_empty_r s). rewrite weight_search_skip by easy.
  reflexivity.
Qed.

(** A run of digits not followed by a point. *)
Lemma weight_match_integer ds after :
  ds <> "" ->
  all_chars Str.is_digit ds = true ->
  not_headed_by Str.is_digit after = true ->
  not_headed_by is_point after = true ->
  weight_match_here (ds ++ after) = Some ds.
Proof.
  intros Hne Hds Hafter Hpoint. unfold weight_match_here.
  rewrite (span_digits_app _ _ Hds Hafter).
  destruct ds as [|d ds]; [now elim Hne|].
  destruct after as [|c after]; [reflexivity|].
  simpl in Hpoint. unfold is_point in Hpoint.
  apply negb_true_iff, Ascii.eqb_neq in Hpoint.
  destruct c as [[] [] [] [] [] [] [] []]; try reflexivity. now elim Hpoint.
Qed.

(** A run of digits, a point, and the digits after it. *)
Lemma weight_match_decimal ds fs after :
  ds <> "" ->
  all_chars Str.is_digit ds = true ->
  all_chars Str.is_digit fs = true ->
  not_headed_by Str.is_digit after = true ->
  weight_match_here (ds ++ "." ++ fs ++ after) = Some (ds ++ "." ++ fs).
Proof.
  intros Hne Hds Hfs Hafter. unfold weight_match_here.
  rewrite (span_digits_app ds ("." ++ fs ++ after) Hds eq_refl).
  destruct ds as [|d ds]; [now elim Hne|].
  cbn [append]. now rewrite (span_digits_app _ _ Hfs Hafter).
Qed.

(** The value [_normalize_value] computes for the weight field. *)
Lemma normalize_weight v :
  v <> JNull ->
  _normalize_value "package_weight" v
  = match weight_search (Str.strip (PyStr.str v)) with
    | Some m => m
    | None => Str.strip (PyStr.str v)
    end.
Proof. intros H. destruct v; try reflexivity. now elim H. Qed.

(** C5 as stated fails: the pattern of the code begins with a digit, so a
    leading decimal point is not part of the token. *)
Lemma weight_token_needs_leading_digit :
  _normalize_value "package_weight" (JStr ".5 lbs") = "5"
  /\ spec_first_token (Str.strip ".5 lbs") = Some ".5"
  /\ Some (_normalize_value "package_weight" (JStr ".5 lbs"))
     <> spec_first_token (Str.strip (PyStr.str (JStr ".5 lbs"))).
Proof. repeat split. discriminate. Qed.

(** C5, amended. For a raw value other than [None], let [s] be the trimmed
    text of the value.  The weight field is the first numeric token of [s],
    where a token is one or more digits, then optionally a decimal point
    and the digits that follow it: the run of digits that starts at the
    first digit of [s], extended by a point and further digits when a
    point follows.  When [s] has no digit the field is [s] itself.  The
    document with weight 25.3 lbs gives 25.3. *)
Theorem weight_first_numeric_token (v : json) :
  v <> JNull ->
  let s := Str.strip (PyStr.str v) in
  (forall before ds after,
      s = before ++ ds ++ after ->
      no_digit before = true ->
      ds <> "" -> all_chars Str.is_digit ds = true ->
      not_headed_by Str.is_digit after = true ->
      not_headed_by is_point after = true ->
      _normalize_value "package_weight" v = ds)
  /\ (forall before ds fs after,
      s = before ++ ds ++ "." ++ fs ++ after ->
      no_digit before = true ->
      ds <> "" -> all_chars Str.is_digit ds = true ->
      all_chars Str.is_digit fs = true ->
      not_headed_by Str.is_digit after = true ->
      _normalize_value "package_weight" v = ds ++ "." ++ fs)
  /\ (no_digit s = true -> _normalize_value "package_weight" v = s)
  /\ dict_get "package_weight" (parse_json_data example_now weight_doc)
     = Some (JStr "25.3").
Proof.
  intros Hv s. rewrite (normalize_weight v Hv). fold s.
  repeat split.
  - intros before ds after -> Hb Hne Hds Ha Hp.
    rewrite (weight_search_skip _ _ Hb).
    now rewrite (weight_search_here _ _
                   (weight_match_integer ds after Hne Hds Ha Hp)).
  - intros before ds fs after -> Hb Hne Hds Hfs Ha.
    rewrite (weight_search_skip _ _ Hb).
    now rewrite (weight_search_here _ _
                   (weight_match_decimal ds fs after Hne Hds Hfs Ha)).
  - intros Hno. now rewrite (weight_search_none _ Hno).
Qed.

Lemma weight_first_numeric_token_witness :
  _normalize_value "package_weight" (JStr "  about 25.3 lbs ") = "25.3"
  /\ _normalize_value "package_weight" (JStr "12 kg") = "12"
  /\ _normalize_value "package_weight" (JStr " heavy ") = "heavy".
Proof.
  split; [|split].
  - apply (proj1 (proj2 (weight_first_numeric_token
                           (JStr "  about 25.3 lbs ") ltac:(discriminate)))
             "about " "25" "3" " lbs"); (reflexivity || discriminate).
  - apply (proj1 (weight_first_numeric_token (JStr "12 kg")
                    ltac:(discriminate)) "" "12" " kg");
      (reflexivity || discriminate).
  - apply (proj1 (proj2 (proj2 (weight_first_numeric_token (JStr " heavy ")
                                  ltac:(discriminate))))).
    reflexivity.
Defined.

(* ------------------------------------------------------------------ *)
(** ** Dates *)

Lemma Z_range_from_In n : forall lo z,
  lo <= z < lo + Z.of_nat n -> In z (Z_range_from n lo).
Proof.
  induction n as [|n IH]; intros lo z Hz; [lia|].
  cbn [Z_range_from In].
  destruct (Z.eq_dec lo z) as [->|Hne]; [now left|].
  right. apply IH. lia.
Qed.

Lemma Z_range_forallb (p : Z -> bool) lo n :
  forallb p (Z_range lo n) = true ->
  forall z, lo <= z < lo + n -> p z = true.
Proof.
  intros H z Hz. rewrite forallb_forall in H. apply H.
  unfold Z_range. apply Z_range_from_In. lia.
Qed.

Lemma pad4_year y :
  1 <= y <= 9999 -> digits_n 4 (Datetime.pad 4 y) = true.
Proof.
  intros Hy.
  exact (Z_range_forallb (fun y => digits_n 4 (Datetime.pad 4 y))
           1 9999 ltac:(vm_compute; reflexivity) y ltac:(lia)).
Qed.

Lemma pad2_small n :
  1 <= n <= 31 -> digits_n 2 (Datetime.pad 2 n) = true.
Proof.
  intros Hn.
  exact (Z_range_forallb (fun n => digits_n 2 (Datetime.pad 2 n))
           1 31 ltac:(vm_compute; reflexivity) n ltac:(lia)).
Qed.

Lemma valid_ranges dt :
  Datetime.valid dt = true ->
  1 <= Datetime.year dt <= 9999
  /\ 1 <= Datetime.month dt <= 12
  /\ 1 <= Datetime.day dt <= 31.
Proof.
  unfold Datetime.valid. rewrite !andb_true_iff, !Z.leb_le.
  intros H. decompose [and] H. clear H.
  repeat split; try assumption.
  match goal with
  | H : Datetime.day dt <= Datetime.days_in_month _ _ |- _ =>
      revert H; unfold Datetime.days_in_month
  end.
  repeat match goal with |- context [if ?b then _ else _] => destruct b end;
    lia.
Qed.

Lemma is_ymd_compose Y M D :
  digits_n 4 Y = true -> digits_n 2 M = true -> digits_n 2 D = true ->
  is_ymd (Y ++ "-" ++ M ++ "-" ++ D) = true.
Proof.
  unfold digits_n. rewrite !andb_true_iff, !Nat.eqb_eq.
  intros [LY HY] [LM HM] [LD HD].
  destruct Y as [|y1 [|y2 [|y3 [|y4 [|]]]]]; try discriminate.
  destruct M as [|m1 [|m2 [|]]]; try discriminate.
  destruct D as [|d1 [|d2 [|]]]; try discriminate.
  cbn [all_chars] in HY, HM, HD. cbn [append is_ymd forallb].
  rewrite !Ascii.eqb_refl. repeat rewrite andb_true_iff in *. intuition.
Qed.

Lemma iso_date_shape dt :
  Datetime.valid dt = true -> is_ymd (Datetime.iso_date dt) = true.
Proof.
  intros H. destruct (valid_ranges dt H) as (Hy & Hm & Hd).
  unfold Datetime.iso_date. apply is_ymd_compose.
  - apply pad4_year, Hy.
  - apply pad2_small. lia.
  - apply pad2_small, Hd.
Qed.

(** From the year 1000 on the decimal text of a year has four digits. *)
Lemma year_text_padded y :
  1000 <= y <= 9999 -> Str.of_Z y = Datetime.pad 4 y.
Proof.
  intros Hy. apply String.eqb_eq.
  exact (Z_range_forallb
           (fun y => String.eqb (Str.of_Z y) (Datetime.pad 4 y))
           1000 9000 ltac:(vm_compute; reflexivity) y ltac:(lia)).
Qed.

Lemma year_text_leads y : 1000 <= y <= 9999 -> leads (Str.of_Z y) = true.
Proof.
  intros Hy.
  exact (Z_range_forallb (fun y => leads (Str.of_Z y))
           1000 9000 ltac:(vm_compute; reflexivity) y ltac:(lia)).
Qed.

(** Below it has one to three. *)
Lemma year_text_short y : 1 <= y <= 999 -> short_year (Str.of_Z y) = true.
Proof.
  intros Hy.
  exact (Z_range_forallb (fun y => short_year (Str.of_Z y))
           1 999 ltac:(vm_compute; reflexivity) y ltac:(lia)).
Qed.

Lemma strftime_iso dt :
  Datetime.valid dt = true -> 1000 <= Datetime.year dt ->
  Datetime.strftime_ymd dt = Datetime.iso_date dt.
Proof.
  intros H Hy. destruct (valid_ranges dt H) as (Hy' & _).
  unfold Datetime.strftime_ymd, Datetime.iso_date.
  now rewrite year_text_padded by lia.
Qed.

Lemma strftime_shape dt :
  Datetime.valid dt = true -> 1000 <= Datetime.year dt ->
  is_ymd (Datetime.strftime_ymd dt) = true.
Proof.
  intros H Hy. rewrite (strftime_iso dt H Hy). now apply iso_date_shape.
Qed.

Lemma strptime_valid s fmt dt :
  Datetime.strptime s fmt = Some dt -> Datetime.valid dt = true.
Proof.
  unfold Datetime.strptime.
  destruct (Datetime.pattern false fmt); [|discriminate].
  destruct (Re.match_ _ s) as [[caps rest]|]; [|discriminate].
  destruct (negb _); [discriminate|].
  match goal with |- context [Datetime.valid ?x] =>
    destruct (Datetime.valid x) eqn:E end; [|discriminate].
  now intros [= <-].
Qed.

Lemma try_formats_first fmts s before fmt after dt :
  fmts = (before ++ fmt :: after)%list ->
  (forall f, In f before -> Datetime.strptime s f = None) ->
  Datetime.strptime s fmt = Some dt ->
  try_formats fmts s = Some (Datetime.strftime_ymd dt).
Proof.
  intros Hf Hbefore Hfmt. unfold try_formats.
  apply (for_return_first _ _ before fmt after); trivial.
  - intros f Hin. now rewrite (Hbefore f Hin).
  - now rewrite Hfmt.
Qed.

Lemma try_formats_none fmts s :
  (forall f, In f fmts -> Datetime.strptime s f = None) ->
  try_formats fmts s = None.
Proof.
  intros H. apply for_return_none. intros f Hin. now rewrite (H f Hin).
Qed.

Lemma normalize_date_value s :
  _normalize_value "shipping_date" (JStr s) = _normalize_date (Str.strip s).
Proof. reflexivity. Qed.

(* ------------------------------------------------------------------ *)
(** ** Parsing back a formatted date *)

Lemma flat_map_map {A B C : Type} (f : B -> list C) (g : A -> B) l :
  flat_map f (map g l) = flat_map (fun x => f (g x)) l.
Proof. induction l as [|x l IH]; simpl; [reflexivity | now rewrite IH]. Qed.

Lemma map_flat_map {A B C : Type} (g : B -> C) (f : A -> list B) l :
  map g (flat_map f l) = flat_map (fun x => map g (f x)) l.
Proof.
  induction l as [|x l IH]; simpl; [reflexivity|].
  now rewrite map_app, IH.
Qed.

(** The groups captured so far ride along unchanged. *)
Lemma run_caps r : forall s caps,
  Re.run r s caps
  = map (fun m => ((fst m ++ caps)%list, snd m)) (Re.run r s []).
Proof.
  induction r as [|p|a IHa b IHb|a IHa b IHb|p lo hi|name a IHa];
    intros s caps; cbn [Re.run].
  - reflexivity.
  - destruct s as [|c s]; [reflexivity|]. now destruct (p c).
  - rewrite (IHa s caps), flat_map_map, map_flat_map.
    apply flat_map_ext. intros [c1 s1]. cbn [fst snd].
    rewrite (IHb s1 (c1 ++ caps)%list), (IHb s1 c1), map_map.
    apply map_ext. intros [c2 s2]. cbn [fst snd].
    now rewrite app_assoc.
  - now rewrite (IHa s caps), (IHb s caps), map_app.
  - rewrite map_map. reflexivity.
  - rewrite (IHa s caps), !map_map. reflexivity.
Qed.

Lemma year_group_run c1 c2 c3 c4 rest :
  forallb Str.is_digit [c1; c2; c3; c4] = true ->
  Re.run year_group (String c1 (String c2 (String c3 (String c4 rest)))) []
  = [([("Y"%char, String c1 (String c2 (String c3 (String c4 ""))))], rest)].
Proof.
  cbn [forallb]. rewrite !andb_true_iff. intros (H1 & H2 & H3 & H4 & _).
  unfold year_group, Re.digit. cbn [Re.run flat_map app map fst snd].
  rewrite H1. cbn [Re.run flat_map app map fst snd].
  rewrite H2. cbn [Re.run flat_map app map fst snd].
  rewrite H3. cbn [Re.run flat_map app map fst snd].
  rewrite H4. cbn [Re.run flat_map app map fst snd String.length].
  replace (S (S (S (S (String.length rest)))) - String.length rest)%nat
    with 4%nat by lia.
  reflexivity.
Qed.

Lemma digit_in c : Str.is_digit c = true -> In c digit_chars.
Proof.
  destruct c as [[] [] [] [] [] [] [] []]; cbv; intros H;
    try discriminate; tauto.
Qed.

Lemma forall4_spec p :
  forall4 p = true ->
  forall a b c d,
    Str.is_digit a = true -> Str.is_digit b = true ->
    Str.is_digit c = true -> Str.is_digit d = true ->
    p a b c d = true.
Proof.
  unfold forall4. intros H a b c d Ha Hb Hc Hd.
  rewrite forallb_forall in H. specialize (H a (digit_in a Ha)).
  rewrite forallb_forall in H. specialize (H b (digit_in b Hb)).
  rewrite forallb_forall in H. specialize (H c (digit_in c Hc)).
  rewrite forallb_forall in H. exact (H d (digit_in d Hd)).
Qed.

Lemma checks_hold :
  forall4 (fun a b c d => check_no_match a b c d && check_md a b c d
                          && check_year a b c d && check_lead a b c d)
  = true.
Proof. vm_compute. reflexivity. Qed.

Lemma slash_formats_fail y1 y2 y3 rest :
  Str.is_digit y1 = true -> Str.is_digit y2 = true ->
  Str.is_digit y3 = true ->
  forall fmt,
    In fmt ["%m/%d/%Y"; "%d/%m/%Y"; "%m/%d/%Y %H:%M:%S"] ->
    Datetime.strptime (String y1 (String y2 (String y3 rest))) fmt = None.
Proof.
  intros H1 H2 H3 fmt Hf.
  apply digit_in in H1, H2, H3. unfold digit_chars in *.
  cbn [In] in H1, H2, H3, Hf;
  repeat match goal with H : _ \/ _ |- _ => destruct H as [H|H] end;
  try contradiction; subst; vm_compute; reflexivity.
Qed.

Lemma year_led_match tail y1 y2 y3 y4 rest :
  forallb Str.is_digit [y1; y2; y3; y4] = true ->
  Re.match_ (Re.Seq year_group tail)
    (String y1 (String y2 (String y3 (String y4 rest))))
  = match Re.run tail rest [] with
    | [] => None
    | m :: _ => Some ((fst m ++ [("Y"%char, str4 y1 y2 y3 y4)])%list, snd m)
    end.
Proof.
  intros Hd. unfold Re.match_. cbn [Re.run].
  rewrite (year_group_run _ _ _ _ _ Hd). cbn [flat_map fst snd].
  rewrite app_nil_r, run_caps.
  destruct (Re.run tail rest []) as [|m ms]; reflexivity.
Qed.

Lemma year_led_no_match fmt ft y1 y2 y3 y4 rest :
  Datetime.pattern false fmt = Some (Re.Seq year_group (tail_of ft)) ->
  forallb Str.is_digit [y1; y2; y3; y4] = true ->
  Re.run (tail_of ft) rest [] = [] ->
  Datetime.strptime (String y1 (String y2 (String y3 (String y4 rest)))) fmt
  = None.
Proof.
  intros Hp Hd Hrun. unfold Datetime.strptime.
  now rewrite Hp, (year_led_match _ _ _ _ _ _ Hd), Hrun.
Qed.

Section YmdShape.
Variables y1 y2 y3 y4 a b c d : ascii.
Hypothesis Hyear : forallb Str.is_digit [y1; y2; y3; y4] = true.
Hypothesis Hrest : forallb Str.is_digit [a; b; c; d] = true.

Let s : string := str4 y1 y2 y3 y4 ++ md_tail a b c d.

Lemma shape_checks :
  check_no_match a b c d = true /\ check_md a b c d = true
  /\ check_year y1 y2 y3 y4 = true /\ check_lead y1 y2 y3 y4 = true.
Proof.
  cbn [forallb] in Hyear, Hrest. repeat rewrite andb_true_iff in Hyear, Hrest.
  decompose [and] Hyear. decompose [and] Hrest.
  pose proof (forall4_spec _ checks_hold a b c d) as Hc1.
  pose proof (forall4_spec _ checks_hold y1 y2 y3 y4) as Hc2.
  cbv beta in Hc1, Hc2. repeat rewrite andb_true_iff in Hc1, Hc2.
  repeat split; [apply Hc1 | apply Hc1 | apply Hc2 | apply Hc2]; assumption.
Qed.

Lemma shape_other_formats fmt :
  In fmt (tl formats) -> Datetime.strptime s fmt = None.
Proof.
  destruct shape_checks as (Hno & _ & _ & _).
  unfold check_no_match in Hno. cbn [forallb] in Hno.
  repeat rewrite andb_true_iff in Hno.
  destruct Hno as (H4 & H5 & H7 & H8 & _).
  assert (Hnil : forall A (l : list A), is_nil l = true -> l = [])
    by (intros A [|] ?; [reflexivity|discriminate]).
  apply Hnil in H4, H5, H7, H8.
  assert (Hslash : forall f,
             In f ["%m/%d/%Y"; "%d/%m/%Y"; "%m/%d/%Y %H:%M:%S"] ->
             Datetime.strptime s f = None).
  { cbn [forallb] in Hyear. repeat rewrite andb_true_iff in Hyear.
    apply slash_formats_fail; apply Hyear. }
  intros Hf. unfold formats in Hf. cbn [tl In] in Hf.
  destruct Hf as [<-|[<-|[<-|[<-|[<-|[<-|[<-|[]]]]]]]].
  - apply Hslash. cbn. tauto.
  - apply Hslash. cbn. tauto.
  - now apply (year_led_no_match _ "/%m/%d").
  - now apply (year_led_no_match _ "-%m-%d %H:%M:%S").
  - apply Hslash. cbn. tauto.
  - now apply (year_led_no_match _ "-%m-%dT%H:%M:%S").
  - now apply (year_led_no_match _ "-%m-%dT%H:%M:%S.%f").
Qed.

Lemma shape_first_format dt :
  Datetime.strptime s "%Y-%m-%d" = Some dt ->
  Datetime.iso_date dt = s
  /\ (is_zero y1 = false -> Datetime.strftime_ymd dt = s).
Proof.
  destruct shape_checks as (_ & Hmd & Hy & Hlead).
  unfold Datetime.strptime.
  change (Datetime.pattern false "%Y-%m-%d")
    with (Some (Re.Seq year_group ymd_tail)).
  unfold s. cbn [str4 append].
  rewrite (year_led_match _ _ _ _ _ _ Hyear).
  fold (md_tail a b c d).
  unfold check_md in Hmd.
  destruct (Re.run ymd_tail (md_tail a b c d) []) as [|[caps rest] ms];
    [discriminate|].
  cbn [fst snd]. destruct rest; [|discriminate].
  destruct caps as [|[n1 t1] [|[n2 t2] [|]]]; try discriminate.
  repeat rewrite andb_true_iff in Hmd.
  rewrite !Ascii.eqb_eq, !String.eqb_eq in Hmd.
  destruct Hmd as (((((-> & ->) & ->) & ->) & Hpd) & Hpm).
  unfold check_year in Hy. apply String.eqb_eq in Hy.
  cbn [Str.is_empty negb app].
  unfold Datetime.group_int. cbn [Re.group Ascii.eqb Bool.eqb].
  match goal with |- (if ?v then _ else _) = _ -> _ => destruct v end;
    [|discriminate].
  intros [= <-]. unfold Datetime.strftime_ymd, Datetime.iso_date.
  cbn [Datetime.year Datetime.month Datetime.day].
  rewrite Hy, Hpd, Hpm. split; [reflexivity|].
  intros Hy1. unfold check_lead in Hlead. rewrite Hy1 in Hlead.
  apply String.eqb_eq in Hlead. rewrite Hlead. reflexivity.
Qed.

Hypothesis Hlead : is_zero y1 = false.


Lemma ymd_chars_fixed : _normalize_date s = s.
Proof.
  unfold _normalize_date, try_formats.
  change formats with ("%Y-%m-%d" :: tl formats). cbn [for_return].
  destruct (Datetime.strptime s "%Y-%m-%d") as [dt|] eqn:E.
  - now rewrite (proj2 (shape_first_format dt E) Hlead).
  - rewrite for_return_none; [reflexivity|].
    intros f Hf. now rewrite (shape_other_formats f Hf).
Qed.

End YmdShape.

Lemma ymd_shape_fixed s :
  is_ymd s = true -> not_headed_by is_zero s = true -> _normalize_date s = s.
Proof.
  intros H Hlead. unfold is_ymd in H.
  do 10 (destruct s as [|? s]; [discriminate|]).
  destruct s; [|discriminate].
  cbn [forallb] in H. repeat rewrite andb_true_iff in H.
  rewrite !Ascii.eqb_eq in H. decompose [and] H. clear H. subst.
  match goal with
  | |- _normalize_date (String ?y1 (String ?y2 (String ?y3 (String ?y4
         (String _ (String ?a (String ?b (String _
           (String ?c (String ?d _)))))))))) = _ =>
      apply (ymd_chars_fixed y1 y2 y3 y4 a b c d)
  end; cbn [forallb];
    repeat match goal with H : Str.is_digit _ = true |- _ =>
      rewrite H; clear H end;
    try reflexivity.
  cbn [not_headed_by] in Hlead. now apply negb_true_iff in Hlead.
Qed.

(* ------------------------------------------------------------------ *)
(** ** Years below 1000 *)

(** The year group wants four digits: a shorter run of digits before a
    dash does not match. *)
Lemma year_group_short ds rest :
  short_year ds = true -> Re.run year_group (ds ++ String "-" rest) [] = [].
Proof.
  unfold short_year. rewrite !andb_true_iff. intros [[Hne Hlen] Hd].
  destruct ds as [|d1 [|d2 [|d3 [|d4 ds]]]]; try discriminate;
    cbn [all_chars] in Hd; repeat rewrite andb_true_iff in Hd;
    decompose [and] Hd; clear Hd;
    unfold year_group, Re.digit; cbn [append Re.run flat_map app map fst snd];
    repeat match goal with H : Str.is_digit _ = true |- _ =>
      rewrite H; clear H; cbn [append Re.run flat_map app map fst snd] end;
    change (Str.is_digit "-") with false;
    cbn [append Re.run flat_map app map fst snd]; reflexivity.
Qed.

Lemma year_led_short fmt ft ds rest :
  Datetime.pattern false fmt = Some (Re.Seq year_group (tail_of ft)) ->
  short_year ds = true ->
  Datetime.strptime (ds ++ String "-" rest) fmt = None.
Proof.
  intros Hp Hs. unfold Datetime.strptime, Re.match_. rewrite Hp.
  cbn [Re.run]. now rewrite (year_group_short _ _ Hs).
Qed.

Lemma slash_formats_fail_short ds rest :
  short_year ds = true ->
  forall fmt,
    In fmt ["%m/%d/%Y"; "%d/%m/%Y"; "%m/%d/%Y %H:%M:%S"] ->
    Datetime.strptime (ds ++ String "-" rest) fmt = None.
Proof.
  unfold short_year. rewrite !andb_true_iff. intros [[Hne Hlen] Hd] fmt Hf.
  destruct ds as [|d1 [|d2 [|d3 [|d4 ds]]]]; try discriminate;
    cbn [all_chars] in Hd; repeat rewrite andb_true_iff in Hd;
    decompose [and] Hd; clear Hd; cbn [append].
  - match goal with H : Str.is_digit d1 = true |- _ =>
      apply digit_in in H; unfold digit_chars in H; cbn [In] in H, Hf end.
    repeat match goal with H : _ \/ _ |- _ => destruct H as [H|H] end;
      try contradiction; subst; vm_compute; reflexivity.
  - repeat match goal with H : Str.is_digit _ = true |- _ =>
      apply digit_in in H; unfold digit_chars in H; cbn [In] in H end.
    cbn [In] in Hf.
    repeat match goal with H : _ \/ _ |- _ => destruct H as [H|H] end;
      try contradiction; subst; vm_compute; reflexivity.
  - now apply slash_formats_fail.
Qed.

Lemma short_year_unparsed ds rest fmt :
  short_year ds = true -> In fmt formats ->
  Datetime.strptime (ds ++ String "-" rest) fmt = None.
Proof.
  intros Hs Hf.
  assert (Hslash : forall f,
             In f ["%m/%d/%Y"; "%d/%m/%Y"; "%m/%d/%Y %H:%M:%S"] ->
             Datetime.strptime (ds ++ String "-" rest) f = None)
    by now apply slash_formats_fail_short.
  unfold formats in Hf. cbn [In] in Hf.
  destruct Hf as [<-|[<-|[<-|[<-|[<-|[<-|[<-|[<-|[]]]]]]]]].
  - now apply (year_led_short _ "-%m-%d").
  - apply Hslash. cbn. tauto.
  - apply Hslash. cbn. tauto.
  - now apply (year_led_short _ "/%m/%d").
  - now apply (year_led_short _ "-%m-%d %H:%M:%S").
  - apply Hslash. cbn. tauto.
  - now apply (year_led_short _ "-%m-%dT%H:%M:%S").
  - now apply (year_led_short _ "-%m-%dT%H:%M:%S.%f").
Qed.

Lemma short_year_shape ds rest :
  short_year ds = true -> is_ymd (ds ++ String "-" rest) = false.
Proof.
  unfold short_year. rewrite !andb_true_iff. intros [[Hne Hlen] Hd].
  destruct ds as [|d1 [|d2 [|d3 [|d4 ds]]]]; try discriminate;
    cbn [append is_ymd];
    repeat match goal with
      | |- match ?r with EmptyString => _ | String _ _ => _ end = _ =>
          destruct r; try reflexivity
      end;
    cbn [forallb]; change (Str.is_digit "-") with false;
    rewrite ?andb_false_r; reflexivity.
Qed.

Lemma strftime_short dt :
  Datetime.valid dt = true -> Datetime.year dt < 1000 ->
  exists ds rest,
    short_year ds = true
    /\ Datetime.strftime_ymd dt = ds ++ String "-" rest.
Proof.
  intros H Hy. destruct (valid_ranges dt H) as (Hy' & _).
  exists (Str.of_Z (Datetime.year dt)),
    (Datetime.pad 2 (Datetime.month dt) ++ "-"
     ++ Datetime.pad 2 (Datetime.day dt)).
  split; [apply year_text_short; lia | reflexivity].
Qed.

(** A year below 1000 comes out in a text that no format of the list
    parses, and that is not of the shape YYYY-MM-DD. *)
Lemma strftime_short_unparsed dt :
  Datetime.valid dt = true -> Datetime.year dt < 1000 ->
  (forall fmt,
      In fmt formats ->
      Datetime.strptime (Datetime.strftime_ymd dt) fmt = None)
  /\ is_ymd (Datetime.strftime_ymd dt) = false.
Proof.
  intros H Hy. destruct (strftime_short dt H Hy) as (ds & rest & Hs & ->).
  split; [|now apply short_year_shape].
  intros fmt Hf. now apply short_year_unparsed.
Qed.

(** C4. The claim fails on the code for a year below 1000.  The text
    [0999-01-15] parses under the first format, as 15 January 999, and
    [strftime] writes that date as [999-01-15]: the normaliser returns a
    text that is not of the shape YYYY-MM-DD, and the record of a document
    with this shipping date holds it. *)
Theorem date_year_below_1000_not_padded :
  Datetime.strptime "0999-01-15" "%Y-%m-%d" = Some (date 999 1 15)
  /\ _normalize_date "0999-01-15" = "999-01-15"
  /\ is_ymd (_normalize_date "0999-01-15") = false
  /\ dict_get "shipping_date"
       (parse_json_data example_now
          (JObj [("shipping_date", JStr "0999-01-15")]))
     = Some (JStr "999-01-15").
Proof. repeat split; vm_compute; reflexivity. Qed.

(** X25. Date normalisation tries the formats of the fixed list in order.
    The first format under which the string parses wins, and the result is
    the date it reads as [strftime] writes it: from the year 1000 on the
    date in the shape YYYY-MM-DD, below 1000 a text with a shorter year
    that is not of that shape.  When the string parses under no format it
    is returned unchanged.  The normaliser of the shipping date runs this
    on the trimmed text of a string value, and the document with dispatch
    date 01/25/2024 gets the shipping date 2024-01-25. *)
Theorem date_first_format_wins (date_str : string) :
  formats
  = [ "%Y-%m-%d"; "%m/%d/%Y"; "%d/%m/%Y"; "%Y/%m/%d"; "%Y-%m-%d %H:%M:%S";
      "%m/%d/%Y %H:%M:%S"; "%Y-%m-%dT%H:%M:%S"; "%Y-%m-%dT%H:%M:%S.%f" ]
  /\ (forall before fmt after dt,
         formats = (before ++ fmt :: after)%list ->
         (forall f, In f before -> Datetime.strptime date_str f = None) ->
         Datetime.strptime date_str fmt = Some dt ->
         _normalize_date date_str = Datetime.strftime_ymd dt
         /\ (1000 <= Datetime.year dt ->
             _normalize_date date_str = Datetime.iso_date dt
             /\ is_ymd (_normalize_date date_str) = true)
         /\ (Datetime.year dt < 1000 ->
             is_ymd (_normalize_date date_str) = false))
  /\ ((forall f, In f formats -> Datetime.strptime date_str f = None) ->
      _normalize_date date_str = date_str)
  /\ _normalize_value "shipping_date" (JStr date_str)
     = _normalize_date (Str.strip date_str)
  /\ dict_get "shipping_date" (parse_json_data example_now dispatch_doc)
     = Some (JStr "2024-01-25").
Proof.
  split; [reflexivity|]. split; [|split; [|split; reflexivity]].
  - intros before fmt after dt Hf Hbefore Hfmt.
    pose proof (strptime_valid _ _ _ Hfmt) as Hvalid.
    unfold _normalize_date.
    rewrite (try_formats_first _ _ before fmt after dt Hf Hbefore Hfmt).
    split; [reflexivity|]. split.
    + intros Hy. split; [now apply strftime_iso | now apply strftime_shape].
    + intros Hy. exact (proj2 (strftime_short_unparsed dt Hvalid Hy)).
  - intros Hnone. unfold _normalize_date.
    now rewrite (try_formats_none _ _ Hnone).
Qed.

Lemma date_first_format_wins_witness :
  _normalize_date "01/25/2024" = "2024-01-25"
  /\ _normalize_date "next week" = "next week".
Proof.
  split.
  - refine (proj1 (proj1 (proj2 (date_first_format_wins "01/25/2024"))
             ["%Y-%m-%d"] "%m/%d/%Y"
             ["%d/%m/%Y"; "%Y/%m/%d"; "%Y-%m-%d %H:%M:%S";
              "%m/%d/%Y %H:%M:%S"; "%Y-%m-%dT%H:%M:%S";
              "%Y-%m-%dT%H:%M:%S.%f"]
             (date 2024 1 25) eq_refl _ eq_refl)).
    intros f [<-|[]]. reflexivity.
  - apply (proj1 (proj2 (proj2 (date_first_format_wins "next week")))).
    intros f Hf. unfold formats in Hf. by_cases; reflexivity.
Defined.

(* ------------------------------------------------------------------ *)
(** ** The validator *)

Lemma fold_check_required data fields r :
  fold_left (check_required data) fields r
  = mk_report (is_valid r && forallb (present data) fields)
      (missing_required r ++ filter (fun f => negb (present data f)) fields)
      (found_fields r) (warnings r).
Proof.
  revert r. induction fields as [|f fields IH]; intros r; simpl.
  - rewrite andb_true_r, app_nil_r. now destruct r.
  - rewrite IH. unfold check_required.
    destruct (present data f); simpl; [reflexivity|].
    now rewrite andb_false_r, <- app_assoc.
Qed.

Lemma fold_check_found data fields r :
  fold_left (check_found data) fields r
  = mk_report (is_valid r) (missing_required r)
      (found_fields r ++ filter (present data) fields) (warnings r).
Proof.
  revert r. induction fields as [|f fields IH]; intros r; simpl.
  - rewrite app_nil_r. now destruct r.
  - rewrite IH. unfold check_found.
    destruct (present data f); simpl; [|reflexivity].
    now rewrite <- app_assoc.
Qed.

Lemma weight_warnings_returns F data r :
  canonical_record data ->
  exists r',
    weight_warnings F data r = Returned r'
    /\ same_findings r r'
    /\ (forall w, In w (warnings r) -> In w (warnings r'))
    /\ (forall s,
           dict_get "package_weight" data = Some (JStr s) ->
           float_of_str F s = None ->
           In "Package weight is not a valid number" (warnings r')).
Proof.
  intros Hcan. unfold weight_warnings, same_findings.
  assert (Hkeep : forall w0 w, In w (warnings r) ->
                    In w (warnings (add_warning w0 r)))
    by (intros w0 w Hw; apply in_or_app; now left).
  destruct (dict_get "package_weight" data) as [v|] eqn:E.
  - destruct (Hcan "package_weight" v) as [s ->]; [cbv; tauto | exact E |].
    cbn [py_float]. destruct (float_of_str F s) as [x|] eqn:Ef.
    + assert (Hvac : forall r' s',
                 Some (JStr s) = Some (JStr s') ->
                 float_of_str F s' = None ->
                 In "Package weight is not a valid number" (warnings r'))
        by (intros r' s' [= <-]; congruence).
      destruct (float_le_0 F x); [|destruct (float_gt_1000 F x)];
        eexists; (split; [reflexivity|]);
        (split; [now repeat split|]); (split; [|apply Hvac]);
        first [apply Hkeep | trivial].
    + eexists. split; [reflexivity|]. split; [now repeat split|].
      split; [apply Hkeep|].
      intros _ _ _. apply in_or_app. right. now left.
  - exists r. split; [reflexivity|]. split; [now repeat split|].
    split; [trivial | discriminate].
Qed.

Lemma date_warnings_returns now data r :
  canonical_record data ->
  exists r',
    date_warnings now data r = Returned r'
    /\ same_findings r r'
    /\ (forall w, In w (warnings r) -> In w (warnings r'))
    /\ (forall s,
           dict_get "shipping_date" data = Some (JStr s) ->
           Datetime.strptime s "%Y-%m-%d" = None ->
           In "Shipping date format is invalid" (warnings r')).
Proof.
  intros Hcan. unfold date_warnings, same_findings.
  assert (Hkeep : forall w0 w, In w (warnings r) ->
                    In w (warnings (add_warning w0 r)))
    by (intros w0 w Hw; apply in_or_app; now left).
  destruct (dict_get "shipping_date" data) as [v|] eqn:E.
  - destruct (Hcan "shipping_date" v) as [s ->]; [cbv; tauto | exact E |].
    destruct (Datetime.strptime s "%Y-%m-%d") as [dt|] eqn:Ed.
    + assert (Hvac : forall r' s',
                 Some (JStr s) = Some (JStr s') ->
                 Datetime.strptime s' "%Y-%m-%d" = None ->
                 In "Shipping date format is invalid" (warnings r'))
        by (intros r' s' [= <-]; congruence).
      destruct (Datetime.ltb dt now);
        eexists; (split; [reflexivity|]);
        (split; [now repeat split|]); (split; [|apply Hvac]);
        first [apply Hkeep | trivial].
    + eexists. split; [reflexivity|]. split; [now repeat split|].
      split; [apply Hkeep|].
      intros _ _ _. apply in_or_app. right. now left.
  - exists r. split; [reflexivity|]. split; [now repeat split|].
    split; [trivial | discriminate].
Qed.

(** On a canonical record the validator returns, and the three lists of
    findings are those of the two loops. *)
Lemma validate_returns F now data :
  canonical_record data ->
  exists r,
    validate_parsed_data F now data = Returned r
    /\ is_valid r = forallb (present data) required_fields
    /\ missing_required r
       = filter (fun f => negb (present data f)) required_fields
    /\ found_fields r = filter (present data) canonical_fields
    /\ (forall s,
           dict_get "package_weight" data = Some (JStr s) ->
           float_of_str F s = None ->
           In "Package weight is not a valid number" (warnings r))
    /\ (forall s,
           dict_get "shipping_date" data = Some (JStr s) ->
           Datetime.strptime s "%Y-%m-%d" = None ->
           In "Shipping date format is invalid" (warnings r)).
Proof.
  intros Hcan. unfold validate_parsed_data.
  rewrite fold_check_required, fold_check_found.
  cbn [is_valid missing_required found_fields warnings app].
  match goal with |- context [weight_warnings F data ?r0] =>
    destruct (weight_warnings_returns F data r0 Hcan)
      as (r1 & -> & (Hv1 & Hm1 & Hf1) & Hw1 & Hweight) end.
  destruct (date_warnings_returns now data r1 Hcan)
    as (r2 & -> & (Hv2 & Hm2 & Hf2) & Hw2 & Hdate).
  exists r2. split; [reflexivity|].
  rewrite Hv2, Hv1, Hm2, Hm1, Hf2, Hf1.
  cbn [is_valid missing_required found_fields].
  repeat split; trivial.
  intros s Hs Hnone. apply Hw2. now apply (Hweight s).
Qed.

Lemma present_has_value data field :
  canonical_record data ->
  In field canonical_fields ->
  (present data field = true <-> has_value data field).
Proof.
  intros Hcan Hf. unfold present, has_value.
  destruct (dict_get field data) as [v|] eqn:E.
  - destruct (Hcan field v Hf E) as [s ->]. cbn [truthy]. split.
    + intros H. exists s. split; [reflexivity|].
      intros ->. discriminate.
    + intros (s' & [= <-] & Hne). destruct s; [now elim Hne | reflexivity].
  - split; [discriminate | intros (s & Hs & _); discriminate].
Qed.

Lemma required_canonical field :
  In field required_fields -> In field canonical_fields.
Proof. intros H. cbv in H. cbv. tauto. Qed.

Lemma parse_output_canonical now data :
  canonical_record (parse_json_data now data).
Proof.
  intros field v Hf Hget. rewrite (parse_get now data field Hf) in Hget.
  destruct (is_not_none _); [|discriminate].
  injection Hget as <-. now eexists.
Qed.

Lemma undated_record_canonical : canonical_record undated_record.
Proof.
  intros field v Hf Hget. cbv in Hf.
  repeat (destruct Hf as [<-|Hf];
          [cbv in Hget; first [discriminate
                              | injection Hget as <-; now eexists]|]).
  destruct Hf.
Qed.

(** C6. On a canonical record the report has [is_valid = false] exactly
    when a required field (shipper name, recipient name, package weight,
    shipping date) is missing or empty; [missing_required] lists exactly
    those required fields, in order; [found_fields] lists exactly the
    canonical fields present with a value that is not empty, in table
    order.  A record without a shipping date is not valid and names the
    shipping date among the missing fields. *)
Theorem validation_findings (F : float_ops) (now : Datetime.t)
    (data : dict json) :
  canonical_record data ->
  exists r,
    validate_parsed_data F now data = Returned r
    /\ (is_valid r = false
        <-> exists f, In f required_fields /\ ~ has_value data f)
    /\ (forall f,
           In f (missing_required r)
           <-> In f required_fields /\ ~ has_value data f)
    /\ missing_required r
       = filter (fun f => negb (present data f)) required_fields
    /\ (forall f,
           In f (found_fields r)
           <-> In f canonical_fields /\ has_value data f)
    /\ found_fields r = filter (present data) canonical_fields
    /\ (dict_get "shipping_date" data = None ->
        is_valid r = false /\ In "shipping_date" (missing_required r)).
Proof.
  intros Hcan.
  destruct (validate_returns F now data Hcan)
    as (r & Hret & Hvalid & Hmissing & Hfound & _).
  assert (Hmiss : forall f,
             In f (missing_required r)
             <-> In f required_fields /\ ~ has_value data f).
  { intros f. rewrite Hmissing, filter_In. split.
    - intros [Hf Hp]. split; [exact Hf|].
      rewrite <- (present_has_value data f Hcan (required_canonical f Hf)).
      apply negb_true_iff in Hp. congruence.
    - intros [Hf Hp]. split; [exact Hf|]. apply negb_true_iff.
      rewrite <- (present_has_value data f Hcan (required_canonical f Hf))
        in Hp.
      now destruct (present data f). }
  assert (Hinvalid : is_valid r = false
             <-> exists f, In f required_fields /\ ~ has_value data f).
  { rewrite Hvalid. split.
    - intros H.
      destruct (forallb (present data) required_fields) eqn:E0;
        [discriminate|]. clear H.
      assert (Hex : exists f, In f required_fields
                              /\ present data f = false).
      { revert E0. generalize required_fields.
        induction l as [|f l IH]; simpl; [discriminate|].
        destruct (present data f) eqn:Ep.
        - intros H. destruct (IH H) as (f' & Hin & Hp').
          exists f'. split; [now right | exact Hp'].
        - intros _. exists f. split; [now left | exact Ep]. }
      destruct Hex as (f & Hf & Hp). exists f. split; [exact Hf|].
      rewrite <- (present_has_value data f Hcan (required_canonical f Hf)).
      congruence.
    - intros (f & Hf & Hp).
      destruct (forallb (present data) required_fields) eqn:E0;
        [|reflexivity].
      rewrite forallb_forall in E0. exfalso. apply Hp.
      apply (present_has_value data f Hcan (required_canonical f Hf)).
      now apply E0. }
  exists r. split; [exact Hret|]. split; [exact Hinvalid|].
  split; [exact Hmiss|]. split; [exact Hmissing|].
  split; [|split; [exact Hfound|]].
  - intros f. rewrite Hfound, filter_In. split.
    + intros [Hf Hp]. split; [exact Hf|].
      now apply (present_has_value data f Hcan Hf).
    + intros [Hf Hp]. split; [exact Hf|].
      now apply (present_has_value data f Hcan Hf).
  - intros Hnone.
    assert (Hno : In "shipping_date" required_fields
                  /\ ~ has_value data "shipping_date").
    { split; [cbv; tauto|]. intros (s & Hs & _). congruence. }
    split; [apply Hinvalid; now exists "shipping_date" | now apply Hmiss].
Qed.

Lemma validation_findings_witness :
  exists r,
    validate_parsed_data DecimalFloat.ops example_now undated_record
    = Returned r
    /\ is_valid r = false
    /\ missing_required r
       = ["recipient_name"; "shipping_date"]
    /\ found_fields r = ["shipper_name"; "package_weight"; "tracking_number"].
Proof.
  destruct (validation_findings DecimalFloat.ops example_now undated_record
              undated_record_canonical)
    as (r & Hret & _ & _ & Hmissing & _ & Hfound & Hdate).
  exists r. split; [exact Hret|]. split; [now apply Hdate|].
  split; [exact Hmissing | exact Hfound].
Defined.

(** C7. Given a canonical record the validator returns a report and raises
    nothing: a weight that is not a number and a date that does not parse
    become warnings, a required field that is missing or empty becomes an
    entry of [missing_required].  Every record the parse pipeline builds is
    canonical. *)
Theorem validator_never_raises (F : float_ops) (now : Datetime.t)
    (data : dict json) :
  canonical_record data ->
  (exists r,
      validate_parsed_data F now data = Returned r
      /\ (forall s,
             dict_get "package_weight" data = Some (JStr s) ->
             float_of_str F s = None ->
             In "Package weight is not a valid number" (warnings r))
      /\ (forall s,
             dict_get "shipping_date" data = Some (JStr s) ->
             Datetime.strptime s "%Y-%m-%d" = None ->
             In "Shipping date format is invalid" (warnings r))
      /\ (forall f,
             In f required_fields -> ~ has_value data f ->
             In f (missing_required r)))
  /\ (forall now' doc, exists r,
         validate_parsed_data F now (parse_json_data now' doc) = Returned r).
Proof.
  intros Hcan. split.
  - destruct (validate_returns F now data Hcan)
      as (r & Hret & _ & Hmissing & _ & Hweight & Hdate).
    exists r. repeat split; trivial.
    intros f Hf Hno. rewrite Hmissing. apply filter_In. split; [exact Hf|].
    apply negb_true_iff.
    rewrite <- (present_has_value data f Hcan (required_canonical f Hf))
      in Hno.
    now destruct (present data f).
  - intros now' doc.
    destruct (validate_returns F now (parse_json_data now' doc)
                (parse_output_canonical now' doc)) as (r & Hret & _).
    now exists r.
Qed.

Lemma validator_never_raises_witness :
  exists r,
    validate_parsed_data DecimalFloat.ops example_now undated_record
    = Returned r
    /\ In "Package weight is not a valid number" (warnings r)
    /\ In "recipient_name" (missing_required r).
Proof.
  destruct (proj1 (validator_never_raises DecimalFloat.ops example_now
                     undated_record undated_record_canonical))
    as (r & Hret & Hweight & _ & Hmissing).
  exists r. split; [exact Hret|]. split.
  - apply (Hweight "heavy"); reflexivity.
  - apply Hmissing; [cbv; tauto|].
    intros (s & Hs & Hne). cbv in Hs. injection Hs as <-. now apply Hne.
Defined.

(* ------------------------------------------------------------------ *)
(** ** Trimming *)

Lemma lstrip_length s : (String.length (Str.lstrip s) <= String.length s)%nat.
Proof.
  induction s as [|c s IH]; cbn [Str.lstrip]; [lia|].
  destruct (Str.is_space c); cbn [String.length]; lia.
Qed.

Lemma rstrip_length s : (String.length (Str.rstrip s) <= String.length s)%nat.
Proof.
  induction s as [|c s IH]; cbn [Str.rstrip]; [lia|].
  destruct (Str.rstrip s); [destruct (Str.is_space c)|];
    cbn [String.length] in *; lia.
Qed.

Lemma lstrip_fixed s :
  Str.lstrip s = s <-> not_headed_by Str.is_space s = true.
Proof.
  destruct s as [|c s]; cbn [Str.lstrip not_headed_by]; [tauto|].
  destruct (Str.is_space c) eqn:E; cbn [negb]; [|tauto].
  split; [|discriminate]. intros H.
  pose proof (lstrip_length s) as L. rewrite H in L.
  cbn [String.length] in L. lia.
Qed.

Lemma trimmed_parts s :
  trimmed s -> Str.lstrip s = s /\ Str.rstrip s = s.
Proof.
  unfold trimmed, Str.strip. intros H.
  assert (L : String.length (Str.lstrip s) = String.length s).
  { pose proof (lstrip_length s). pose proof (rstrip_length (Str.lstrip s)).
    rewrite H in *. lia. }
  assert (Hl : Str.lstrip s = s).
  { destruct s as [|c s]; [reflexivity|]. cbn [Str.lstrip] in *.
    destruct (Str.is_space c); [|reflexivity].
    pose proof (lstrip_length s). cbn [String.length] in L. lia. }
  split; [exact Hl|]. now rewrite Hl in H.
Qed.

Lemma rstrip_app a b :
  b <> "" -> Str.rstrip b = b -> Str.rstrip (a ++ b) = a ++ b.
Proof.
  intros Hne Hb. induction a as [|c a IH]; [exact Hb|].
  cbn [append Str.rstrip]. rewrite IH.
  destruct (a ++ b) eqn:E; [|reflexivity].
  destruct a; [now elim Hne | discriminate].
Qed.

Lemma rstrip_no_space s :
  all_chars (fun c => negb (Str.is_space c)) s = true -> Str.rstrip s = s.
Proof.
  induction s as [|c s IH]; [reflexivity|]. cbn [all_chars Str.rstrip].
  rewrite andb_true_iff, negb_true_iff. intros [Hc Hs].
  rewrite (IH Hs). destruct s; [now rewrite Hc | reflexivity].
Qed.

Lemma strip_no_space s :
  all_chars (fun c => negb (Str.is_space c)) s = true -> trimmed s.
Proof.
  intros H. unfold trimmed, Str.strip.
  assert (Hl : Str.lstrip s = s).
  { apply lstrip_fixed. destruct s as [|c s]; [reflexivity|].
    cbn [all_chars] in H. apply andb_true_iff in H. apply H. }
  rewrite Hl. now apply rstrip_no_space.
Qed.

Lemma all_chars_impl (p q : ascii -> bool) s :
  (forall c, p c = true -> q c = true) ->
  all_chars p s = true -> all_chars q s = true.
Proof.
  intros Hpq. induction s as [|c s IH]; [reflexivity|]. cbn [all_chars].
  rewrite !andb_true_iff. intros [Hc Hs]. split; [now apply Hpq | now apply IH].
Qed.

Lemma all_chars_app p a b :
  all_chars p (a ++ b) = all_chars p a && all_chars p b.
Proof.
  induction a as [|c a IH]; [reflexivity|]. cbn [append all_chars].
  now rewrite IH, andb_assoc.
Qed.

Lemma digit_or_point_not_space c :
  Str.is_digit c || is_point c = true -> negb (Str.is_space c) = true.
Proof.
  destruct c as [[] [] [] [] [] [] [] []]; cbv; congruence.
Qed.

Lemma digit_or_dash_not_space c :
  Str.is_digit c || Ascii.eqb c "-" = true -> negb (Str.is_space c) = true.
Proof.
  destruct c as [[] [] [] [] [] [] [] []]; cbv; congruence.
Qed.

(* ------------------------------------------------------------------ *)
(** ** Canonical weights and dates are left as they are *)

Lemma canonical_weight_fixed s :
  canonical_weight s -> _normalize_value "package_weight" (JStr s) = s.
Proof.
  intros (ds & fs & Hne & Hds & Hfs & Hs).
  assert (Hdp : forall t, all_chars Str.is_digit t = true ->
                  all_chars (fun c => Str.is_digit c || is_point c) t = true).
  { intros t. apply all_chars_impl. intros c ->. reflexivity. }
  assert (Htrim : trimmed s).
  { apply strip_no_space.
    apply (all_chars_impl (fun c => Str.is_digit c || is_point c));
      [exact digit_or_point_not_space|].
    destruct Hs as [->| ->]; [now apply Hdp|].
    rewrite !all_chars_app, (Hdp _ Hds), (Hdp _ Hfs). reflexivity. }
  rewrite normalize_weight by discriminate. cbn [PyStr.str].
  rewrite Htrim.
  assert (Hfound : weight_search s = Some s).
  { apply weight_search_here. destruct Hs as [->| ->].
    - rewrite <- (append_empty_r ds) at 1.
      now apply weight_match_integer.
    - rewrite <- (append_empty_r fs) at 1.
      now rewrite (weight_match_decimal ds fs "" Hne Hds Hfs eq_refl). }
  now rewrite Hfound.
Qed.

Lemma is_ymd_trimmed s : is_ymd s = true -> trimmed s.
Proof.
  intros H. apply strip_no_space.
  apply (all_chars_impl (fun c => Str.is_digit c || Ascii.eqb c "-"));
    [exact digit_or_dash_not_space|].
  unfold is_ymd in H.
  do 10 (destruct s as [|? s]; [discriminate|]).
  destruct s; [|discriminate].
  cbn [forallb] in H. repeat rewrite andb_true_iff in H.
  rewrite !Ascii.eqb_eq in H. decompose [and] H. subst.
  cbn [all_chars].
  repeat match goal with H : Str.is_digit _ = true |- _ =>
    rewrite H; clear H end.
  reflexivity.
Qed.

Lemma canonical_date_fixed s :
  canonical_date s -> _normalize_value "shipping_date" (JStr s) = s.
Proof.
  unfold canonical_date. intros H. apply andb_true_iff in H.
  destruct H as [H Hlead].
  rewrite normalize_date_value, (is_ymd_trimmed _ H).
  now apply ymd_shape_fixed.
Qed.

(** The decimal text of a number is made of digits. *)
Lemma digit_char_digit n : (n < 10)%N -> Str.is_digit (Str.digit_char n) = true.
Proof.
  intros H.
  assert (Hn : n = 0%N \/ n = 1%N \/ n = 2%N \/ n = 3%N \/ n = 4%N
               \/ n = 5%N \/ n = 6%N \/ n = 7%N \/ n = 8%N \/ n = 9%N)
    by lia.
  repeat (destruct Hn as [->|Hn]; [reflexivity|]). now subst.
Qed.

Lemma digits_fuel_digits fuel n acc :
  all_chars Str.is_digit acc = true ->
  all_chars Str.is_digit (Str.digits_fuel fuel n acc) = true.
Proof.
  revert n acc. induction fuel as [|fuel IH]; intros n acc Hacc;
    cbn [Str.digits_fuel]; [exact Hacc|].
  assert (Hacc' : all_chars Str.is_digit
                    (String (Str.digit_char (n mod 10)) acc) = true).
  { cbn [all_chars]. rewrite Hacc, digit_char_digit; [reflexivity|].
    apply N.mod_lt. discriminate. }
  destruct (n <? 10)%N; [exact Hacc' | now apply IH].
Qed.

Lemma digits_fuel_nonempty fuel n acc :
  acc <> "" -> Str.digits_fuel fuel n acc <> "".
Proof.
  revert n acc. induction fuel as [|fuel IH]; intros n acc Hacc;
    cbn [Str.digits_fuel]; [exact Hacc|].
  destruct (n <? 10)%N; [discriminate | apply IH; discriminate].
Qed.

Lemma of_N_digits n :
  all_chars Str.is_digit (Str.of_N n) = true /\ Str.of_N n <> "".
Proof.
  unfold Str.of_N. split.
  - now apply digits_fuel_digits.
  - cbn [Str.digits_fuel].
    destruct (n <? 10)%N; [discriminate|].
    apply digits_fuel_nonempty. discriminate.
Qed.

(** What [strftime] writes is made of digits and dashes. *)
Lemma strftime_chars dt :
  Datetime.valid dt = true ->
  all_chars (fun c => Str.is_digit c || Ascii.eqb c "-")
    (Datetime.strftime_ymd dt) = true.
Proof.
  intros H. destruct (valid_ranges dt H) as (Hy & Hm & Hd).
  assert (Hdigits : forall t,
             all_chars Str.is_digit t = true ->
             all_chars (fun c => Str.is_digit c || Ascii.eqb c "-") t = true).
  { intros t. apply all_chars_impl. intros c Hc. now rewrite Hc. }
  assert (Hpad : forall n,
             1 <= n <= 31 ->
             all_chars Str.is_digit (Datetime.pad 2 n) = true).
  { intros n Hn. pose proof (pad2_small n Hn) as Hp. unfold digits_n in Hp.
    apply andb_true_iff in Hp. apply Hp. }
  unfold Datetime.strftime_ymd. rewrite !all_chars_app.
  rewrite (Hdigits (Datetime.pad 2 (Datetime.month dt))) by (apply Hpad; lia).
  rewrite (Hdigits (Datetime.pad 2 (Datetime.day dt))) by (apply Hpad; lia).
  rewrite Hdigits; [reflexivity|].
  destruct (Datetime.year dt) as [|p|p]; try lia.
  apply (of_N_digits (Npos p)).
Qed.

Lemma strftime_trimmed dt :
  Datetime.valid dt = true -> trimmed (Datetime.strftime_ymd dt).
Proof.
  intros H. apply strip_no_space.
  generalize (strftime_chars dt H). apply all_chars_impl.
  intros c. apply digit_or_dash_not_space.
Qed.

(** What [strftime] writes comes back unchanged from the normaliser: from
    the year 1000 on it parses under the first format to the same date,
    below it parses under no format. *)
Lemma strftime_fixed dt :
  Datetime.valid dt = true ->
  _normalize_date (Datetime.strftime_ymd dt) = Datetime.strftime_ymd dt.
Proof.
  intros H. destruct (valid_ranges dt H) as (Hy & _).
  destruct (Z.ltb_spec (Datetime.year dt) 1000) as [Hshort|Hlong].
  - unfold _normalize_date. rewrite try_formats_none; [reflexivity|].
    exact (proj1 (strftime_short_unparsed dt H Hshort)).
  - apply ymd_shape_fixed; [now apply strftime_shape|].
    pose proof (year_text_leads (Datetime.year dt) ltac:(lia)) as Hl.
    unfold Datetime.strftime_ymd, leads in *.
    destruct (Str.of_Z (Datetime.year dt)) as [|c t]; [discriminate|].
    exact Hl.
Qed.

Lemma try_formats_output s r :
  try_formats formats s = Some r ->
  exists dt, Datetime.valid dt = true /\ r = Datetime.strftime_ymd dt.
Proof.
  intros H. apply for_return_some in H.
  destruct H as (before & fmt & after & _ & _ & H).
  destruct (Datetime.strptime s fmt) as [dt|] eqn:E; [|discriminate].
  injection H as <-. exists dt. split; [|reflexivity].
  exact (strptime_valid _ _ _ E).
Qed.

Lemma try_formats_fixed s r :
  try_formats formats s = Some r ->
  _normalize_value "shipping_date" (JStr r) = r.
Proof.
  intros H. destruct (try_formats_output s r H) as (dt & Hvalid & ->).
  rewrite normalize_date_value, (strftime_trimmed dt Hvalid).
  now apply strftime_fixed.
Qed.

(* ------------------------------------------------------------------ *)
(** ** Canonical addresses are left as they are *)

Lemma replace_char_absent a b s :
  all_chars (fun c => negb (Ascii.eqb c a)) s = true ->
  Str.replace_char a b s = s.
Proof.
  induction s as [|c s IH]; [reflexivity|]. cbn [all_chars Str.replace_char].
  rewrite andb_true_iff, negb_true_iff. intros [-> Hs]. now rewrite (IH Hs).
Qed.

Lemma split_absent sep l :
  all_chars (fun c => negb (Ascii.eqb c sep)) l = true ->
  Str.split sep l = [l].
Proof.
  induction l as [|c l IH]; [reflexivity|]. cbn [all_chars Str.split].
  rewrite andb_true_iff, negb_true_iff. intros [-> Hl]. now rewrite (IH Hl).
Qed.

Lemma split_app sep l rest :
  all_chars (fun c => negb (Ascii.eqb c sep)) l = true ->
  Str.split sep (l ++ String sep rest) = l :: Str.split sep rest.
Proof.
  induction l as [|c l IH]; cbn [append all_chars Str.split].
  - now rewrite Ascii.eqb_refl.
  - rewrite andb_true_iff, negb_true_iff. intros [-> Hl]. now rewrite (IH Hl).
Qed.

Lemma join_cons sep l l' rest :
  Str.join sep (l :: l' :: rest) = l ++ sep ++ Str.join sep (l' :: rest).
Proof. reflexivity. Qed.

Lemma split_join lines :
  lines <> [] ->
  Forall (fun l => all_chars (fun c => negb (Ascii.eqb c newline)) l = true)
    lines ->
  Str.split newline (Str.join (String newline EmptyString) lines) = lines.
Proof.
  intros Hne H. induction H as [|l rest Hl Hrest IH]; [now elim Hne|].
  destruct rest as [|l' rest]; [now apply split_absent|].
  rewrite join_cons. cbn [append]. rewrite (split_app _ _ _ Hl).
  now rewrite IH.
Qed.

Lemma all_chars_join p sep lines :
  all_chars p sep = true ->
  Forall (fun l => all_chars p l = true) lines ->
  all_chars p (Str.join sep lines) = true.
Proof.
  intros Hsep H. induction H as [|l rest Hl Hrest IH]; [reflexivity|].
  destruct rest as [|l' rest]; [exact Hl|].
  now rewrite join_cons, !all_chars_app, Hl, Hsep, IH.
Qed.

Lemma join_not_empty sep l rest : l <> "" -> Str.join sep (l :: rest) <> "".
Proof.
  intros Hne. destruct rest as [|l' rest]; [exact Hne|].
  rewrite join_cons. destruct l; [now elim Hne | discriminate].
Qed.

Lemma join_trimmed lines :
  Forall address_line lines ->
  trimmed (Str.join (String newline EmptyString) lines).
Proof.
  intros H. destruct H as [|l rest Hl Hrest]; [reflexivity|].
  unfold trimmed, Str.strip.
  assert (Hhead : Str.lstrip (Str.join (String newline "") (l :: rest))
                  = Str.join (String newline "") (l :: rest)).
  { apply lstrip_fixed. destruct Hl as (Hne & Ht & _).
    apply trimmed_parts in Ht. destruct Ht as [Ht _].
    apply lstrip_fixed in Ht.
    destruct rest as [|l' rest]; [exact Ht|].
    rewrite join_cons. destruct l; [now elim Hne | exact Ht]. }
  rewrite Hhead. clear Hhead.
  revert l Hl. induction Hrest as [|l' rest Hl' Hrest IH]; intros l Hl.
  - destruct Hl as (_ & Ht & _). now apply trimmed_parts in Ht.
  - rewrite join_cons, <- append_assoc. apply rstrip_app.
    + apply join_not_empty. apply Hl'.
    + now apply IH.
Qed.

Lemma address_lines_kept lines :
  Forall address_line lines ->
  map Str.strip
    (filter (fun line => negb (Str.is_empty (Str.strip line))) lines)
  = lines.
Proof.
  intros H. induction H as [|l rest (Hne & Ht & _) Hrest IH]; [reflexivity|].
  cbn [filter]. rewrite Ht.
  destruct l; [now elim Hne|]. cbn [Str.is_empty negb map].
  now rewrite Ht, IH.
Qed.

Lemma separator_free (sep : ascii) l :
  is_separator sep = true ->
  all_chars (fun c => negb (is_separator c)) l = true ->
  all_chars (fun c => negb (Ascii.eqb c sep)) l = true.
Proof.
  intros Hsep. apply all_chars_impl. intros c Hc.
  apply negb_true_iff. apply negb_true_iff in Hc.
  destruct (Ascii.eqb c sep) eqn:E; [|reflexivity].
  apply Ascii.eqb_eq in E. congruence.
Qed.

Lemma normalize_address_fixed s :
  canonical_address s -> _normalize_address (Str.strip s) = s.
Proof.
  intros (lines & Hlines & ->).
  rewrite (join_trimmed lines Hlines).
  destruct lines as [|l rest]; [reflexivity|].
  assert (Hfree : forall sep, is_separator sep = true ->
            sep <> newline ->
            all_chars (fun c => negb (Ascii.eqb c sep))
              (Str.join (String newline "") (l :: rest)) = true).
  { intros sep Hsep Hnl. apply all_chars_join.
    - cbn [all_chars]. rewrite andb_true_r. apply negb_true_iff.
      apply Ascii.eqb_neq. congruence.
    - eapply Forall_impl; [|exact Hlines].
      intros l0 (_ & _ & H0). now apply separator_free. }
  unfold _normalize_address.
  rewrite (replace_char_absent "|") by (apply Hfree; [reflexivity|discriminate]).
  rewrite (replace_char_absent ";") by (apply Hfree; [reflexivity|discriminate]).
  rewrite split_join.
  - now rewrite (address_lines_kept _ Hlines).
  - discriminate.
  - eapply Forall_impl; [|exact Hlines].
    intros l0 (_ & _ & H0). now apply separator_free.
Qed.

(** Normalising a value that is in the canonical form of its field gives
    the value back. *)
Lemma canonical_value_fixed field s :
  canonical_value field s -> _normalize_value field (JStr s) = s.
Proof.
  unfold canonical_value.
  destruct (String.eqb field "package_weight") eqn:Ew.
  { apply String.eqb_eq in Ew. subst. apply canonical_weight_fixed. }
  destruct (String.eqb field "shipping_date") eqn:Ed.
  { apply String.eqb_eq in Ed. subst. apply canonical_date_fixed. }
  cbn [_normalize_value PyStr.str]. rewrite Ew, Ed.
  destruct (String.eqb field "shipper_address"
            || String.eqb field "recipient_address").
  - apply normalize_address_fixed.
  - intros H. exact H.
Qed.

(* ------------------------------------------------------------------ *)
(** ** Flat documents *)

Lemma dict_set_fresh {V : Type} (d : dict V) k v :
  ~ In k (dict_keys d) -> dict_set k v d = (d ++ [(k, v)])%list.
Proof.
  induction d as [|[k0 w] d IH]; simpl; intros H; [reflexivity|].
  destruct (String.eqb k k0) eqn:E.
  - apply String.eqb_eq in E. subst. exfalso. apply H. now left.
  - rewrite IH; [reflexivity|]. intros H'. apply H. now right.
Qed.

Lemma fold_dict_set_fresh {V : Type} (items d : dict V) :
  wf_dict (d ++ items)%list ->
  fold_left (fun d kv => dict_set (fst kv) (snd kv) d) items d
  = (d ++ items)%list.
Proof.
  revert d. induction items as [|[k v] items IH]; intros d Hwf; simpl.
  - now rewrite app_nil_r.
  - assert (Hwf' : wf_dict ((d ++ [(k, v)]) ++ items)%list)
      by (rewrite <- app_assoc; exact Hwf).
    rewrite dict_set_fresh.
    + rewrite (IH _ Hwf'), <- app_assoc. reflexivity.
    + unfold wf_dict, dict_keys in Hwf. rewrite map_app in Hwf.
      apply NoDup_remove_2 in Hwf. intros Hin. apply Hwf.
      apply in_or_app. now left.
Qed.

Lemma dict_of_items_wf_id {V : Type} (items : dict V) :
  wf_dict items -> dict_of_items items = items.
Proof. intros H. exact (fold_dict_set_fresh items [] H). Qed.

(** Flattening a flat document of strings gives its entries back. *)
Lemma flatten_flat entries :
  wf_dict entries -> flat_strings entries ->
  flatten (JObj entries) = entries.
Proof.
  intros Hwf Hflat. unfold flatten. cbn [_flatten_json].
  match goal with |- dict_of_items ?items = _ =>
    assert (Hitems : items = entries) end.
  { clear Hwf. induction entries as [|[k v] entries IH]; [reflexivity|].
    destruct (Hflat k v (or_introl eq_refl)) as [s ->].
    cbn [new_key Str.is_empty app]. f_equal. apply IH.
    intros k' v' Hin. apply (Hflat k' v'). now right. }
  rewrite Hitems. now apply dict_of_items_wf_id.
Qed.

(* ------------------------------------------------------------------ *)
(** ** Normalising twice *)

Lemma rstrip_cons c s :
  Str.rstrip (String c s)
  = match Str.rstrip s with
    | EmptyString => if Str.is_space c then EmptyString else String c EmptyString
    | r => String c r
    end.
Proof. reflexivity. Qed.

Lemma rstrip_idem s : Str.rstrip (Str.rstrip s) = Str.rstrip s.
Proof.
  induction s as [|c s IH]; [reflexivity|]. rewrite rstrip_cons.
  destruct (Str.rstrip s) as [|r0 r] eqn:E.
  - destruct (Str.is_space c) eqn:Ec; [reflexivity|].
    rewrite rstrip_cons. cbn [Str.rstrip]. now rewrite Ec.
  - rewrite rstrip_cons, IH. reflexivity.
Qed.

Lemma lstrip_headed s : not_headed_by Str.is_space (Str.lstrip s) = true.
Proof.
  induction s as [|c s IH]; [reflexivity|]. cbn [Str.lstrip].
  destruct (Str.is_space c) eqn:E; [exact IH|].
  cbn [not_headed_by]. now rewrite E.
Qed.

Lemma rstrip_headed s :
  not_headed_by Str.is_space s = true ->
  not_headed_by Str.is_space (Str.rstrip s) = true.
Proof.
  destruct s as [|c s]; [reflexivity|]. cbn [not_headed_by Str.rstrip].
  intros H. apply negb_true_iff in H.
  destruct (Str.rstrip s); [rewrite H|]; cbn [not_headed_by];
    now rewrite H.
Qed.

Lemma strip_idem s : trimmed (Str.strip s).
Proof.
  unfold trimmed, Str.strip.
  rewrite (proj2 (lstrip_fixed _) (rstrip_headed _ (lstrip_headed s))).
  apply rstrip_idem.
Qed.

Lemma lstrip_all_chars p s :
  all_chars p s = true -> all_chars p (Str.lstrip s) = true.
Proof.
  induction s as [|c s IH]; [reflexivity|]. cbn [Str.lstrip].
  destruct (Str.is_space c); [|tauto]. cbn [all_chars].
  rewrite andb_true_iff. intros [_ H]. now apply IH.
Qed.

Lemma rstrip_all_chars p s :
  all_chars p s = true -> all_chars p (Str.rstrip s) = true.
Proof.
  induction s as [|c s IH]; [reflexivity|]. cbn [Str.rstrip all_chars].
  rewrite andb_true_iff. intros [Hc Hs]. specialize (IH Hs).
  destruct (Str.rstrip s); [destruct (Str.is_space c)|];
    cbn [all_chars] in *; now rewrite ?Hc, ?IH.
Qed.

Lemma strip_all_chars p s :
  all_chars p s = true -> all_chars p (Str.strip s) = true.
Proof. intros H. now apply rstrip_all_chars, lstrip_all_chars. Qed.

Lemma span_digits_digits s :
  all_chars Str.is_digit (fst (span_digits s)) = true.
Proof.
  induction s as [|c s IH]; [reflexivity|]. cbn [span_digits].
  destruct (Str.is_digit c) eqn:E; [|reflexivity].
  destruct (span_digits s) as [ds rest]. cbn [fst all_chars] in *.
  now rewrite E, IH.
Qed.

(** What the weight pattern matches is a bare numeric token. *)
Lemma weight_match_canonical s m :
  weight_match_here s = Some m -> canonical_weight m.
Proof.
  unfold weight_match_here. pose proof (span_digits_digits s) as Hds.
  destruct (span_digits s) as [ds rest]. cbn [fst] in Hds.
  destruct ds as [|d ds]; [discriminate|].
  assert (Hint : canonical_weight (String d ds)).
  { exists (String d ds), "". repeat split; trivial; [discriminate|now left]. }
  destruct rest as [|c rest]; [now intros [= <-]|].
  destruct (Ascii.eqb c ".") eqn:E.
  - apply Ascii.eqb_eq in E. subst c. intros [= <-].
    exists (String d ds), (fst (span_digits rest)).
    repeat split; trivial; [discriminate | apply span_digits_digits
                           | now right].
  - apply Ascii.eqb_neq in E.
    destruct c as [[] [] [] [] [] [] [] []]; now intros [= <-].
Qed.

Lemma weight_search_canonical s m :
  weight_search s = Some m -> canonical_weight m.
Proof.
  induction s as [|c s IH]; cbn [weight_search].
  - destruct (weight_match_here "") eqn:E; [|discriminate].
    intros [= <-]. exact (weight_match_canonical _ _ E).
  - destruct (weight_match_here (String c s)) eqn:E; [|exact IH].
    intros [= <-]. exact (weight_match_canonical _ _ E).
Qed.

Lemma split_lines_keep p sep s :
  all_chars p s = true ->
  Forall (fun l => all_chars p l = true) (Str.split sep s).
Proof.
  induction s as [|c s IH]; [repeat constructor|].
  cbn [Str.split all_chars]. rewrite andb_true_iff. intros [Hc Hs].
  specialize (IH Hs).
  destruct (Ascii.eqb c sep); [constructor; [reflexivity | exact IH]|].
  destruct (Str.split sep s) as [|h t].
  - constructor; [|constructor]. cbn [all_chars]. now rewrite Hc.
  - inversion IH as [|? ? Hh Ht]; subst. constructor; [|exact Ht].
    cbn [all_chars]. now rewrite Hc, Hh.
Qed.

Lemma split_lines_free sep s :
  Forall (fun l => all_chars (fun c => negb (Ascii.eqb c sep)) l = true)
    (Str.split sep s).
Proof.
  induction s as [|c s IH]; [repeat constructor|]. cbn [Str.split].
  destruct (Ascii.eqb c sep) eqn:E; [constructor; [reflexivity | exact IH]|].
  destruct (Str.split sep s) as [|h t].
  - constructor; [|constructor]. cbn [all_chars]. now rewrite E.
  - inversion IH as [|? ? Hh Ht]; subst. constructor; [|exact Ht].
    cbn [all_chars]. now rewrite E, Hh.
Qed.

Lemma replace_char_free a b s :
  a <> b ->
  all_chars (fun c => negb (Ascii.eqb c a)) (Str.replace_char a b s) = true.
Proof.
  intros Hab. induction s as [|c s IH]; [reflexivity|].
  cbn [Str.replace_char all_chars]. rewrite IH, andb_true_r.
  apply negb_true_iff, Ascii.eqb_neq.
  destruct (Ascii.eqb c a) eqn:E; [congruence|].
  now apply Ascii.eqb_neq.
Qed.

Lemma replace_char_keep p a b s :
  p b = true -> all_chars p s = true ->
  all_chars p (Str.replace_char a b s) = true.
Proof.
  intros Hb. induction s as [|c s IH]; [reflexivity|].
  cbn [Str.replace_char all_chars]. rewrite !andb_true_iff.
  intros [Hc Hs]. split; [|now apply IH].
  now destruct (Ascii.eqb c a).
Qed.

(** What the address normaliser returns is a canonical address. *)
Lemma normalize_address_canonical s : canonical_address (_normalize_address s).
Proof.
  unfold _normalize_address.
  set (x := Str.replace_char ";" newline (Str.replace_char "|" newline s)).
  exists (map Str.strip
            (filter (fun line => negb (Str.is_empty (Str.strip line)))
               (Str.split newline x))).
  split; [|reflexivity].
  assert (Hbar : all_chars (fun c => negb (Ascii.eqb c "|")) x = true).
  { apply replace_char_keep; [reflexivity|].
    apply replace_char_free. discriminate. }
  assert (Hsemi : all_chars (fun c => negb (Ascii.eqb c ";")) x = true)
    by (apply replace_char_free; discriminate).
  pose proof (split_lines_free newline x) as H1.
  pose proof (split_lines_keep _ newline x Hbar) as H2.
  pose proof (split_lines_keep _ newline x Hsemi) as H3.
  induction (Str.split newline x) as [|l ls IH]; [constructor|].
  inversion H1; inversion H2; inversion H3; subst.
  cbn [filter]. destruct (Str.is_empty (Str.strip l)) eqn:E; cbn [negb map].
  - now apply IH.
  - constructor; [|now apply IH]. repeat split.
    + intros H0. now rewrite H0 in E.
    + apply strip_idem.
    + apply strip_all_chars.
      match goal with
      | Ha : all_chars _ l = true, Hb : all_chars _ l = true,
        Hc : all_chars _ l = true |- _ => revert Ha Hb Hc end.
      clear. induction l as [|c l IHl]; [reflexivity|]. cbn [all_chars].
      rewrite !andb_true_iff. intros [A1 A2] [B1 B2] [C1 C2].
      split; [|now apply IHl]. unfold is_separator.
      apply negb_true_iff in A1, B1, C1. now rewrite A1, B1, C1.
Qed.

Lemma null_or_not (v : json) : v = JNull \/ v <> JNull.
Proof. destruct v; (now left) || (right; discriminate). Qed.

(** Normalising what the normaliser returned changes nothing. *)
Lemma normalize_idempotent field raw :
  _normalize_value field (JStr (_normalize_value field raw))
  = _normalize_value field raw.
Proof.
  destruct (String.eqb field "package_weight") eqn:Ew.
  { apply String.eqb_eq in Ew. subst field.
    destruct (null_or_not raw) as [->|Hraw]; [reflexivity|].
    rewrite (normalize_weight raw Hraw).
    destruct (weight_search (Str.strip (PyStr.str raw))) as [m|] eqn:E.
    - apply canonical_weight_fixed, (weight_search_canonical _ _ E).
    - rewrite normalize_weight by discriminate.
      cbn [PyStr.str]. rewrite strip_idem. now rewrite E. }
  destruct (String.eqb field "shipping_date") eqn:Ed.
  { apply String.eqb_eq in Ed. subst field.
    destruct (null_or_not raw) as [->|Hraw]; [reflexivity|].
    assert (Hn : _normalize_value "shipping_date" raw
                 = _normalize_date (Str.strip (PyStr.str raw)))
      by (destruct raw; try reflexivity; now elim Hraw).
    rewrite Hn. unfold _normalize_date.
    destruct (try_formats formats (Str.strip (PyStr.str raw)))
      as [r|] eqn:E.
    - exact (try_formats_fixed _ _ E).
    - rewrite normalize_date_value, strip_idem.
      unfold _normalize_date. now rewrite E. }
  destruct (String.eqb field "shipper_address"
            || String.eqb field "recipient_address") eqn:Ea.
  { assert (Hn : forall v, v <> JNull ->
                _normalize_value field v
                = _normalize_address (Str.strip (PyStr.str v))).
    { intros v Hv. destruct v; try (now elim Hv);
        cbn [_normalize_value]; now rewrite Ew, Ed, Ea. }
    destruct (null_or_not raw) as [->|Hraw].
    - change (_normalize_value field JNull) with "".
      rewrite Hn by discriminate. reflexivity.
    - rewrite (Hn raw Hraw), Hn by discriminate. cbn [PyStr.str].
      apply normalize_address_fixed, normalize_address_canonical. }
  assert (Hn : forall v, v <> JNull ->
              _normalize_value field v = Str.strip (PyStr.str v)).
  { intros v Hv. destruct v; try (now elim Hv);
      cbn [_normalize_value]; now rewrite Ew, Ed, Ea. }
  destruct (null_or_not raw) as [->|Hraw].
  - change (_normalize_value field JNull) with "".
    rewrite Hn by discriminate. reflexivity.
  - rewrite (Hn raw Hraw), Hn by discriminate. cbn [PyStr.str].
    apply strip_idem.
Qed.

Lemma in_canonical_form_fixed field s :
  in_canonical_form field s -> _normalize_value field (JStr s) = s.
Proof.
  intros [H|[raw ->]]; [now apply canonical_value_fixed|].
  apply normalize_idempotent.
Qed.

(** C8. The claim fails on the code for a date whose year is below 1000.
    The document [early_doc] has the nine canonical fields as its keys and
    values in canonical form; its shipping date [0999-01-15] is trimmed
    and of the shape YYYY-MM-DD.  The record keeps the other eight values
    and holds [999-01-15] as the shipping date. *)
Theorem canonical_date_not_preserved :
  dict_keys early_doc = canonical_fields
  /\ dict_get "shipping_date" early_doc = Some (JStr "0999-01-15")
  /\ is_ymd "0999-01-15" = true
  /\ Str.strip "0999-01-15" = "0999-01-15"
  /\ dict_get "shipping_date" (parse_json_data example_now (JObj early_doc))
     = Some (JStr "999-01-15")
  /\ (forall f,
         In f canonical_fields -> f <> "shipping_date" ->
         dict_get f (parse_json_data example_now (JObj early_doc))
         = dict_get f early_doc).
Proof.
  repeat split; try (vm_compute; reflexivity).
  intros f Hf Hne. cbv in Hf.
  repeat (destruct Hf as [<-|Hf];
          [first [now elim Hne | vm_compute; reflexivity]|]).
  destruct Hf.
Qed.

(** X26. For a flat document whose keys are canonical field names and whose
    values are strings already in the canonical form of their field
    (trimmed; the weight a bare numeric token; the date in the shape
    YYYY-MM-DD with a year that does not begin with 0; an address made of
    trimmed lines, none empty, joined by line breaks; or, for any field, a
    value its normaliser returns), the parse pipeline maps every field of
    the document to the very value the document gives it.  When the
    document has all nine fields, the canonical fields of the record are
    the document. *)
Theorem parse_canonical_document (now : Datetime.t) (entries : dict json) :
  wf_dict entries ->
  (forall k v,
      In (k, v) entries ->
      In k canonical_fields
      /\ exists s, v = JStr s /\ in_canonical_form k s) ->
  (forall k v,
      In (k, v) entries ->
      dict_get k (parse_json_data now (JObj entries)) = Some v)
  /\ ((forall f, In f canonical_fields -> In f (dict_keys entries)) ->
      forall f,
        In f canonical_fields ->
        dict_get f (parse_json_data now (JObj entries))
        = dict_get f entries).
Proof.
  intros Hwf Hcan.
  assert (Hflat : flat_strings entries).
  { intros k' v' Hin'. destruct (Hcan k' v' Hin') as (_ & s' & -> & _).
    now exists s'. }
  assert (Hsame : forall k v,
             In (k, v) entries ->
             dict_get k (parse_json_data now (JObj entries)) = Some v).
  { intros k v Hin. destruct (Hcan k v Hin) as (Hk & s & -> & Hs).
    rewrite (parse_get now _ k Hk). unfold resolve.
    rewrite (flatten_flat entries Hwf Hflat).
    rewrite (resolve_own_key entries k (JStr s) Hk)
      by now apply dict_get_wf.
    cbn [is_not_none]. now rewrite (in_canonical_form_fixed k s Hs). }
  split; [exact Hsame|].
  intros Hall f Hf. specialize (Hall f Hf).
  destruct (dict_get f entries) as [v|] eqn:E.
  - apply Hsame. now apply dict_get_In.
  - apply dict_get_None in E. now elim E.
Qed.

Lemma canonical_doc_values k v :
  In (k, v) canonical_doc ->
  In k canonical_fields /\ exists s, v = JStr s /\ in_canonical_form k s.
Proof.
  intros H. unfold canonical_doc in H.
  repeat (destruct H as [[= <- <-]|H];
          [split; [cbv; tauto | eexists; split; [reflexivity|left]]|]);
    [| | | | | | | | | destruct H].
  - reflexivity.
  - exists ["1234 Industrial Blvd"; "Seattle, WA 98101"].
    split; [|reflexivity].
    repeat constructor; discriminate.
  - reflexivity.
  - exists ["567 Harbor View Drive"; "San Francisco, CA 94111"].
    split; [|reflexivity].
    repeat constructor; discriminate.
  - exists "45", "5". repeat split; try discriminate. now right.
  - reflexivity.
  - reflexivity.
  - reflexivity.
  - reflexivity.
Qed.

Lemma parse_canonical_document_witness :
  dict_get "shipping_date" (parse_json_data example_now (JObj canonical_doc))
  = Some (JStr "2024-01-15")
  /\ dict_get "package_weight"
       (parse_json_data example_now (JObj canonical_doc))
     = Some (JStr "45.5")
  /\ dict_get "shipper_address"
       (parse_json_data example_now (JObj canonical_doc))
     = dict_get "shipper_address" canonical_doc.
Proof.
  assert (Hwf : wf_dict canonical_doc).
  { unfold wf_dict. apply (NoDup_count_occ' string_dec).
    intros f Hf. cbv in Hf.
    repeat (destruct Hf as [<-|Hf]; [reflexivity|]). destruct Hf. }
  pose proof (parse_canonical_document example_now canonical_doc Hwf
                canonical_doc_values) as [Hsame Hall].
  split; [|split].
  - apply Hsame. cbv. tauto.
  - apply Hsame. cbv. tauto.
  - apply Hall; [intros f Hf; exact Hf | cbv; tauto].
Defined.


(* ================================================================== *)
(** * Further properties *)

(* ------------------------------------------------------------------ *)
(** ** Building dictionaries *)

Section WriteAll.
Context {V : Type}.
Implicit Types (d e : dict V) (k : string) (v w : V).

Lemma write_all_app d items items' :
  write_all d (items ++ items') = write_all (write_all d items) items'.
Proof. unfold write_all. apply fold_left_app. Qed.

Lemma dict_set_twice k v w d :
  dict_set k v (dict_set k w d) = dict_set k v d.
Proof.
  induction d as [|[k0 u] d IH]; simpl.
  - now rewrite String.eqb_refl.
  - destruct (String.eqb k k0) eqn:E; simpl; rewrite E; [reflexivity|].
    now rewrite IH.
Qed.

Lemma dict_set_has_key k v d : In k (dict_keys (dict_set k v d)).
Proof.
  induction d as [|[k0 u] d IH]; simpl; [now left|].
  destruct (String.eqb k k0) eqn:E; simpl.
  - apply String.eqb_eq in E. now left.
  - now right.
Qed.

Lemma dict_set_keeps_key k k' v d :
  In k (dict_keys d) -> In k (dict_keys (dict_set k' v d)).
Proof.
  induction d as [|[k0 u] d IH]; simpl; [intros []|].
  destruct (String.eqb k' k0) eqn:E; simpl; [tauto|].
  intros [H|H]; [now left | right; now apply IH].
Qed.

(** Updating a key that is present commutes with any other write. *)
Lemma dict_set_commute k k' v v' d :
  k <> k' -> In k (dict_keys d) ->
  dict_set k' v' (dict_set k v d) = dict_set k v (dict_set k' v' d).
Proof.
  intros Hne. induction d as [|[k0 u] d IH]; simpl; [intros []|].
  intros Hin.
  destruct (String.eqb k k0) eqn:E; destruct (String.eqb k' k0) eqn:E';
    simpl; rewrite ?E, ?E'; try reflexivity.
  - apply String.eqb_eq in E, E'. congruence.
  - f_equal. apply IH. destruct Hin as [H|H]; [|exact H].
    apply String.eqb_neq in E. congruence.
Qed.

Lemma write_all_update k v d items :
  In k (dict_keys d) -> ~ In k (dict_keys items) ->
  write_all (dict_set k v d) items = dict_set k v (write_all d items).
Proof.
  revert d. induction items as [|[k1 v1] items IH]; intros d Hin Hnot;
    [reflexivity|].
  simpl in Hnot. unfold write_all in *. cbn [fold_left fst snd].
  rewrite dict_set_commute; [|intros ->; apply Hnot; now left|exact Hin].
  apply IH.
  - now apply dict_set_keeps_key.
  - intros H. apply Hnot. now right.
Qed.

(** Writing one more pair into a well-formed [e] before or after pouring
    [e] into [d] comes to the same. *)
Lemma write_all_dict_set d e k v :
  wf_dict e ->
  write_all d (dict_set k v e) = dict_set k v (write_all d e).
Proof.
  intros Hwf. induction e as [|[k0 u] e IH] in d, Hwf |- *; [reflexivity|].
  unfold wf_dict in Hwf. simpl in Hwf.
  inversion Hwf as [|? ? Hnot Hwf']; subst.
  cbn [dict_set]. destruct (String.eqb k k0) eqn:E.
  - apply String.eqb_eq in E. subst k0.
    change (write_all d ((k, v) :: e)) with (write_all (dict_set k v d) e).
    change (write_all d ((k, u) :: e)) with (write_all (dict_set k u d) e).
    rewrite <- (dict_set_twice k v u d).
    rewrite write_all_update; [reflexivity|apply dict_set_has_key|exact Hnot].
  - change (write_all d ((k0, u) :: dict_set k v e))
      with (write_all (dict_set k0 u d) (dict_set k v e)).
    change (write_all d ((k0, u) :: e)) with (write_all (dict_set k0 u d) e).
    now apply IH.
Qed.

Lemma write_all_snoc d items k v :
  write_all d (items ++ [(k, v)]) = dict_set k v (write_all d items).
Proof. now rewrite write_all_app. Qed.

Lemma write_all_wf d items : wf_dict d -> wf_dict (write_all d items).
Proof. apply fold_dict_set_wf. Qed.

(** Pouring [dict(items)] into [d] is pouring [items] into [d]. *)
Lemma write_all_dict_of_items d items :
  write_all d (dict_of_items items) = write_all d items.
Proof.
  change (dict_of_items items) with (write_all (@nil (string * V)) items).
  induction items as [|[k v] items IH] using rev_ind; [reflexivity|].
  rewrite !write_all_snoc, write_all_dict_set, IH; [reflexivity|].
  apply write_all_wf. constructor.
Qed.

End WriteAll.

(* ------------------------------------------------------------------ *)
(** ** The flattener, further *)

(** The loop of [_flatten_json] concatenates the contributions of the
    entries. *)
Lemma flatten_object entries parent_key separator :
  _flatten_json (JObj entries) parent_key separator
  = dict_of_items (flat_map (flatten_entry parent_key separator) entries).
Proof.
  cbn [_flatten_json]. f_equal.
  induction entries as [|[key value] entries IH]; [reflexivity|].
  cbn [flat_map]. rewrite <- IH. reflexivity.
Qed.

Lemma leaf_paths_object entries parent_key separator :
  leaf_paths (JObj entries) parent_key separator
  = flat_map (leaf_entry parent_key separator) entries.
Proof.
  cbn [leaf_paths].
  induction entries as [|[key value] entries IH]; [reflexivity|].
  cbn [flat_map]. rewrite <- IH. reflexivity.
Qed.

Lemma write_all_flat_map {A : Type} (f g : A -> list (string * json)) xs :
  Forall (fun x => forall d, write_all d (f x) = write_all d (g x)) xs ->
  forall d, write_all d (flat_map f xs) = write_all d (flat_map g xs).
Proof.
  induction 1 as [|x xs Hx Hxs IH]; intros d; [reflexivity|].
  cbn [flat_map]. now rewrite !write_all_app, Hx, IH.
Qed.

Lemma flatten_listing_strong data :
  (forall parent_key separator,
      _flatten_json data parent_key separator
      = dict_of_items (leaf_paths data parent_key separator))
  /\ match data with
     | JArr (first :: _) =>
         forall parent_key separator,
           _flatten_json first parent_key separator
           = dict_of_items (leaf_paths first parent_key separator)
     | _ => True
     end.
Proof.
  induction data using json_nested_ind;
    try (split; [reflexivity | exact I]).
  - split; [reflexivity|].
    destruct items as [|first rest]; [exact I|].
    inversion H as [|? ? [Hfirst _] _]. exact Hfirst.
  - split; [|exact I]. intros parent_key separator.
    rewrite flatten_object, leaf_paths_object.
    apply (write_all_flat_map (flatten_entry parent_key separator)
             (leaf_entry parent_key separator)).
    eapply Forall_impl; [|exact H].
    intros [key value] [Hv Hv'] d. cbn [snd] in Hv, Hv'.
    unfold flatten_entry, leaf_entry. cbn [fst snd].
    destruct value as [| | | | |items|es]; try reflexivity.
    + destruct items as [|first rest]; [reflexivity|].
      destruct first; try reflexivity.
      rewrite Hv'. apply write_all_dict_of_items.
    + rewrite Hv. apply write_all_dict_of_items.
Qed.

(** X1. Flattening is the dictionary of the depth-first listing of the
    leaves: the intermediate dictionaries built for nested objects change
    nothing.  Hence the keys are pairwise distinct, a path that occurs
    several times keeps the place of its first occurrence, and it holds the
    value of its last occurrence. *)
Theorem flatten_is_dict_of_leaf_paths (data : json)
    (parent_key separator : string) :
  _flatten_json data parent_key separator
  = dict_of_items (leaf_paths data parent_key separator)
  /\ NoDup (dict_keys (_flatten_json data parent_key separator))
  /\ forall before k v after,
       leaf_paths data parent_key separator
       = (before ++ (k, v) :: after)%list ->
       (forall k', In k' (dict_keys after) -> k' <> k) ->
       dict_get k (_flatten_json data parent_key separator) = Some v.
Proof.
  pose proof (proj1 (flatten_listing_strong data) parent_key separator) as E.
  split; [exact E|]. rewrite E. split.
  - apply dict_of_items_wf.
  - intros before k v after Hl Hlast.
    now apply (fold_dict_set_get_last _ _ _ before v after).
Qed.

Lemma flatten_is_dict_of_leaf_paths_witness :
  dict_get "a.b" (flatten collision_doc) = Some (JInt 2)
  /\ flatten collision_doc = [("a.b", JInt 2); ("c", JInt 0)].
Proof.
  split; [|reflexivity].
  apply (proj2 (proj2 (flatten_is_dict_of_leaf_paths collision_doc "" "."))
           [("a.b", JInt 1); ("c", JInt 0)] "a.b" (JInt 2) []);
    [reflexivity|]. intros k' [].
Defined.

Lemma flatten_first_as_object before after key first rest
    parent_key separator :
  _flatten_json
    (JObj (before ++ (key, JArr (JObj first :: rest)) :: after))
    parent_key separator
  = _flatten_json (JObj (before ++ (key, JObj first) :: after))
      parent_key separator.
Proof. rewrite !flatten_object, !flat_map_app. reflexivity. Qed.

(** X2. Of a list that starts with an object only that first element is
    flattened: the rest of the list never reaches the flattened
    document. *)
Theorem flatten_list_first_element_only
    (before after : list (string * json)) (key : string)
    (first : list (string * json)) (rest rest' : list json)
    (parent_key separator : string) :
  _flatten_json
    (JObj (before ++ (key, JArr (JObj first :: rest)) :: after))
    parent_key separator
  = _flatten_json
      (JObj (before ++ (key, JArr (JObj first :: rest')) :: after))
      parent_key separator
  /\ _flatten_json
       (JObj (before ++ (key, JArr (JObj first :: rest)) :: after))
       parent_key separator
     = _flatten_json (JObj (before ++ (key, JObj first) :: after))
         parent_key separator.
Proof.
  split; [|apply flatten_first_as_object].
  now rewrite !flatten_first_as_object.
Qed.

Lemma new_key_nonempty parent_key separator key :
  parent_key <> "" ->
  new_key parent_key separator key = parent_key ++ separator ++ key
  /\ new_key parent_key separator key <> "".
Proof.
  intros H. unfold new_key. destruct parent_key; [now elim H|].
  split; [reflexivity | discriminate].
Qed.

Lemma leaf_paths_prefix_strong data :
  (forall parent_key separator k v,
      parent_key <> "" ->
      In (k, v) (leaf_paths data parent_key separator) ->
      exists rest, k = parent_key ++ separator ++ rest)
  /\ match data with
     | JArr (first :: _) =>
         forall parent_key separator k v,
           parent_key <> "" ->
           In (k, v) (leaf_paths first parent_key separator) ->
           exists rest, k = parent_key ++ separator ++ rest
     | _ => True
     end.
Proof.
  induction data using json_nested_ind;
    try (split; [intros ? ? ? ? ? [] | exact I]).
  - split; [intros ? ? ? ? ? []|].
    destruct items as [|first rest]; [exact I|].
    inversion H as [|? ? [Hfirst _] _]. exact Hfirst.
  - split; [|exact I]. intros parent_key separator k v Hp Hin.
    rewrite leaf_paths_object in Hin. apply in_flat_map in Hin.
    destruct Hin as ([key value] & Hentry & Hin).
    rewrite Forall_forall in H. destruct (H _ Hentry) as [Hv Hv'].
    cbn [snd] in Hv, Hv'. unfold leaf_entry in Hin. cbn [fst snd] in Hin.
    destruct (new_key_nonempty parent_key separator key Hp) as [Enk Hnk].
    assert (Hleaf : In (k, v) [(new_key parent_key separator key, value)] ->
                    exists rest, k = parent_key ++ separator ++ rest).
    { intros [[= <- _]|[]]. exists key. exact Enk. }
    assert (Hdeep : (exists rest,
                        k = new_key parent_key separator key
                              ++ separator ++ rest) ->
                    exists rest, k = parent_key ++ separator ++ rest).
    { intros [rest ->]. exists (key ++ separator ++ rest).
      now rewrite Enk, !append_assoc. }
    destruct value as [| | | | |items|es]; try exact (Hleaf Hin).
    + destruct items as [|first rest]; [exact (Hleaf Hin)|].
      destruct first; try exact (Hleaf Hin).
      exact (Hdeep (Hv' _ _ _ _ Hnk Hin)).
    + exact (Hdeep (Hv _ _ _ _ Hnk Hin)).
Qed.

(** X3. Below a parent key that is not empty, every key of the flattened
    mapping is the parent key, the separator and a remainder: nested
    entries carry the dotted path of the objects around them. *)
Theorem flatten_keys_carry_parent (data : json)
    (parent_key separator k : string) (v : json) :
  parent_key <> "" ->
  In (k, v) (_flatten_json data parent_key separator) ->
  exists rest, k = parent_key ++ separator ++ rest.
Proof.
  intros Hp Hin.
  rewrite (proj1 (flatten_listing_strong data)) in Hin.
  apply dict_of_items_In in Hin.
  exact (proj1 (leaf_paths_prefix_strong data) _ _ _ _ Hp Hin).
Qed.

Lemma flatten_keys_carry_parent_witness :
  exists rest, "shipment.sender.name" = "shipment" ++ "." ++ rest.
Proof.
  apply (flatten_keys_carry_parent
           (JObj [("sender", JObj [("name", JStr "ABC Corp")])])
           "shipment" "." "shipment.sender.name" (JStr "ABC Corp")).
  - discriminate.
  - now left.
Defined.

Lemma flatten_entry_leaf separator (entry : string * json) :
  is_leaf (snd entry) = true ->
  flatten_entry "" separator entry = [entry].
Proof.
  destruct entry as [k v]. unfold flatten_entry. cbn [fst snd new_key
    Str.is_empty].
  destruct v as [| | | | |items|es]; try reflexivity; [|discriminate].
  destruct items as [|first rest]; [reflexivity|].
  destruct first; try reflexivity. discriminate.
Qed.

Lemma flatten_leaves_fixed entries separator :
  wf_dict entries -> leaves_only entries ->
  _flatten_json (JObj entries) "" separator = entries.
Proof.
  intros Hwf Hleaves. rewrite flatten_object.
  assert (E : flat_map (flatten_entry "" separator) entries = entries).
  { induction Hleaves as [|entry entries Hentry _ IH]; [reflexivity|].
    cbn [flat_map]. rewrite (flatten_entry_leaf _ _ Hentry), IH.
    - reflexivity.
    - unfold wf_dict in *. simpl in Hwf. now inversion Hwf. }
  rewrite E. now apply dict_of_items_wf_id.
Qed.

(** X4. Flattening is idempotent: a flattened document, read again as an
    object, flattens to itself. *)
Theorem flatten_idempotent (data : json) :
  flatten (JObj (flatten data)) = flatten data.
Proof.
  unfold flatten at 1. apply flatten_leaves_fixed.
  - apply flatten_wf.
  - exact (proj1 (flatten_leaves_strong data) "" ".").
Qed.

(** X5. An object that wraps a single nested object flattens to the nested
    object flattened under the wrapping key; the same holds for a wrapped
    list that starts with an object.  At the root an empty wrapping key
    leaves no trace: its entries appear at the top level without prefix. *)
Theorem flatten_wrapper (key : string) (inner : list (string * json))
    (rest : list json) (parent_key separator : string) :
  _flatten_json (JObj [(key, JObj inner)]) parent_key separator
  = _flatten_json (JObj inner) (new_key parent_key separator key) separator
  /\ _flatten_json (JObj [(key, JArr (JObj inner :: rest))])
       parent_key separator
     = _flatten_json (JObj inner) (new_key parent_key separator key)
         separator
  /\ _flatten_json (JObj [("", JObj inner)]) "" separator
     = _flatten_json (JObj inner) "" separator.
Proof.
  assert (H : forall k p,
             _flatten_json (JObj [(k, JObj inner)]) p separator
             = _flatten_json (JObj inner) (new_key p separator k) separator).
  { intros k p. rewrite (flatten_object [_]). cbn [flat_map].
    rewrite app_nil_r. unfold flatten_entry. cbn [fst snd].
    apply dict_of_items_wf_id.
    rewrite flatten_object. apply dict_of_items_wf. }
  split; [apply H|]. split; [|apply (H "" "")].
  rewrite <- H. apply (flatten_first_as_object [] []).
Qed.

(* ------------------------------------------------------------------ *)
(** ** The resolver, further *)

Lemma substring_refl s : substring s s.
Proof. exists "", "". cbn [append]. now rewrite append_empty_r. Qed.

Lemma same_key_substring a k : same_key_ci a k -> substring_either a k.
Proof.
  unfold same_key_ci, substring_either. intros ->. left.
  apply substring_refl.
Qed.

Lemma data_lower_In data lk v :
  In (lk, v) (data_lower data) ->
  exists k, In (k, v) data /\ Str.lower k = lk.
Proof.
  intros H. apply dict_of_items_In, in_map_iff in H.
  destruct H as ([k v'] & [= <- <-] & Hin). now exists k.
Qed.

(** X6. The resolver never invents a value: what it returns is [None] or
    the value of an entry of the document whose key contains an alias of
    the list, or is contained in one, up to case.  On the empty document
    and on the empty alias list it returns [None]. *)
Theorem find_value_comes_from_document (data : dict json)
    (aliases : list string) :
  (_find_value_by_keys data aliases = JNull
   \/ exists a k,
        In a aliases
        /\ In (k, _find_value_by_keys data aliases) data
        /\ substring_either a k)
  /\ _find_value_by_keys [] aliases = JNull
  /\ _find_value_by_keys data [] = JNull.
Proof.
  split; [|split; [|reflexivity]].
  - unfold _find_value_by_keys.
    destruct (exact_loop data aliases) as [v|] eqn:E1.
    { right. apply for_return_some in E1.
      destruct E1 as (before & a & after & -> & _ & Hget).
      exists a, a. split; [apply in_elt|].
      split; [now apply dict_get_In | apply same_key_substring; reflexivity]. }
    destruct (lower_loop data aliases) as [v|] eqn:E2.
    { right. apply for_return_some in E2.
      destruct E2 as (before & a & after & -> & _ & Hget).
      apply dict_get_In, data_lower_In in Hget.
      destruct Hget as (k & Hin & Hk).
      exists a, k. split; [apply in_elt|].
      split; [exact Hin | now apply same_key_substring]. }
    destruct (partial_loop data aliases) as [v|] eqn:E3; [|now left].
    right. apply for_return_some in E3.
    destruct E3 as (before & a & after & -> & _ & Hinner).
    apply for_return_some in Hinner.
    destruct Hinner as (dbefore & [k v'] & dafter & -> & _ & Hk).
    cbn [fst snd] in Hk.
    destruct (partial_match a k) eqn:Em; [|discriminate].
    injection Hk as ->. exists a, k. split; [apply in_elt|].
    split; [apply in_elt | now apply partial_match_spec].
  - unfold _find_value_by_keys, exact_loop, lower_loop, partial_loop.
    rewrite !for_return_none; trivial.
Qed.

(** X7. A key spelled exactly as a canonical field name decides that
    field, whatever else the document holds: resolution returns its value,
    and the record holds the normalised value when it is not [None]. *)
Theorem own_field_name_wins (now : Datetime.t) (data : json)
    (field : string) (v : json) :
  In field canonical_fields ->
  dict_get field (flatten data) = Some v ->
  resolve data field = v
  /\ (v <> JNull ->
      dict_get field (parse_json_data now data)
      = Some (JStr (_normalize_value field v))).
Proof.
  intros Hf Hget.
  assert (Hres : resolve data field = v) by now apply resolve_own_key.
  split; [exact Hres|]. intros Hv.
  rewrite (parse_get now data field Hf), Hres.
  destruct v; try reflexivity. now elim Hv.
Qed.

Lemma own_field_name_wins_witness :
  dict_get "package_weight"
    (parse_json_data example_now
       (JObj [ ("weight", JStr "1 kg"); ("Package_Weight", JStr "2 kg");
               ("package_weight", JStr "3 kg") ]))
  = Some (JStr "3").
Proof.
  apply (proj2 (own_field_name_wins example_now
                  (JObj [ ("weight", JStr "1 kg");
                          ("Package_Weight", JStr "2 kg");
                          ("package_weight", JStr "3 kg") ])
                  "package_weight" (JStr "3 kg")
                  ltac:(cbv; tauto) eq_refl)).
  discriminate.
Defined.

(** X8. The alias table is well formed: the nine field names are pairwise
    distinct; every alias list starts with its field name, has no
    repetition and is in lower case; no alias belongs to two fields. *)
Theorem alias_table_well_formed :
  NoDup (dict_keys _get_field_mappings)
  /\ List.length _get_field_mappings = 9%nat
  /\ (forall field aliases,
         In (field, aliases) _get_field_mappings ->
         (exists rest, aliases = field :: rest)
         /\ NoDup aliases
         /\ forall a, In a aliases -> Str.lower a = a)
  /\ NoDup all_aliases.
Proof.
  assert (Hnodup : forall l, nodup_strings l = true -> NoDup l).
  { induction l as [|x l IH]; cbn [nodup_strings]; [constructor|].
    rewrite andb_true_iff, negb_true_iff. intros [Hx Hl].
    constructor; [|now apply IH]. intros Hin.
    assert (existsb (String.eqb x) l = true)
      by (apply existsb_exists; exists x; split;
          [exact Hin | apply String.eqb_refl]).
    congruence. }
  split; [exact field_mappings_wf|]. split; [reflexivity|]. split.
  - intros field aliases Hin.
    assert (Hrow : forallb row_ok _get_field_mappings = true)
      by (vm_compute; reflexivity).
    rewrite forallb_forall in Hrow. specialize (Hrow _ Hin).
    unfold row_ok in Hrow. cbn [fst snd] in Hrow.
    repeat rewrite andb_true_iff in Hrow. destruct Hrow as [[Hh Hn] Hl].
    split; [|split].
    + destruct aliases as [|first rest]; [discriminate|].
      apply String.eqb_eq in Hh. subst. now exists rest.
    + now apply Hnodup.
    + intros a Ha. rewrite forallb_forall in Hl.
      now apply String.eqb_eq, Hl.
  - apply Hnodup. vm_compute. reflexivity.
Qed.

(* ------------------------------------------------------------------ *)
(** ** Reading a canonical date back *)

Lemma pad4_reads_back y :
  1 <= y <= 9999 -> Datetime.int_of (Datetime.pad 4 y) = y.
Proof.
  intros Hy. apply Z.eqb_eq.
  exact (Z_range_forallb
           (fun y => Datetime.int_of (Datetime.pad 4 y) =? y)
           1 9999 ltac:(vm_compute; reflexivity) y ltac:(lia)).
Qed.

Lemma tail_run m d :
  1 <= m <= 12 -> 1 <= d <= 31 ->
  exists t1 t2 others,
    Re.run ymd_tail ("-" ++ Datetime.pad 2 m ++ "-" ++ Datetime.pad 2 d) []
    = ([("d"%char, t1); ("m"%char, t2)], "") :: others
    /\ Datetime.int_of t1 = d /\ Datetime.int_of t2 = m.
Proof.
  intros Hm Hd.
  assert (H : tail_check m d = true).
  { pose proof (Z_range_forallb
      (fun m => forallb (tail_check m) (Z_range 1 31)) 1 12
      ltac:(vm_compute; reflexivity) m ltac:(lia)) as H.
    cbv beta in H. exact (Z_range_forallb _ 1 31 H d ltac:(lia)). }
  unfold tail_check in H.
  destruct (Re.run ymd_tail _ []) as [|[caps rest] others]; [discriminate|].
  destruct caps as [|[n1 t1] [|[n2 t2] [|]]]; try discriminate.
  destruct rest; [|discriminate].
  repeat rewrite andb_true_iff in H.
  rewrite !Ascii.eqb_eq, !Z.eqb_eq in H.
  destruct H as (((((-> & _) & ->) & _) & Hd1) & Hm1).
  now exists t1, t2, others.
Qed.

Lemma valid_date_of dt :
  Datetime.valid dt = true -> Datetime.valid (date_of dt) = true.
Proof.
  unfold Datetime.valid, date_of, date.
  cbn [Datetime.year Datetime.month Datetime.day Datetime.hour
       Datetime.minute Datetime.second Datetime.microsecond].
  intros H. repeat rewrite andb_true_iff in H. decompose [and] H.
  repeat (apply andb_true_iff; split); trivial.
Qed.

(** [strptime] under [%Y-%m-%d] reads a date written with a four-digit
    year back. *)
Lemma strptime_iso_date dt :
  Datetime.valid dt = true ->
  Datetime.strptime (Datetime.iso_date dt) "%Y-%m-%d"
  = Some (date_of dt).
Proof.
  intros Hvalid. destruct (valid_ranges _ Hvalid) as (Hy & Hm & Hd).
  pose proof (pad4_year _ Hy) as HY.
  pose proof (pad4_reads_back _ Hy) as Hyi.
  destruct (tail_run _ _ Hm Hd) as (t1 & t2 & others & Htail & Hdi & Hmi).
  unfold Datetime.iso_date.
  unfold digits_n in HY. apply andb_true_iff in HY. destruct HY as [LY HY].
  apply Nat.eqb_eq in LY.
  destruct (Datetime.pad 4 (Datetime.year dt))
    as [|c1 [|c2 [|c3 [|c4 [|]]]]] eqn:EY; try discriminate.
  assert (Hdig : forallb Str.is_digit [c1; c2; c3; c4] = true).
  { cbn [all_chars] in HY. cbn [forallb]. exact HY. }
  unfold Datetime.strptime.
  change (Datetime.pattern false "%Y-%m-%d")
    with (Some (Re.Seq year_group ymd_tail)).
  cbn [append]. rewrite (year_led_match _ _ _ _ _ _ Hdig).
  change (String "-" (Datetime.pad 2 (Datetime.month dt)
                        ++ String "-" (Datetime.pad 2 (Datetime.day dt))))
    with ("-" ++ Datetime.pad 2 (Datetime.month dt)
              ++ "-" ++ Datetime.pad 2 (Datetime.day dt)).
  rewrite Htail. cbn [fst snd app Str.is_empty negb].
  unfold Datetime.group_int. cbn [Re.group Ascii.eqb Bool.eqb].
  unfold str4. rewrite Hdi, Hmi, Hyi.
  fold (date (Datetime.year dt) (Datetime.month dt) (Datetime.day dt)).
  fold (date_of dt). now rewrite (valid_date_of dt Hvalid).
Qed.

Lemma for_return_none_inv {A R : Type} (xs : list A) (body : A -> option R) :
  for_return xs body = None -> forall x, In x xs -> body x = None.
Proof.
  induction xs as [|y xs IH]; cbn [for_return]; [intros _ ? []|].
  destruct (body y) eqn:E; [discriminate|].
  intros H x [<-|Hx]; [exact E | now apply IH].
Qed.

Lemma try_formats_none_inv s :
  try_formats formats s = None ->
  forall fmt, In fmt formats -> Datetime.strptime s fmt = None.
Proof.
  intros H fmt Hin.
  pose proof (for_return_none_inv _ _ H fmt Hin) as Hb. cbv beta in Hb.
  now destruct (Datetime.strptime s fmt).
Qed.

(** The first format of a list that parses a text is determined. *)
Lemma first_parse_unique s before fmt after dt before' fmt' after' dt' :
  (before ++ fmt :: after)%list = (before' ++ fmt' :: after')%list ->
  (forall f, In f before -> Datetime.strptime s f = None) ->
  Datetime.strptime s fmt = Some dt ->
  (forall f, In f before' -> Datetime.strptime s f = None) ->
  Datetime.strptime s fmt' = Some dt' ->
  dt = dt'.
Proof.
  intros Heq Hb Hf Hb' Hf'.
  pose proof (for_return_first (before ++ fmt :: after)%list
                (Datetime.strptime s) before fmt after dt eq_refl Hb Hf)
    as H1.
  pose proof (for_return_first (before ++ fmt :: after)%list
                (Datetime.strptime s) before' fmt' after' dt' Heq Hb' Hf')
    as H2.
  congruence.
Qed.

(** The date the normaliser returns fails to parse under [%Y-%m-%d]
    exactly when no format parsed the text, or the first format that did
    read a year below 1000. *)
Lemma normalized_date_parses s :
  Datetime.strptime (_normalize_date s) "%Y-%m-%d" = None
  <-> (forall fmt, In fmt formats -> Datetime.strptime s fmt = None)
      \/ exists before fmt after dt,
           formats = (before ++ fmt :: after)%list
           /\ (forall f, In f before -> Datetime.strptime s f = None)
           /\ Datetime.strptime s fmt = Some dt
           /\ Datetime.year dt < 1000.
Proof.
  unfold _normalize_date.
  destruct (try_formats formats s) as [r|] eqn:E.
  - apply for_return_some in E.
    destruct E as (before & fmt & after & Hfmts & Hbefore & Hb).
    destruct (Datetime.strptime s fmt) as [dt|] eqn:Ed; [|discriminate].
    injection Hb as <-.
    assert (Hbefore' : forall f, In f before -> Datetime.strptime s f = None).
    { intros f Hf. specialize (Hbefore f Hf). cbv beta in Hbefore.
      now destruct (Datetime.strptime s f). }
    pose proof (strptime_valid _ _ _ Ed) as Hvalid.
    destruct (Z.ltb_spec (Datetime.year dt) 1000) as [Hshort|Hlong].
    + split.
      * intros _. right. now exists before, fmt, after, dt.
      * intros _.
        apply (proj1 (strftime_short_unparsed dt Hvalid Hshort)). now left.
    + rewrite (strftime_iso dt Hvalid Hlong), (strptime_iso_date dt Hvalid).
      split; [discriminate|].
      intros [Hall|(before' & fmt' & after' & dt' & Hf' & Hb' & Hd' & Hy')].
      * rewrite (Hall fmt) in Ed; [discriminate|].
        rewrite Hfmts. apply in_elt.
      * assert (dt = dt').
        { apply (first_parse_unique s before fmt after dt
                   before' fmt' after' dt'); trivial. congruence. }
        subst dt'. lia.
  - split.
    + intros _. left. now apply try_formats_none_inv.
    + intros [Hall|(before' & fmt' & after' & dt' & Hf' & _ & Hd' & _)].
      * apply Hall. now left.
      * rewrite (try_formats_none_inv s E fmt') in Hd'; [discriminate|].
        rewrite Hf'. apply in_elt.
Qed.

(* ------------------------------------------------------------------ *)
(** ** The validator, further *)

(** On a canonical record the warnings are the one about the weight, if
    any, followed by the one about the date, if any. *)
Lemma validate_warnings F now data :
  canonical_record data ->
  exists r,
    validate_parsed_data F now data = Returned r
    /\ warnings r = (weight_warning F data ++ date_warning now data)%list.
Proof.
  intros Hcan. unfold validate_parsed_data.
  rewrite fold_check_required, fold_check_found.
  cbn [is_valid missing_required found_fields warnings app].
  unfold weight_warnings, date_warnings, weight_warning, date_warning.
  destruct (dict_get "package_weight" data) as [w|] eqn:Ew;
    [destruct (Hcan "package_weight" w ltac:(cbv; tauto) Ew) as [sw ->];
     cbn [py_float]; destruct (float_of_str F sw) as [x|];
     [destruct (float_le_0 F x); [|destruct (float_gt_1000 F x)]|]|];
    (destruct (dict_get "shipping_date" data) as [d|] eqn:Ed;
     [destruct (Hcan "shipping_date" d ltac:(cbv; tauto) Ed) as [sd ->];
      destruct (Datetime.strptime sd "%Y-%m-%d") as [dt|];
      [destruct (Datetime.ltb dt now)|]|]);
    eexists; split; reflexivity.
Qed.

(* ------------------------------------------------------------------ *)
(** ** The normaliser, further *)

(** X9. Normalisation is idempotent: for every field and every raw value,
    normalising the text that the normaliser returned gives that text
    again. *)
Theorem normalize_value_idempotent (field : string) (raw : json) :
  _normalize_value field (JStr (_normalize_value field raw))
  = _normalize_value field raw.
Proof. apply normalize_idempotent. Qed.

Lemma canonical_weight_trimmed s : canonical_weight s -> trimmed s.
Proof.
  intros (ds & fs & Hne & Hds & Hfs & Hs).
  assert (Hdp : forall t, all_chars Str.is_digit t = true ->
                  all_chars (fun c => Str.is_digit c || is_point c) t = true).
  { intros t. apply all_chars_impl. intros c ->. reflexivity. }
  apply strip_no_space.
  apply (all_chars_impl (fun c => Str.is_digit c || is_point c));
    [exact digit_or_point_not_space|].
  destruct Hs as [->| ->]; [now apply Hdp|].
  rewrite !all_chars_app, (Hdp _ Hds), (Hdp _ Hfs). reflexivity.
Qed.

Lemma canonical_address_trimmed s : canonical_address s -> trimmed s.
Proof. intros (lines & Hlines & ->). now apply join_trimmed. Qed.

(** The four shapes of [_normalize_value] on a value other than [None]. *)
Lemma normalize_cases field v :
  v <> JNull ->
  let t := Str.strip (PyStr.str v) in
  _normalize_value field v
  = if String.eqb field "package_weight" then
      match weight_search t with Some m => m | None => t end
    else if String.eqb field "shipping_date" then _normalize_date t
    else if String.eqb field "shipper_address"
            || String.eqb field "recipient_address"
    then _normalize_address t
    else t.
Proof. intros Hv. destruct v; try reflexivity. now elim Hv. Qed.

(** X10. A normalised value never has white space at either end, whatever
    the field and the raw value. *)
Theorem normalize_value_trimmed (field : string) (raw : json) :
  Str.strip (_normalize_value field raw) = _normalize_value field raw.
Proof.
  change (trimmed (_normalize_value field raw)).
  destruct (null_or_not raw) as [->|Hraw]; [reflexivity|].
  rewrite (normalize_cases field raw Hraw). cbv zeta.
  destruct (String.eqb field "package_weight").
  { destruct (weight_search _) as [m|] eqn:E; [|apply strip_idem].
    exact (canonical_weight_trimmed _ (weight_search_canonical _ _ E)). }
  destruct (String.eqb field "shipping_date").
  { unfold _normalize_date.
    destruct (try_formats formats _) as [r|] eqn:E; [|apply strip_idem].
    destruct (try_formats_output _ _ E) as (dt & Hvalid & ->).
    now apply strftime_trimmed. }
  destruct (String.eqb field "shipper_address"
            || String.eqb field "recipient_address").
  - apply canonical_address_trimmed, normalize_address_canonical.
  - apply strip_idem.
Qed.

Lemma digit_head_matches c s :
  Str.is_digit c = true -> weight_match_here (String c s) <> None.
Proof.
  intros H. unfold weight_match_here. cbn [span_digits]. rewrite H.
  destruct (span_digits s) as [ds rest].
  destruct rest as [|r rest]; [discriminate|].
  destruct r as [[] [] [] [] [] [] [] []]; discriminate.
Qed.

Lemma weight_search_none_inv s : weight_search s = None -> no_digit s = true.
Proof.
  induction s as [|c s IH]; [reflexivity|]. cbn [weight_search].
  destruct (weight_match_here (String c s)) eqn:E; [discriminate|].
  intros H. unfold no_digit. cbn [all_chars].
  destruct (Str.is_digit c) eqn:Ec.
  - now elim (digit_head_matches c s Ec).
  - cbn [negb andb]. exact (IH H).
Qed.

(** X11. The normalised weight of a value other than [None] is a bare
    numeric token (digits, or digits, a point and digits) or, when the
    trimmed text of the value has no digit at all, that text unchanged: no
    unit or other text ever stays around a number. *)
Theorem weight_is_token_or_text (raw : json) :
  raw <> JNull ->
  canonical_weight (_normalize_value "package_weight" raw)
  \/ (no_digit (Str.strip (PyStr.str raw)) = true
      /\ _normalize_value "package_weight" raw
         = Str.strip (PyStr.str raw)).
Proof.
  intros Hraw. rewrite (normalize_weight raw Hraw).
  destruct (weight_search (Str.strip (PyStr.str raw))) as [m|] eqn:E.
  - left. exact (weight_search_canonical _ _ E).
  - right. split; [now apply weight_search_none_inv | reflexivity].
Qed.

Lemma weight_is_token_or_text_witness :
  canonical_weight (_normalize_value "package_weight" (JStr "25.3 lbs"))
  \/ (no_digit (Str.strip (PyStr.str (JStr "25.3 lbs"))) = true
      /\ _normalize_value "package_weight" (JStr "25.3 lbs")
         = Str.strip (PyStr.str (JStr "25.3 lbs"))).
Proof.
  apply (weight_is_token_or_text (JStr "25.3 lbs")). discriminate.
Defined.

(** X12. The address normaliser returns the empty text or lines joined by
    line breaks, each line non-empty, trimmed and free of the separators
    [|] and [;]: blank lines and separators never survive. *)
Theorem address_lines_are_clean (address_str : string) :
  _normalize_address address_str = ""
  \/ Forall address_line
       (Str.split newline (_normalize_address address_str)).
Proof.
  destruct (normalize_address_canonical address_str)
    as (lines & Hlines & E).
  rewrite E. destruct lines as [|l rest]; [now left|]. right.
  rewrite split_join; [exact Hlines | discriminate|].
  eapply Forall_impl; [|exact Hlines].
  intros l0 (_ & _ & H0). now apply separator_free.
Qed.

(* ------------------------------------------------------------------ *)
(** ** The pipeline, further *)

Lemma entries_of_keys flattened table :
  incl (dict_keys (entries_of flattened table)) (dict_keys table).
Proof.
  unfold entries_of, dict_keys. rewrite map_map. cbn [fst].
  intros k Hk. apply in_map_iff in Hk. destruct Hk as (e & <- & He).
  apply filter_In in He. apply in_map. apply He.
Qed.

Lemma fold_map_field flattened table acc :
  NoDup (dict_keys acc ++ dict_keys table) ->
  fold_left (map_field flattened) table acc
  = (acc ++ entries_of flattened table)%list.
Proof.
  revert acc. induction table as [|[f al] table IH]; intros acc Hnd.
  - cbn. now rewrite app_nil_r.
  - cbn [fold_left map_field]. unfold entries_of. cbn [filter fst snd].
    assert (Hf : ~ In f (dict_keys acc)).
    { cbn [dict_keys map fst] in Hnd. apply NoDup_remove_2 in Hnd.
      intros H. apply Hnd. apply in_or_app. now left. }
    destruct (is_not_none (_find_value_by_keys flattened al)).
    + rewrite dict_set_fresh by exact Hf. rewrite IH.
      * cbn [map fst snd]. now rewrite <- app_assoc.
      * unfold dict_keys in *. rewrite map_app. cbn [map fst].
        rewrite <- app_assoc. exact Hnd.
    + apply IH. cbn [dict_keys map fst] in Hnd.
      now apply NoDup_remove_1 in Hnd.
Qed.

Lemma entries_of_by_name flattened (table : dict (list string)) :
  (forall e, In e table -> aliases_of (fst e) = snd e) ->
  entries_of flattened table
  = map (fun f => (f, JStr (_normalize_value f
                              (_find_value_by_keys flattened
                                 (aliases_of f)))))
      (filter (fun f => is_not_none
                          (_find_value_by_keys flattened (aliases_of f)))
         (map fst table)).
Proof.
  induction table as [|e table IH]; intros H; [reflexivity|].
  specialize (IH (fun e' He' => H e' (or_intror He'))).
  unfold entries_of in *. cbn [map filter].
  rewrite (H e (or_introl eq_refl)).
  destruct (is_not_none (_find_value_by_keys flattened (snd e)));
    [|exact IH].
  cbn [map]. rewrite (H e (or_introl eq_refl)). f_equal. exact IH.
Qed.

Lemma map_fields_record data : map_fields (flatten data) = record_fields data.
Proof.
  unfold map_fields. rewrite fold_map_field by exact field_mappings_wf.
  cbn [app]. apply entries_of_by_name.
  intros [f al] Hin. unfold aliases_of. cbn [fst snd].
  now rewrite (proj2 (dict_get_wf _ f al field_mappings_wf) Hin).
Qed.

Lemma record_fields_canonical data k v :
  In (k, v) (record_fields data) -> In k canonical_fields.
Proof.
  unfold record_fields. intros H. apply in_map_iff in H.
  destruct H as (f & [= <- _] & Hf). apply filter_In in Hf. apply Hf.
Qed.

Lemma canonical_not_private k :
  In k canonical_fields -> is_private k = false.
Proof.
  intros H. cbv in H.
  repeat (destruct H as [<-|H]; [reflexivity|]). destruct H.
Qed.

Lemma filter_all {A : Type} (p : A -> bool) l :
  (forall x, In x l -> p x = true) -> filter p l = l.
Proof.
  induction l as [|x l IH]; intros H; [reflexivity|]. cbn [filter].
  rewrite (H x (or_introl eq_refl)), IH; [reflexivity|].
  intros y Hy. apply H. now right.
Qed.

(** X13. The record of [parse_json_data], whole: the canonical fields whose
    resolution is not [None], in table order with their normalised values,
    then the [_metadata] entry, whose [original_keys] are the keys of the
    flattened document and whose [found_mappings] repeat the fields of the
    record. *)
Theorem parse_record_structure (now : Datetime.t) (data : json) :
  parse_json_data now data
  = (record_fields data
     ++ [("_metadata",
           JObj [ ("parsed_at", JStr (Datetime.isoformat now));
                  ("original_keys",
                    JArr (map JStr (dict_keys (flatten data))));
                  ("found_mappings", JObj (record_fields data)) ])])%list
  /\ dict_keys (record_fields data)
     = filter (fun f => is_not_none (resolve data f)) canonical_fields.
Proof.
  split.
  - unfold parse_json_data. rewrite map_fields_record.
    rewrite filter_all.
    + apply dict_set_fresh. intros Hin.
      apply in_map_iff in Hin. destruct Hin as ([k v] & Hk & Hin).
      cbn [fst] in Hk. subst k.
      exact (canonical_not_metadata _ (record_fields_canonical _ _ _ Hin)
               eq_refl).
    + intros [k v] Hin. cbn [fst].
      now rewrite (canonical_not_private k
                     (record_fields_canonical _ _ _ Hin)).
  - unfold record_fields, dict_keys. rewrite map_map. cbn [fst].
    apply map_id.
Qed.

Lemma parse_present now data field :
  In field canonical_fields ->
  present (parse_json_data now data) field = filledb data field.
Proof.
  intros Hf. unfold present, filledb. rewrite (parse_get now data field Hf).
  destruct (is_not_none (resolve data field)); reflexivity.
Qed.

(** X14. Validation of a parsed document, end to end: the validator
    returns; the report is valid exactly when each of the four required
    fields resolves to a value that normalises to a text that is not empty;
    [missing_required] and [found_fields] list the required fields that do
    not, and the canonical fields that do. *)
Theorem validate_parsed_document (F : float_ops) (now now' : Datetime.t)
    (data : json) :
  exists r,
    validate_parsed_data F now (parse_json_data now' data) = Returned r
    /\ (is_valid r = true
        <-> forall f, In f required_fields -> filledb data f = true)
    /\ missing_required r
       = filter (fun f => negb (filledb data f)) required_fields
    /\ found_fields r = filter (filledb data) canonical_fields.
Proof.
  destruct (validate_returns F now (parse_json_data now' data)
              (parse_output_canonical now' data))
    as (r & Hret & Hvalid & Hmissing & Hfound & _).
  exists r. split; [exact Hret|].
  assert (Hreq : forall f, In f required_fields ->
                   present (parse_json_data now' data) f = filledb data f)
    by (intros f Hf; apply parse_present, required_canonical, Hf).
  split; [|split].
  - rewrite Hvalid, forallb_forall. split; intros H f Hf.
    + rewrite <- Hreq by exact Hf. now apply H.
    + rewrite Hreq by exact Hf. now apply H.
  - rewrite Hmissing. apply filter_ext_in. intros f Hf. now rewrite Hreq.
  - rewrite Hfound. apply filter_ext_in. intros f Hf.
    now apply parse_present.
Qed.

Lemma weight_warning_kinds F data w :
  In w (weight_warning F data) -> w <> "Shipping date format is invalid".
Proof.
  unfold weight_warning.
  destruct (dict_get "package_weight" data) as [[| | | |s| |]|];
    try (intros []).
  destruct (float_of_str F s) as [x|];
    [destruct (float_le_0 F x); [|destruct (float_gt_1000 F x)]|];
    cbn [In]; intros Hin; intuition (subst; discriminate).
Qed.

(** X15. The normaliser and the validator on dates: when the shipping
    date of a document resolves to a value other than [None], the report
    on the parsed document warns of an invalid date format exactly when
    none of the normaliser's formats parses the trimmed text of that
    value, or the first format that parses it reads a year below 1000
    (which [strftime] writes with fewer than four digits, so that
    [%Y-%m-%d] no longer reads it). *)
Theorem invalid_date_warning_iff_no_format (F : float_ops)
    (now now' : Datetime.t) (data : json) (r : report) :
  resolve data "shipping_date" <> JNull ->
  validate_parsed_data F now (parse_json_data now' data) = Returned r ->
  let date_str := Str.strip (PyStr.str (resolve data "shipping_date")) in
  (In "Shipping date format is invalid" (warnings r)
   <-> (forall fmt,
           In fmt formats -> Datetime.strptime date_str fmt = None)
       \/ exists before fmt after dt,
            formats = (before ++ fmt :: after)%list
            /\ (forall f, In f before -> Datetime.strptime date_str f = None)
            /\ Datetime.strptime date_str fmt = Some dt
            /\ Datetime.year dt < 1000).
Proof.
  intros Hres Hret date_str.
  destruct (validate_warnings F now (parse_json_data now' data)
              (parse_output_canonical now' data)) as (r' & Hret' & Hw).
  rewrite Hret in Hret'. injection Hret' as <-. rewrite Hw.
  assert (Hdate : date_warning now (parse_json_data now' data)
                  = match Datetime.strptime (_normalize_date date_str)
                            "%Y-%m-%d" with
                    | Some dt => if Datetime.ltb dt now
                                 then ["Shipping date is in the past"]
                                 else []
                    | None => ["Shipping date format is invalid"]
                    end).
  { unfold date_warning, date_str.
    rewrite (parse_get now' data "shipping_date" ltac:(cbv; tauto)).
    destruct (resolve data "shipping_date"); try reflexivity.
    now elim Hres. }
  rewrite <- normalized_date_parses, in_app_iff, Hdate. split.
  - intros [Hin|Hin]; [now elim (weight_warning_kinds _ _ _ Hin)|].
    destruct (Datetime.strptime _ "%Y-%m-%d") as [dt|]; [|reflexivity].
    destruct (Datetime.ltb dt now); cbn [In] in Hin;
      [destruct Hin as [Hin|[]]; discriminate | destruct Hin].
  - intros ->. right. now left.
Qed.

Lemma invalid_date_warning_iff_no_format_witness :
  (exists r,
      validate_parsed_data DecimalFloat.ops example_now
        (parse_json_data example_now
           (JObj [("ship_date", JStr " next week ")])) = Returned r
      /\ In "Shipping date format is invalid" (warnings r))
  /\ (exists r,
         validate_parsed_data DecimalFloat.ops example_now
           (parse_json_data example_now
              (JObj [("ship_date", JStr "0999-01-15")])) = Returned r
         /\ In "Shipping date format is invalid" (warnings r)).
Proof.
  split.
  - eexists. split; [reflexivity|].
    apply (invalid_date_warning_iff_no_format DecimalFloat.ops example_now
             example_now (JObj [("ship_date", JStr " next week ")]) _
             ltac:(discriminate) eq_refl).
    left. intros fmt Hfmt. unfold formats in Hfmt. by_cases; reflexivity.
  - eexists. split; [reflexivity|].
    apply (invalid_date_warning_iff_no_format DecimalFloat.ops example_now
             example_now (JObj [("ship_date", JStr "0999-01-15")]) _
             ltac:(discriminate) eq_refl).
    right. exists [], "%Y-%m-%d", (tl formats), (date 999 1 15).
    split; [reflexivity|]. split; [intros f []|].
    split; [reflexivity | reflexivity].
Defined.

(** X16. A document that flattens to nothing (a value that is not an
    object, the empty object, objects that hold only empty objects) gets
    the report of the empty record: not valid, the four required fields
    missing, nothing found, no warning. *)
Theorem validate_empty_flattening (F : float_ops) (now now' : Datetime.t)
    (data : json) :
  flatten data = [] ->
  validate_parsed_data F now (parse_json_data now' data)
  = Returned (mk_report false required_fields [] []).
Proof.
  intros Hflat. unfold parse_json_data. rewrite Hflat. reflexivity.
Qed.

Lemma validate_empty_flattening_witness :
  validate_parsed_data DecimalFloat.ops example_now
    (parse_json_data example_now hollow_doc)
  = Returned (mk_report false
                ["shipper_name"; "recipient_name"; "package_weight";
                 "shipping_date"] [] []).
Proof.
  apply (validate_empty_flattening DecimalFloat.ops example_now example_now
           hollow_doc).
  reflexivity.
Defined.

(** X17. The validator does raise on records that are not canonical: when
    the shipping date is present and is not a string ([None] included) and
    the record has no package weight, [strptime] raises a [TypeError] that
    nothing catches. *)
Theorem validate_raises_on_non_string_date (F : float_ops)
    (now : Datetime.t) (data : dict json) (v : json) :
  dict_get "package_weight" data = None ->
  dict_get "shipping_date" data = Some v ->
  (forall s, v <> JStr s) ->
  validate_parsed_data F now data = Raised TypeError.
Proof.
  intros Hw Hd Hv. unfold validate_parsed_data, weight_warnings.
  rewrite Hw. unfold date_warnings. rewrite Hd.
  destruct v; try reflexivity. now elim (Hv s).
Qed.

Lemma validate_raises_on_non_string_date_witness :
  validate_parsed_data DecimalFloat.ops example_now numeric_date_record
  = Raised TypeError.
Proof.
  apply (validate_raises_on_non_string_date DecimalFloat.ops example_now
           numeric_date_record (JInt 20240115) eq_refl eq_refl).
  discriminate.
Defined.

(** X18. On a canonical record the report carries at most two warnings:
    at most one about the weight, and after it at most one about the date;
    a record with neither field carries none, and the warnings never
    change [is_valid]. *)
Theorem warnings_at_most_one_per_field (F : float_ops) (now : Datetime.t)
    (data : dict json) :
  canonical_record data ->
  exists r,
    validate_parsed_data F now data = Returned r
    /\ warnings r = (weight_warning F data ++ date_warning now data)%list
    /\ (List.length (weight_warning F data) <= 1)%nat
    /\ (List.length (date_warning now data) <= 1)%nat
    /\ (dict_get "package_weight" data = None -> weight_warning F data = [])
    /\ (dict_get "shipping_date" data = None -> date_warning now data = [])
    /\ is_valid r = forallb (present data) required_fields.
Proof.
  intros Hcan.
  destruct (validate_warnings F now data Hcan) as (r & Hret & Hw).
  destruct (validate_returns F now data Hcan) as (r' & Hret' & Hvalid & _).
  rewrite Hret in Hret'. injection Hret' as <-.
  exists r. split; [exact Hret|]. split; [exact Hw|].
  unfold weight_warning, date_warning. repeat split.
  - destruct (dict_get "package_weight" data) as [[| | | |s| |]|];
      cbn [List.length]; try lia.
    destruct (float_of_str F s) as [x|];
      [destruct (float_le_0 F x); [|destruct (float_gt_1000 F x)]|];
      cbn [List.length]; lia.
  - destruct (dict_get "shipping_date" data) as [[| | | |s| |]|];
      cbn [List.length]; try lia.
    destruct (Datetime.strptime s "%Y-%m-%d") as [dt|];
      [destruct (Datetime.ltb dt now)|]; cbn [List.length]; lia.
  - now intros ->.
  - now intros ->.
  - exact Hvalid.
Qed.

Lemma warnings_at_most_one_per_field_witness :
  exists r,
    validate_parsed_data DecimalFloat.ops example_now undated_record
    = Returned r
    /\ warnings r = ["Package weight is not a valid number"].
Proof.
  destruct (warnings_at_most_one_per_field DecimalFloat.ops example_now
              undated_record undated_record_canonical)
    as (r & Hret & Hw & _).
  exists r. split; [exact Hret | exact Hw].
Defined.

Lemma midnight_before dt :
  Datetime.valid dt = true ->
  Datetime.ltb (date_of dt) dt = true <-> dt <> date_of dt.
Proof.
  unfold Datetime.valid. intros H. repeat rewrite andb_true_iff in H.
  repeat rewrite Z.leb_le in H. decompose [and] H. clear H.
  destruct dt as [y m d h mi s us].
  unfold Datetime.ltb, Datetime.fields, date_of, date in *.
  cbn [Datetime.year Datetime.month Datetime.day Datetime.hour
       Datetime.minute Datetime.second Datetime.microsecond
       Datetime.lex_ltb] in *.
  rewrite !Z.ltb_irrefl, !Z.eqb_refl. cbn [orb andb].
  destruct (Z.ltb_spec 0 h), (Z.eqb_spec 0 h), (Z.ltb_spec 0 mi),
    (Z.eqb_spec 0 mi), (Z.ltb_spec 0 s), (Z.eqb_spec 0 s),
    (Z.ltb_spec 0 us); cbn [orb andb]; rewrite ?andb_false_r;
    (split; [ intros Hlt [=]; (discriminate || lia)
            | intros Hne; try reflexivity; exfalso; try lia;
              apply Hne; f_equal; lia ]).
Qed.

(** X19. A shipping date of today is reported as past: when the record
    carries the date of the current moment, written YYYY-MM-DD, the
    warning about a past date is raised unless the current moment is
    midnight sharp. *)
Theorem today_is_in_the_past (F : float_ops) (now : Datetime.t)
    (data : dict json) :
  canonical_record data ->
  Datetime.valid now = true ->
  dict_get "shipping_date" data = Some (JStr (Datetime.iso_date now)) ->
  exists r,
    validate_parsed_data F now data = Returned r
    /\ (In "Shipping date is in the past" (warnings r)
        <-> now <> date_of now).
Proof.
  intros Hcan Hvalid Hget.
  destruct (validate_warnings F now data Hcan) as (r & Hret & Hw).
  exists r. split; [exact Hret|]. rewrite Hw, in_app_iff.
  assert (Hdate : date_warning now data
                  = if Datetime.ltb (date_of now) now
                    then ["Shipping date is in the past"] else []).
  { unfold date_warning.
    now rewrite Hget, (strptime_iso_date now Hvalid). }
  assert (Hweight : ~ In "Shipping date is in the past"
                        (weight_warning F data)).
  { unfold weight_warning.
    destruct (dict_get "package_weight" data) as [[| | | |s| |]|];
      try (intros []).
    destruct (float_of_str F s) as [x|];
      [destruct (float_le_0 F x); [|destruct (float_gt_1000 F x)]|];
      cbn [In]; intros Hin; intuition discriminate. }
  rewrite Hdate, <- (midnight_before now Hvalid).
  destruct (Datetime.ltb (date_of now) now); cbn [In]; split.
  - reflexivity.
  - intros _. right. now left.
  - tauto.
  - discriminate.
Qed.

Lemma today_record_canonical : canonical_record today_record.
Proof.
  intros field v Hf Hget. cbv in Hf.
  repeat (destruct Hf as [<-|Hf];
          [cbv in Hget; first [discriminate
                              | injection Hget as <-; now eexists]|]).
  destruct Hf.
Qed.

Lemma today_is_in_the_past_witness :
  exists r,
    validate_parsed_data DecimalFloat.ops example_now today_record
    = Returned r
    /\ (In "Shipping date is in the past" (warnings r)
        <-> example_now <> date_of example_now).
Proof.
  apply (today_is_in_the_past DecimalFloat.ops example_now today_record
           today_record_canonical eq_refl eq_refl).
Defined.

(* ------------------------------------------------------------------ *)
(** ** The form workflow and the file checks *)

Section Workflow.

Context {W : Type} (nova : NovaActAutomation.agent W).

Lemma fill_as_table (data : dict json) :
  NovaActAutomation.fill_shipment_form nova data
  = enter_all nova data form_fields.
Proof. reflexivity. Qed.

Lemma enter_parsed now data field rest w :
  In field canonical_fields ->
  NovaActAutomation.enter nova (parse_json_data now data) field rest w
  = if filledb data field
    then NovaActAutomation.call
           (NovaActAutomation.act nova
              ("Enter '" ++ _normalize_value field (resolve data field)
               ++ rest))
           w
    else (w, inl tt).
Proof.
  intros Hf. unfold NovaActAutomation.enter, filledb.
  rewrite (parse_get now data field Hf).
  destruct (is_not_none (resolve data field)); [|reflexivity].
  cbn [truthy PyStr.str andb].
  now destruct (Str.is_empty _).
Qed.

Lemma enter_all_parsed now data table :
  (forall field rest,
      In (field, rest) table ->
      In field canonical_fields
      /\ rest = "' in the " ++ Str.replace_char "_" " " field ++ " field") ->
  forall w,
    enter_all nova (parse_json_data now data) table w
    = act_all nova
        (map (form_prompt data) (filter (filledb data) (map fst table))) w.
Proof.
  induction table as [|[field rest] table IH]; intros Htable w.
  - reflexivity.
  - destruct (Htable field rest (or_introl eq_refl)) as [Hf ->].
    cbn [enter_all map fst filter].
    unfold NovaActAutomation.and_then at 1.
    rewrite (enter_parsed now data field _ w Hf).
    assert (IH' := IH (fun f r H => Htable f r (or_intror H))).
    destruct (filledb data field); cbn [map act_all].
    + unfold NovaActAutomation.and_then, form_prompt.
      destruct (NovaActAutomation.call _ w) as [w' [[]|e]];
        [apply IH' | reflexivity].
    + apply IH'.
Qed.

Lemma form_fields_table field rest :
  In (field, rest) form_fields ->
  In field canonical_fields
  /\ rest = "' in the " ++ Str.replace_char "_" " " field ++ " field".
Proof.
  intros H. cbv [form_fields In] in H.
  repeat (destruct H as [[= <- <-]|H]; [split; [cbv; tauto | reflexivity]|]).
  destruct H.
Qed.

End Workflow.

(** X20. Filling the form by hand from the record of a parsed document
    types exactly the fields that the validator reports as found, in table
    order: one prompt per field, with the normalised value between quotes
    and the field name with spaces; nothing is typed for the other fields
    or for [_metadata], and a call of the agent that raises ends the
    filling. *)
Theorem fill_form_types_found_fields {W : Type}
    (nova : NovaActAutomation.agent W) (F : float_ops)
    (now now' : Datetime.t) (data : json) (w : W) :
  exists r,
    validate_parsed_data F now (parse_json_data now' data) = Returned r
    /\ NovaActAutomation.fill_shipment_form nova (parse_json_data now' data) w
       = act_all nova (map (form_prompt data) (found_fields r)) w.
Proof.
  destruct (validate_returns F now (parse_json_data now' data)
              (parse_output_canonical now' data))
    as (r & Hret & _ & _ & Hfound & _).
  exists r. split; [exact Hret|].
  rewrite fill_as_table, (enter_all_parsed nova now' data form_fields)
    by apply form_fields_table.
  rewrite Hfound. f_equal. f_equal.
  change (map fst form_fields) with canonical_fields.
  apply filter_ext_in. intros f Hf. symmetry. now apply parse_present.
Qed.

Lemma fill_form_types_found_fields_witness :
  NovaActAutomation.fill_shipment_form recorder
    (parse_json_data example_now weight_doc) []
  = (["Enter '25.3' in the package weight field"], inl tt).
Proof.
  destruct (fill_form_types_found_fields recorder DecimalFloat.ops
              example_now example_now weight_doc [])
    as (r & Hret & ->).
  vm_compute in Hret. injection Hret as <-. reflexivity.
Defined.

Lemma supported_types_wf : NoDup (dict_keys FileUtils.SUPPORTED_TYPES).
Proof.
  cbv [FileUtils.SUPPORTED_TYPES dict_keys map fst].
  repeat (constructor; [cbv [In]; intuition discriminate|]). constructor.
Qed.

(** X21. [validate_file] never raises, and it accepts a path exactly when
    the path exists, is a regular file, has a supported extension up to
    letter case, a size of at most the maximum of that extension (the
    maximum itself included) and is readable, every one of these questions
    being answered without an exception; the message is [File is valid]
    exactly then. *)
Theorem validate_file_verdict (file_path : path) :
  (fst (FileUtils.validate_file file_path) = true
   <-> path_exists file_path = Ans true
       /\ is_file file_path = Ans true
       /\ exists max_size file_size,
            In (Str.lower (suffix file_path), max_size)
              FileUtils.SUPPORTED_TYPES
            /\ st_size file_path = Ans file_size
            /\ file_size <= max_size
            /\ access_r file_path = Ans true)
  /\ (fst (FileUtils.validate_file file_path) = true
      <-> snd (FileUtils.validate_file file_path) = "File is valid").
Proof.
  unfold FileUtils.validate_file, FileUtils.try_except, FileUtils.bind.
  destruct (path_exists file_path) as [[|]|e1]; cbn [negb fst snd];
    try (split; split;
         [discriminate | intros (H & _); discriminate
         | discriminate | cbn; discriminate]).
  destruct (is_file file_path) as [[|]|e2]; cbn [negb fst snd];
    try (split; split;
         [discriminate | intros (_ & H & _); discriminate
         | discriminate | cbn; discriminate]).
  destruct (dict_get (Str.lower (suffix file_path)) FileUtils.SUPPORTED_TYPES)
    as [max_size|] eqn:Eext; cbn [fst snd].
  2:{ split; split; try discriminate; try (cbn; discriminate).
      intros (_ & _ & m & s & Hin & _).
      apply (dict_get_wf _ _ _ supported_types_wf) in Hin. congruence. }
  destruct (st_size file_path) as [file_size|e3]; cbn [fst snd].
  2:{ split; split; try discriminate; try (cbn; discriminate).
      intros (_ & _ & m & s & _ & H & _). discriminate. }
  destruct (Z.ltb_spec max_size file_size) as [Hlt|Hle]; cbn [fst snd].
  { split; split; try discriminate; try (cbn; discriminate).
    intros (_ & _ & m & s & Hin & [= <-] & Hsize & _).
    apply (dict_get_wf _ _ _ supported_types_wf) in Hin.
    rewrite Hin in Eext. injection Eext as <-. lia. }
  destruct (access_r file_path) as [[|]|e4]; cbn [negb fst snd].
  - split; split; try reflexivity.
    intros _. repeat split. exists max_size, file_size.
    repeat split; try assumption.
    now apply (dict_get_wf _ _ _ supported_types_wf).
  - split; split; try discriminate; try (cbn; discriminate).
    intros (_ & _ & m & s & _ & _ & _ & H). discriminate.
  - split; split; try discriminate; try (cbn; discriminate).
    intros (_ & _ & m & s & _ & _ & _ & H). discriminate.
Qed.

Lemma validate_file_verdict_witness :
  fst (FileUtils.validate_file big_json_path) = true
  /\ snd (FileUtils.validate_file big_json_path) = "File is valid".
Proof.
  assert (Hok : fst (FileUtils.validate_file big_json_path) = true).
  { apply (proj1 (validate_file_verdict big_json_path)).
    split; [reflexivity|]. split; [reflexivity|].
    exists 1048576, 1048576. split; [cbv; tauto|].
    split; [reflexivity|]. split; [lia | reflexivity]. }
  split; [exact Hok|].
  exact (proj1 (proj2 (validate_file_verdict big_json_path)) Hok).
Defined.

(** X22. The upload is not guarded by the file checks: [not] of the pair
    that [validate_file] returns is false whatever the pair holds, so for a
    path that exists [upload_json_and_autofill] never raises its
    [ValueError], and with an agent that answers every call the file
    chooser is given the resolved path, also when [validate_file] rejects
    the file. *)
Theorem upload_ignores_file_validation {W : Type}
    (nova : NovaActAutomation.agent W) (upload_file : path) (w : W) :
  path_exists upload_file = Ans true ->
  (forall msg,
      snd (NovaActAutomation.upload_json_and_autofill nova upload_file w)
      <> inr (NovaActAutomation.Invalid msg))
  /\ (forall absolute_path,
         resolved upload_file = Ans absolute_path ->
         NovaActAutomation.upload_json_and_autofill recorder upload_file []
         = ([ "Locate the file upload input field on the form";
              absolute_path;
              "Check if any form fields have been populated or if the file upload field shows a filename" ],
            inl tt)).
Proof.
  intros Hexists. unfold NovaActAutomation.upload_json_and_autofill.
  rewrite Hexists.
  change (truthy (NovaActAutomation.tuple
                    (FileUtils.validate_file upload_file))) with true.
  cbn [negb]. split.
  - intros msg. destruct (resolved upload_file) as [absolute_path|e].
    + unfold NovaActAutomation.and_then, NovaActAutomation.call,
        NovaActAutomation.try_pass.
      destruct (NovaActAutomation.act nova _ w) as [w1 [[]|e1]];
        [|discriminate].
      destruct (NovaActAutomation.set_input_files nova _ w1)
        as [w2 [[]|e2]]; discriminate.
    + discriminate.
  - intros absolute_path ->. reflexivity.
Qed.

Lemma upload_ignores_file_validation_witness :
  fst (FileUtils.validate_file exe_path) = false
  /\ NovaActAutomation.upload_json_and_autofill recorder exe_path []
     = ([ "Locate the file upload input field on the form";
          "/srv/data/run.exe";
          "Check if any form fields have been populated or if the file upload field shows a filename" ],
        inl tt).
Proof.
  split; [reflexivity|].
  exact (proj2 (upload_ignores_file_validation recorder exe_path []
                  eq_refl) "/srv/data/run.exe" eq_refl).
Defined.

(** X23. Loading the shipment data succeeds exactly when the data file
    exists and holds a JSON document, and then it returns the record of
    [parse_json_data], whatever the validation report says: the report is
    only logged, and no exception of the validator leaves the method. *)
Theorem load_shipment_data_result (F : float_ops) (now now' : Datetime.t)
    (data_file : path) :
  (forall parsed_data,
      NovaActAutomation._load_shipment_data F now now' data_file
      = inl parsed_data
      <-> path_exists data_file = Ans true
          /\ exists raw_data,
               load_json data_file = Ans raw_data
               /\ parsed_data = parse_json_data now raw_data)
  /\ (forall e,
         NovaActAutomation._load_shipment_data F now now' data_file
         <> inr (NovaActAutomation.Escaped e)).
Proof.
  unfold NovaActAutomation._load_shipment_data,
    NovaActAutomation.parse_json_file.
  destruct (path_exists data_file) as [[|]|e1].
  - destruct (load_json data_file) as [raw_data|e2].
    + destruct (validate_returns F now' (parse_json_data now raw_data)
                  (parse_output_canonical now raw_data)) as (r & -> & _).
      split; [|discriminate].
      intros parsed_data. split.
      * intros [= <-]. split; [reflexivity|]. now exists raw_data.
      * intros (_ & raw & [= <-] & ->). reflexivity.
    + split; [|discriminate].
      intros parsed_data. split; [discriminate|].
      intros (_ & raw & H & _). discriminate.
  - split; [|discriminate].
    intros parsed_data. split; [discriminate|]. intros (H & _). discriminate.
  - split; [|discriminate].
    intros parsed_data. split; [discriminate|]. intros (H & _). discriminate.
Qed.

Lemma load_shipment_data_result_witness :
  NovaActAutomation._load_shipment_data DecimalFloat.ops example_now
    example_now big_json_path
  = inl (parse_json_data example_now weight_doc).
Proof.
  apply (proj1 (load_shipment_data_result DecimalFloat.ops example_now
                  example_now big_json_path)).
  split; [reflexivity|]. eexists. split; reflexivity.
Defined.

(* ------------------------------------------------------------------ *)
(** ** The sign of a weight *)

Lemma normalize_weight_digits ds :
  ds <> "" -> all_chars Str.is_digit ds = true ->
  (_normalize_value "package_weight" (JStr ds) = ds
   /\ _normalize_value "package_weight" (JStr (String "-" ds)) = ds).
Proof.
  intros Hne Hds.
  assert (Htrim : Str.strip ds = ds).
  { apply strip_no_space. revert Hds. apply all_chars_impl.
    intros c Hc. apply digit_or_dash_not_space. now rewrite Hc. }
  assert (Htrim' : Str.strip (String "-" ds) = String "-" ds).
  { apply strip_no_space. cbn [all_chars]. cbn [andb].
    change (Str.is_space "-") with false. cbn [negb andb].
    revert Hds. apply all_chars_impl.
    intros c Hc. apply digit_or_dash_not_space. now rewrite Hc. }
  assert (Hhere : weight_match_here ds = Some ds).
  { rewrite <- (append_empty_r ds) at 1.
    now apply weight_match_integer. }
  split.
  - rewrite normalize_weight by discriminate. cbn [PyStr.str].
    now rewrite Htrim, (weight_search_here _ _ Hhere).
  - rewrite normalize_weight by discriminate. cbn [PyStr.str].
    rewrite Htrim'.
    change (String "-" ds) with ("-" ++ ds).
    rewrite weight_search_skip by reflexivity.
    now rewrite (weight_search_here _ _ Hhere).
Qed.

(** X24. The sign of a weight is lost: an integer weight normalises to the
    decimal text of its absolute value, so a negative weight reaches the
    record, and the validator, as a positive one. *)
Theorem integer_weight_loses_sign (z : Z) :
  _normalize_value "package_weight" (JInt z) = Str.of_Z (Z.abs z).
Proof.
  change (_normalize_value "package_weight" (JInt z))
    with (_normalize_value "package_weight" (JStr (Str.of_Z z))).
  destruct z as [|p|p]; cbn [Z.abs Str.of_Z].
  - reflexivity.
  - destruct (of_N_digits (Npos p)) as [Hd Hne].
    exact (proj1 (normalize_weight_digits _ Hne Hd)).
  - destruct (of_N_digits (Npos p)) as [Hd Hne].
    exact (proj2 (normalize_weight_digits _ Hne Hd)).
Qed.
